(** * pdf-to-html-converter: the conversion orchestrator and its event history

    A shallow embedding of [backend/app/refinement_engine.py] (class
    [RefinementEngine]) and of the message history and percentage code of
    [backend/app/websocket_manager.py], with the properties the natural
    language specification states about them.

    Layout:
    - [Py]      the Python [str] and [int] operations the code relies on;
    - [Engine]  [RefinementEngine]: [_process_single_page],
                [_combine_pages_to_html], [_generate_fallback_html],
                [_cleanup_temp_files], [convert_pdf_to_html];
    - [WS]      [WebSocketManager._send_message], [send_page_completion] and
                the callback built by [create_progress_callback];
    - the theorems, one block per module. *)

From Stdlib Require Import ZArith NArith Ascii String List Lia.
From stdpp Require Import base tactics option list list_numbers sorting gmap pretty.

Local Open Scope Z_scope.

(* ===================================================================== *)
(** * Python values                                                       *)
(* ===================================================================== *)

Module Py.

(** A Python [str] is a sequence of Unicode code points. *)
Definition char : Type := N.
Definition str : Type := list N.

(** An ASCII literal of the source, as a [str]. *)
Definition lit (s : string) : str := N_of_ascii <$> list_ascii_of_string s.

(** The double quote, which a literal cannot hold. *)
Definition dq : str := [34%N].

(** The line feed of ['\n'.join]. *)
Definition nl : str := [10%N].

(** [str(n)] for an [int]. *)
Definition str_of_int (n : Z) : str := lit (pretty n).

(** [s.startswith(p)]. *)
Fixpoint startswith (p s : str) : bool :=
  match p, s with
  | [], _ => true
  | _ :: _, [] => false
  | a :: p', b :: s' => if N.eqb a b then startswith p' s' else false
  end.

(** Index normalisation of slices and of the [start] argument of [find]:
    a negative index counts from the end, and both ends are clamped. *)
Definition clamp (i : Z) (len : Z) : Z :=
  if i <? 0 then Z.max 0 (i + len) else Z.min i len.

Definition len (s : str) : Z := Z.of_nat (length s).

(** [len(l)] of a list. *)
Definition len_list {A} (l : list A) : Z := Z.of_nat (length l).

(** [s[a:b]]. *)
Definition slice (s : str) (a b : Z) : str :=
  let a' := clamp a (len s) in
  let b' := clamp b (len s) in
  take (Z.to_nat (b' - a')) (drop (Z.to_nat a') s).

(** [s[a:]]. *)
Definition slice_from (s : str) (a : Z) : str :=
  drop (Z.to_nat (clamp a (len s))) s.

(** The scan of [find]: [s] is the text from index [i] on. *)
Fixpoint find_go (sub s : str) (i : Z) : Z :=
  if startswith sub s then i
  else match s with
       | [] => -1
       | _ :: s' => find_go sub s' (i + 1)
       end.

(** [s.find(sub, start)]: the lowest index at or after [start] where [sub]
    occurs, [-1] when there is none. *)
Definition find (sub s : str) (start : Z) : Z :=
  if len s <? start then -1
  else let k := clamp start (len s) in find_go sub (drop (Z.to_nat k) s) k.

(** The scan of [rfind]: the last match wins. *)
Fixpoint rfind_go (sub s : str) (i : Z) : Z :=
  let here := if startswith sub s then i else -1 in
  match s with
  | [] => here
  | _ :: s' =>
      let later := rfind_go sub s' (i + 1) in
      if later =? -1 then here else later
  end.

(** [s.rfind(sub)]: the highest index where [sub] occurs, [-1] when none. *)
Definition rfind (sub s : str) : Z := rfind_go sub s 0.

(** [c.isspace()], the characters [str.strip()] removes. *)
Definition isspace (c : char) : bool :=
  ((9 <=? c) && (c <=? 13) || (28 <=? c) && (c <=? 32)
   || (c =? 133) || (c =? 160) || (c =? 5760)
   || (8192 <=? c) && (c <=? 8202)
   || (c =? 8232) || (c =? 8233) || (c =? 8239) || (c =? 8287)
   || (c =? 12288))%N.

Fixpoint lstrip (s : str) : str :=
  match s with
  | [] => []
  | c :: s' => if isspace c then lstrip s' else s
  end.

Definition rstrip (s : str) : str := reverse (lstrip (reverse s)).

(** [s.strip()]. *)
Definition strip (s : str) : str := lstrip (rstrip s).

(** [sep.join(parts)]. *)
Fixpoint join (sep : str) (parts : list str) : str :=
  match parts with
  | [] => []
  | [p] => p
  | p :: rest => p ++ sep ++ join sep rest
  end.

End Py.

Import Py.

#[global] Arguments lit : simpl never.
#[global] Arguments str_of_int : simpl never.

(* ===================================================================== *)
(** * refinement_engine.py                                                *)
(* ===================================================================== *)

Module Engine.

(** A raised [Exception], kept as its message [str(e)]. *)
Definition exn : Type := str.

(** The calls the engine makes on its collaborators, in the order made. *)
Inductive Call : Type :=
| Uuid4
| ProcessPdfFile (pdf_path : str)
| GenerateInitialHtml (page : Z)
| StartBrowser
| StopBrowser
| RenderAndScreenshot (page : Z) (html : str)
| RefineHtml (page : Z) (current_html : str) (iteration : Z)
| AnalyzeVisualSimilarity (page : Z)
| CleanupScreenshot (path : str)
| ProgressCallback (task_id message : str)
| CleanupTempFiles (image_paths : list str)
| CleanupAllScreenshots.

(** [task_info['status']]. *)
Inductive Status : Type := started | completed | failed.

Section WithCollaborators.

(** [World] is everything outside the engine (the files, the browser, the
    remote model); [Dim] is the type of a page width or height in points,
    a Python [float]. *)
Context {World Dim : Type}.

(** One entry of [pages_data], with the keys the engine reads. *)
Record PageData : Type := {
  page_number : Z;
  image_path : str;
  width : Dim;
  height : Dim;
  pixel_width : Z;
  pixel_height : Z
}.

(** [pdf_info]; [title] is [None] when the key is missing. *)
Record PdfInfo : Type := { title : option str }.

(** A page result.  The dictionary returned by [_process_single_page] and
    the fallback dictionary of [convert_pdf_to_html] share four keys; a key
    that only one of them has is an [option].  The [processing_time] key, a
    difference of clock readings, is left out. *)
Record PageResult : Type := {
  r_page_number : Z;
  html_content : str;
  refinement_iterations : Z;
  final_quality_score : Z;
  quality_progression : option (list Z);
  original_dimensions : option (Dim * Dim);
  pixel_dimensions : option (Z * Z);
  error : option str
}.

(** [task_info], the dictionary kept in [active_tasks]; the clock readings
    [start_time], [end_time] and [total_time] are left out. *)
Record TaskInfo : Type := {
  task_id : str;
  task_pdf_path : str;
  status : Status;
  total_pages : Z;
  completed_pages : Z;
  pages : list PageResult;
  errors : list str;
  task_pdf_info : option PdfInfo;
  combined_html : option str
}.

(** The dictionary [convert_pdf_to_html] returns. *)
Inductive ConversionResult : Type :=
| Success (task_id : str) (total_pages completed_pages : Z)
          (pages : list PageResult) (combined_html : str) (pdf_info : PdfInfo)
          (errors : list str)
| Error (task_id : str) (error : str) (errors : list str).

(** The collaborators and settings an engine instance holds.  A call
    either raises or returns, and may change the world.

    [process_pdf_file] is the call
    [self.pdf_processor.process_pdf_file(pdf_path, str(self.temp_dir))] of
    [convert_pdf_to_html], taken as the engine writes it: a call that
    raises or returns [(pages_data, pdf_info)].  In [pdf_processor.py] the
    name [process_pdf_file] is a function of the module, not a method of
    the class [PDFProcessor] the engine instantiates; on such an object the
    attribute lookup raises, which is the raising case here.

    [cleanup_temp_files] and [cleanup_all_screenshots] catch their own
    failures in the source; the engine wraps them in a handler all the
    same, and so they are allowed to raise here. *)
Record Collaborators : Type := {
  max_iterations : Z;
  str_of_dim : Dim -> str;
  uuid4 : World -> str * World;
  process_pdf_file : str -> World -> (exn + list PageData * PdfInfo) * World;
  generate_initial_html : str -> PageData -> World -> (exn + str) * World;
  start_browser : World -> (exn + ()) * World;
  stop_browser : World -> World;
  render_and_screenshot : str -> PageData -> World -> (exn + str) * World;
  refine_html :
    str -> str -> str -> PageData -> Z -> World -> (exn + str) * World;
  (** the [overall_score] of the analysis, [None] when it has none *)
  analyze_visual_similarity : str -> str -> World -> (exn + option Z) * World;
  cleanup_screenshot : str -> World -> World;
  progress_callback : option (str -> str -> World -> (exn + ()) * World);
  cleanup_temp_files : list PageData -> World -> (exn + ()) * World;
  cleanup_all_screenshots : World -> (exn + ()) * World
}.

Context (C : Collaborators).

(** ** The state and the monad of the engine *)

Record St : Type := {
  world : World;
  calls : list Call;
  active_tasks : gmap str TaskInfo
}.

Definition M (A : Type) : Type := St -> (exn + A) * St.

Definition ret {A} (a : A) : M A := fun st => (inr a, st).

Definition bind {A B} (m : M A) (k : A -> M B) : M B :=
  fun st => match m st with
            | (inl e, st') => (inl e, st')
            | (inr a, st') => k a st'
            end.

Definition raise {A} (e : exn) : M A := fun st => (inl e, st).

(** [try: m / except Exception as e: h e]. *)
Definition try_except {A} (m : M A) (h : exn -> M A) : M A :=
  fun st => match m st with
            | (inl e, st') => h e st'
            | (inr a, st') => (inr a, st')
            end.

(** [try: m / finally: f]. *)
Definition try_finally {A} (m : M A) (f : M ()) : M A :=
  fun st => match m st with
            | (r, st') =>
                match f st' with
                | (inl e, st'') => (inl e, st'')
                | (inr _, st'') => (r, st'')
                end
            end.

#[export] Instance M_ret : MRet M := @ret.
#[export] Instance M_bind : MBind M := fun A B k m => bind m k.

(** The state after a logged call that left the world as [w]. *)
Definition logged (st : St) (c : Call) (w : World) : St :=
  {| world := w; calls := calls st ++ [c]; active_tasks := active_tasks st |}.

(** A collaborator call: it is logged, then answered by the world. *)
Definition call {A} (c : Call) (f : World -> (exn + A) * World) : M A :=
  fun st => let '(r, w) := f (world st) in (r, logged st c w).

(** A collaborator call that catches its own failures. *)
Definition call_quiet (c : Call) (f : World -> World) : M () :=
  call c (fun w => (inr (), f w)).

(** A mutation of the dictionary [active_tasks[tid]]. *)
Definition update_task (tid : str) (f : TaskInfo -> TaskInfo) : M () :=
  fun st => (inr (), {| world := world st; calls := calls st;
                        active_tasks := alter f tid (active_tasks st) |}).

Definition get_task (tid : str) : M (option TaskInfo) :=
  fun st => (inr (active_tasks st !! tid), st).

(** ** [_update_progress]

    The callback is optional; whatever it raises is logged and dropped. *)
Definition _update_progress (tid message : str) : M () :=
  match progress_callback C with
  | Some cb =>
      try_except (call (ProgressCallback tid message) (cb tid message))
                 (fun _ => ret ())
  | None => ret ()
  end.

(** The calls one [_update_progress] adds to the log. *)
Definition progress_call (tid message : str) : list Call :=
  match progress_callback C with
  | Some _ => [ProgressCallback tid message]
  | None => []
  end.

(** ** [_process_single_page] *)

(** The variables the refinement loop assigns. *)
Record LoopVars : Type := {
  current_html : str;
  iterations_done : Z;        (* refinement_iterations *)
  quality_scores : list Z
}.

(** How an iteration of a [for] loop ends. *)
Inductive Flow : Type := Next | Break.

(** [for i in its: body], where the body may [break]. *)
Fixpoint for_loop {V} (body : Z -> V -> M (Flow * V)) (its : list Z) (v : V)
  : M V :=
  match its with
  | [] => ret v
  | i :: rest =>
      r ← body i v;
      match r with
      | (Break, v') => ret v'
      | (Next, v') => for_loop body rest v'
      end
  end.

(** [range(n)]. *)
Definition range (n : Z) : list Z := seqZ 0 n.

(** [quality_analysis.get('overall_score', 7)]. *)
Definition overall_score (analysis : option Z) : Z := default 7 analysis.

(** [max(l)] of a non-empty list. *)
Definition py_max (l : list Z) : Z :=
  match l with
  | [] => 0
  | x :: l' => foldl Z.max x l'
  end.

(** The body of [for iteration in range(self.max_iterations)].  Inside the
    outer [try] only the [refine_html] call can raise: the analysis has its
    own handler and [cleanup_screenshot] catches its failures, so the
    handler that breaks sees the variables as they were before the call. *)
Definition refining_message (page_data : PageData) (iteration : Z) : str :=
  lit "Refining page " ++ str_of_int (page_number page_data)
  ++ lit " (iteration " ++ str_of_int (iteration + 1) ++ lit "/"
  ++ str_of_int (max_iterations C) ++ lit ")...".

Definition refine_iteration (tid : str) (page_data : PageData)
    (iteration : Z) (v : LoopVars) : M (Flow * LoopVars) :=
  let n := iterations_done v + 1 in
  _update_progress tid (refining_message page_data iteration);;
  screenshot_path ←
    call (RenderAndScreenshot (page_number page_data) (current_html v))
         (render_and_screenshot C (current_html v) page_data);
  try_except
    (refined_html ←
       call (RefineHtml (page_number page_data) (current_html v)
                        (iteration + 1))
            (refine_html C (image_path page_data) (current_html v)
                         screenshot_path page_data (iteration + 1));
     score ←
       try_except
         (analysis ←
            call (AnalyzeVisualSimilarity (page_number page_data))
                 (analyze_visual_similarity C (image_path page_data)
                                            screenshot_path);
          ret (overall_score analysis))
         (fun _ => ret 7);
     call_quiet (CleanupScreenshot screenshot_path)
                (cleanup_screenshot C screenshot_path);;
     ret (Next, {| current_html := refined_html;
                   iterations_done := n;
                   quality_scores := quality_scores v ++ [score] |}))
    (fun _ =>
       ret (Break, {| current_html := current_html v;
                      iterations_done := n;
                      quality_scores := quality_scores v |})).

(** A score the loop records: the default, or what an analysis gave. *)
Definition recorded (page_data : PageData) (s : Z) : Prop :=
  s = 7
  ∨ ∃ shot w o w',
      analyze_visual_similarity C (image_path page_data) shot w = (inr o, w')
      ∧ s = overall_score o.

(** The [result] dictionary, from the variables as the loop left them. *)
Definition page_result (page_data : PageData) (v : LoopVars) : PageResult :=
  {| r_page_number := page_number page_data;
     html_content := current_html v;
     refinement_iterations := iterations_done v;
     final_quality_score :=
       match quality_scores v with
       | [] => 7
       | _ :: _ => py_max (quality_scores v)
       end;
     quality_progression := Some (quality_scores v);
     original_dimensions := Some (width page_data, height page_data);
     pixel_dimensions :=
       Some (pixel_width page_data, pixel_height page_data);
     error := None |}.

Definition generating_message (page_data : PageData) : str :=
  lit "Generating HTML for page " ++ str_of_int (page_number page_data)
  ++ lit "...".

Definition _process_single_page (tid : str) (page_data : PageData)
  : M PageResult :=
  _update_progress tid (generating_message page_data);;
  html ← call (GenerateInitialHtml (page_number page_data))
              (generate_initial_html C (image_path page_data) page_data);
  call StartBrowser (start_browser C);;
  v ← try_finally
        (for_loop (refine_iteration tid page_data) (range (max_iterations C))
                  {| current_html := html; iterations_done := 0;
                     quality_scores := [] |})
        (call_quiet StopBrowser (stop_browser C));
  ret (page_result page_data v).

(** ** [_generate_fallback_html] *)

Definition q (s : string) : str := dq ++ lit s ++ dq.

Definition _generate_fallback_html (page_data : PageData) : str :=
  join nl [
    lit "<!DOCTYPE html>";
    lit "<html lang=" ++ q "en" ++ lit ">";
    lit "<head>";
    lit "    <meta charset=" ++ q "UTF-8" ++ lit ">";
    lit "    <meta name=" ++ q "viewport" ++ lit " content="
      ++ q "width=device-width, initial-scale=1.0" ++ lit ">";
    lit "    <title>Page " ++ str_of_int (page_number page_data)
      ++ lit "</title>";
    lit "    <style>";
    lit "        body {";
    lit "            margin: 40px;";
    lit "            font-family: Arial, sans-serif;";
    lit "            display: flex;";
    lit "            align-items: center;";
    lit "            justify-content: center;";
    lit "            min-height: 60vh;";
    lit "            background-color: #f8f9fa;";
    lit "        }";
    lit "        .error-message {";
    lit "            text-align: center;";
    lit "            color: #6c757d;";
    lit "            padding: 40px;";
    lit "            border: 2px dashed #dee2e6;";
    lit "            border-radius: 10px;";
    lit "        }";
    lit "    </style>";
    lit "</head>";
    lit "<body>";
    lit "    <div class=" ++ q "error-message" ++ lit ">";
    lit "        <h2>Page " ++ str_of_int (page_number page_data)
      ++ lit "</h2>";
    lit "        <p>This page could not be processed automatically.</p>";
    lit "        <p><small>Original dimensions: "
      ++ str_of_dim C (width page_data) ++ lit "pt " ++ [195%N; 8212%N]
      ++ lit " " ++ str_of_dim C (height page_data)
      ++ lit "pt</small></p>";
    lit "    </div>";
    lit "</body>";
    lit "</html>"
  ].

(** The fallback dictionary built in the page handler. *)
Definition fallback_page (page_data : PageData) (e : exn) : PageResult :=
  {| r_page_number := page_number page_data;
     html_content := _generate_fallback_html page_data;
     refinement_iterations := 0;
     final_quality_score := 0;
     quality_progression := None;
     original_dimensions := None;
     pixel_dimensions := None;
     error := Some e |}.

(** ** [_combine_pages_to_html] *)

(** [sorted(l, key=key)]: a stable sort, ascending in the key. *)
Fixpoint insert_by {A} (key : A -> Z) (x : A) (l : list A) : list A :=
  match l with
  | [] => [x]
  | y :: l' => if key x <=? key y then x :: l else y :: insert_by key x l'
  end.

Definition sorted {A} (key : A -> Z) (l : list A) : list A :=
  foldr (insert_by key) [] l.

(** The body extraction of the page loop.  On a [str] none of [find],
    [rfind], slicing and [strip] raises, so the [except] branch that
    substitutes an error paragraph is not taken. *)
Definition page_content (page_html : str) : str :=
  let body_start := find (lit "<body") page_html 0 in
  if negb (body_start =? -1) then
    let body_start := find (lit ">") page_html body_start + 1 in
    let body_end := rfind (lit "</body>") page_html in
    if negb (body_end =? -1) then strip (slice page_html body_start body_end)
    else strip (slice_from page_html body_start)
  else page_html.

(** The first of the lines a page adds: the page container. *)
Definition container_line (n : Z) : str :=
  lit "    <div class=" ++ q "pdf-page" ++ lit " id=" ++ dq ++ lit "page-"
  ++ str_of_int n ++ dq ++ lit ">".

(** The second: the header, with the page count [total]. *)
Definition header_line (n total : Z) : str :=
  lit "        <div class=" ++ q "page-header" ++ lit ">Page "
  ++ str_of_int n ++ lit " of " ++ str_of_int total ++ lit "</div>".

(** What one turn of [for page in sorted_pages] adds to [html_parts]. *)
Definition add_page (total : Z) (html_parts : list str) (page : PageResult)
  : list str :=
  let html_parts :=
    html_parts ++ [
      container_line (r_page_number page);
      header_line (r_page_number page) total;
      lit "        <div class=" ++ q "page-content" ++ lit ">"
    ] in
  let html_parts :=
    html_parts ++ [lit "            " ++ page_content (html_content page)] in
  html_parts ++ [lit "        </div>"; lit "    </div>"].

Definition head_parts (pdf_info : PdfInfo) : list str := [
  lit "<!DOCTYPE html>";
  lit "<html lang=" ++ q "en" ++ lit ">";
  lit "<head>";
  lit "    <meta charset=" ++ q "UTF-8" ++ lit ">";
  lit "    <meta name=" ++ q "viewport" ++ lit " content="
    ++ q "width=device-width, initial-scale=1.0" ++ lit ">";
  lit "    <title>"
    ++ default (lit "Converted PDF Document") (title pdf_info)
    ++ lit "</title>";
  lit "    <style>";
  lit "        body { margin: 0; padding: 20px; font-family: Arial, sans-serif; }";
  lit "        .pdf-page { margin-bottom: 40px; border-bottom: 2px solid #eee; padding-bottom: 20px; }";
  lit "        .page-header { color: #666; font-size: 12px; margin-bottom: 10px; }";
  lit "        .page-content { /* Individual page styles will be embedded */ }";
  lit "    </style>";
  lit "</head>";
  lit "<body>"
].

(** [html_parts] as it stands before the final [join]. *)
Definition combined_parts (pages : list PageResult) (pdf_info : PdfInfo)
  : list str :=
  let sorted_pages := sorted r_page_number pages in
  let html_parts := head_parts pdf_info in
  let html_parts :=
    foldl (add_page (len_list sorted_pages)) html_parts sorted_pages in
  html_parts ++ [lit "</body>"; lit "</html>"].

Definition _combine_pages_to_html (pages : list PageResult)
    (pdf_info : PdfInfo) : str :=
  join nl (combined_parts pages pdf_info).

(** The assembler as the specification words it: one page container per
    page, holding a header and the content of the page. *)
Definition page_block (total : Z) (page : PageResult) : list str := [
  container_line (r_page_number page);
  header_line (r_page_number page) total;
  lit "        <div class=" ++ q "page-content" ++ lit ">";
  lit "            " ++ page_content (html_content page);
  lit "        </div>";
  lit "    </div>"
].

(** A line that opens a page container. *)
Definition is_container (line : str) : bool :=
  startswith (lit "    <div class=" ++ q "pdf-page") line.

(** ** [_cleanup_temp_files] *)

Definition _cleanup_temp_files (pages_data : list PageData) : M () :=
  try_except
    (call (CleanupTempFiles (image_path <$> pages_data))
          (cleanup_temp_files C pages_data);;
     call CleanupAllScreenshots (cleanup_all_screenshots C))
    (fun _ => ret ()).

(** ** [convert_pdf_to_html] *)

Definition new_task (tid pdf_path : str) : TaskInfo :=
  {| task_id := tid; task_pdf_path := pdf_path; status := started;
     total_pages := 0; completed_pages := 0; pages := []; errors := [];
     task_pdf_info := None; combined_html := None |}.

Definition set_extracted (n : Z) (info : PdfInfo) (t : TaskInfo) : TaskInfo :=
  {| task_id := task_id t; task_pdf_path := task_pdf_path t;
     status := status t; total_pages := n;
     completed_pages := completed_pages t; pages := pages t;
     errors := errors t; task_pdf_info := Some info;
     combined_html := combined_html t |}.

Definition incr_completed (t : TaskInfo) : TaskInfo :=
  {| task_id := task_id t; task_pdf_path := task_pdf_path t;
     status := status t; total_pages := total_pages t;
     completed_pages := completed_pages t + 1; pages := pages t;
     errors := errors t; task_pdf_info := task_pdf_info t;
     combined_html := combined_html t |}.

Definition append_error (msg : str) (t : TaskInfo) : TaskInfo :=
  {| task_id := task_id t; task_pdf_path := task_pdf_path t;
     status := status t; total_pages := total_pages t;
     completed_pages := completed_pages t; pages := pages t;
     errors := errors t ++ [msg]; task_pdf_info := task_pdf_info t;
     combined_html := combined_html t |}.

Definition set_completed (ps : list PageResult) (html : str) (t : TaskInfo)
  : TaskInfo :=
  {| task_id := task_id t; task_pdf_path := task_pdf_path t;
     status := completed; total_pages := total_pages t;
     completed_pages := completed_pages t; pages := ps;
     errors := errors t; task_pdf_info := task_pdf_info t;
     combined_html := Some html |}.

Definition set_failed (msg : str) (t : TaskInfo) : TaskInfo :=
  {| task_id := task_id t; task_pdf_path := task_pdf_path t;
     status := failed; total_pages := total_pages t;
     completed_pages := completed_pages t; pages := pages t;
     errors := errors t ++ [msg]; task_pdf_info := task_pdf_info t;
     combined_html := combined_html t |}.

(** [task_info['errors']]. *)
Definition task_errors (tid : str) : M (list str) :=
  t ← get_task tid; ret (from_option errors [] t).

Definition page_error_msg (page_data : PageData) (e : exn) : str :=
  lit "Error processing page " ++ str_of_int (page_number page_data)
  ++ lit ": " ++ e.

(** One turn of [for page_data in pages_data]; [total] is
    [len(pages_data)].  In the source the [append] to [converted_pages]
    comes before the counter update and the progress call of the [try]
    body; neither of the two raises, so the handler finds the list as it
    was before the turn. *)
Definition process_page (tid : str) (total : Z)
    (converted_pages : list PageResult) (page_data : PageData)
  : M (list PageResult) :=
  try_except
    (page_result ← _process_single_page tid page_data;
     update_task tid incr_completed;;
     _update_progress tid
       (lit "Completed page " ++ str_of_int (page_number page_data)
        ++ lit " of " ++ str_of_int total);;
     ret (converted_pages ++ [page_result]))
    (fun e =>
       update_task tid (append_error (page_error_msg page_data e));;
       update_task tid incr_completed;;
       ret (converted_pages ++ [fallback_page page_data e])).

Fixpoint page_loop (tid : str) (total : Z) (pages_data : list PageData)
    (converted_pages : list PageResult) : M (list PageResult) :=
  match pages_data with
  | [] => ret converted_pages
  | page_data :: rest =>
      converted_pages ← process_page tid total converted_pages page_data;
      page_loop tid total rest converted_pages
  end.

(** What the page loop writes into [task_info] for a page whose result is
    [r]: the error message when [r] is a fallback, and the counter. *)
Definition note_page (page_data : PageData) (r : PageResult) (t : TaskInfo)
  : TaskInfo :=
  incr_completed
    match error r with
    | Some e => append_error (page_error_msg page_data e) t
    | None => t
    end.

Definition note_pages (prs : list (PageData * PageResult)) (t : TaskInfo)
  : TaskInfo :=
  foldl (λ t pr, note_page pr.1 pr.2 t) t prs.

(** The error messages the page loop records for a run of pages. *)
Definition page_errors (prs : list (PageData * PageResult)) : list str :=
  omap (λ pr, page_error_msg pr.1 <$> error pr.2) prs.

(** What the page loop appends for a page: the result of
    [_process_single_page], or the fallback. *)
Definition page_outcome (page_data : PageData) (r : PageResult) : Prop :=
  (∃ v, r = page_result page_data v
        ∧ 0 ≤ iterations_done v ≤ Z.max 0 (max_iterations C)
        ∧ Forall (recorded page_data) (quality_scores v))
  ∨ (∃ e, r = fallback_page page_data e).

(** [r] is what the page loop appends after some run of
    [_process_single_page] on the page. *)
Definition page_ran (tid : str) (page_data : PageData) (r : PageResult)
  : Prop :=
  ∃ st, match (_process_single_page tid page_data st).1 with
        | inr res => r = res
        | inl e => r = fallback_page page_data e
        end.

(** [if not task_id: task_id = str(uuid.uuid4())]. *)
Definition resolve_task_id (tid : option str) : M str :=
  match tid with
  | Some (c :: t) => ret (c :: t)
  | _ => call Uuid4 (fun w => let '(u, w') := uuid4 C w in (inr u, w'))
  end.

(** [self.active_tasks[task_id] = task_info]. *)
Definition register_task (tid pdf_path : str) : M () :=
  fun st => (inr (), {| world := world st; calls := calls st;
                        active_tasks :=
                          <[tid := new_task tid pdf_path]>
                            (active_tasks st) |}).

(** The body of the outer [try]. *)
Definition conversion (tid pdf_path : str) : M ConversionResult :=
  _update_progress tid (lit "Extracting PDF pages...");;
  extracted ← call (ProcessPdfFile pdf_path) (process_pdf_file C pdf_path);
  let '(pages_data, pdf_info) := extracted in
  update_task tid (set_extracted (len_list pages_data) pdf_info);;
  _update_progress tid
    (lit "Processing " ++ str_of_int (len_list pages_data)
     ++ lit " pages with iterative refinement...");;
  converted_pages ← page_loop tid (len_list pages_data) pages_data [];
  let combined := _combine_pages_to_html converted_pages pdf_info in
  update_task tid (set_completed converted_pages combined);;
  _update_progress tid (lit "Conversion completed successfully!");;
  _cleanup_temp_files pages_data;;
  errs ← task_errors tid;
  ret (Success tid (len_list pages_data) (len_list converted_pages)
               converted_pages combined pdf_info errs).

(** The handler of the outer [try]. *)
Definition conversion_failed (tid : str) (e : exn) : M ConversionResult :=
  update_task tid (set_failed (lit "Fatal error in PDF conversion: " ++ e));;
  _update_progress tid (lit "Conversion failed: " ++ e);;
  errs ← task_errors tid;
  ret (Error tid e errs).

Definition convert_pdf_to_html (pdf_path : str) (tid : option str)
  : M ConversionResult :=
  tid ← resolve_task_id tid;
  register_task tid pdf_path;;
  try_except (conversion tid pdf_path) (conversion_failed tid).

End WithCollaborators.
End Engine.

(* ===================================================================== *)
(** * websocket_manager.py                                                *)
(* ===================================================================== *)

Module WS.

(** What [json.dumps] followed by [websocket.send_text] does for one
    message. *)
Inductive SendOutcome : Type :=
| Sent
| Disconnected          (* raises WebSocketDisconnect *)
| SendFailed.           (* raises another Exception *)

(** The errors of the percentage arithmetic. *)
Inductive ArithError : Type := ZeroDivisionError | OverflowError.

(** [message_data], by its ['type']. *)
Inductive Message : Type :=
| connection (task_id : str)
| progress (task_id message : str) (progress_percentage : option Z)
           (current_page total_pages : option Z) (page_html : option str)
| page_completed (task_id : str) (page_number : Z) (page_html : str)
                 (current_page total_pages progress_percentage : Z)
| task_completed (task_id status : str) (combined_html : option str)
                 (total_pages : Z) (errors : list str)
| error (task_id message : str) (error_code : option str).

(** An entry of [task_statuses]. *)
Record TaskStatus : Type := {
  status : str;
  progress_percentage : Z;
  current_page : Z;
  total_pages : Z;
  messages : list Message;
  error_message : option str
}.

(** The manager: [active_connections] (the socket objects themselves are
    outside the model), [task_statuses], and the [messages_sent] counter
    of [connection_metadata]. *)
Record Manager : Type := {
  active_connections : gset str;
  task_statuses : gmap str TaskStatus;
  connection_metadata : gmap str Z
}.

Definition with_messages (ms : list Message) (t : TaskStatus) : TaskStatus :=
  {| status := status t; progress_percentage := progress_percentage t;
     current_page := current_page t; total_pages := total_pages t;
     messages := ms; error_message := error_message t |}.

(** [messages.pop(0)]. *)
Definition pop0 {A} (l : list A) : list A := drop 1 l.

(** The history step of [_send_message]. *)
Definition record_message (msg : Message) (t : TaskStatus) : TaskStatus :=
  let ms := messages t in
  let ms := if 50 <? len_list ms then pop0 ms else ms in
  with_messages (ms ++ [msg]) t.

Definition disconnect (tid : str) (m : Manager) : Manager :=
  {| active_connections := active_connections m ∖ {[tid]};
     task_statuses := task_statuses m;
     connection_metadata := delete tid (connection_metadata m) |}.

Definition _send_message (tid : str) (msg : Message) (o : SendOutcome)
    (m : Manager) : bool * Manager :=
  if decide (tid ∈ active_connections m) then
    let m1 :=
      {| active_connections := active_connections m;
         task_statuses := alter (record_message msg) tid (task_statuses m);
         connection_metadata := connection_metadata m |} in
    match o with
    | Sent =>
        (true, {| active_connections := active_connections m1;
                  task_statuses := task_statuses m1;
                  connection_metadata :=
                    alter (fun n => n + 1) tid (connection_metadata m1) |})
    | Disconnected => (false, disconnect tid m1)
    | SendFailed => (false, m1)
    end
  else (false, m).

(** [connect], once [websocket.accept()] has returned. *)
Definition connect (tid : str) (o : SendOutcome) (m : Manager)
  : bool * Manager :=
  let statuses :=
    match task_statuses m !! tid with
    | Some _ => task_statuses m
    | None =>
        <[tid := {| status := lit "connected"; progress_percentage := 0;
                    current_page := 0; total_pages := 0; messages := [];
                    error_message := None |}]> (task_statuses m)
    end in
  let m1 :=
    {| active_connections := {[tid]} ∪ active_connections m;
       task_statuses := statuses;
       connection_metadata := <[tid := 0]> (connection_metadata m) |} in
  (true, snd (_send_message tid (connection tid) o m1)).

Section Percentage.

(** The [float] arithmetic of [int((current_page / total_pages) * 100)]:
    the quotient of two [int]s with a divisor that is not zero ([None]
    when it is too large for a [float]), the product with [100], and the
    truncation [int(x)] ([None] when [x] is not finite). *)
Context {Float : Type}.
Context (float_quot : Z -> Z -> option Float).
Context (float_mul : Float -> Z -> Float).
Context (int_of_float : Float -> option Z).

(** [a / b]. *)
Definition truediv (a b : Z) : ArithError + Float :=
  if b =? 0 then inl ZeroDivisionError
  else match float_quot a b with
       | Some x => inr x
       | None => inl OverflowError
       end.

(** [int((current_page / total_pages) * 100)]. *)
Definition percent (current_page total_pages : Z) : ArithError + Z :=
  match truediv current_page total_pages with
  | inl e => inl e
  | inr x =>
      match int_of_float (float_mul x 100) with
      | Some n => inr n
      | None => inl OverflowError
      end
  end.

(** The first statement of [send_page_completion]. *)
Definition page_completion_percentage (current_page total_pages : Z)
  : ArithError + Z :=
  if 0 <? total_pages then percent current_page total_pages else inr 0.

Definition with_progress (cur tot pct : Z) (t : TaskStatus) : TaskStatus :=
  {| status := status t; progress_percentage := pct;
     current_page := cur; total_pages := tot;
     messages := messages t; error_message := error_message t |}.

(** [send_page_completion]: an arithmetic error propagates to the caller,
    otherwise the status is updated and the message sent. *)
Definition send_page_completion (tid : str) (page_number : Z)
    (page_html : str) (current_page total_pages : Z) (o : SendOutcome)
    (m : Manager) : (ArithError + bool) * Manager :=
  match page_completion_percentage current_page total_pages with
  | inl e => (inl e, m)
  | inr pct =>
      let m1 :=
        {| active_connections := active_connections m;
           task_statuses :=
             alter (with_progress current_page total_pages pct) tid
                   (task_statuses m);
           connection_metadata := connection_metadata m |} in
      let '(b, m2) :=
        _send_message tid
          (page_completed tid page_number page_html current_page total_pages
                          pct) o m1 in
      (inr b, m2)
  end.

(** The percentage of the callback made by [create_progress_callback];
    the arguments are [update_data.get('current_page')] and
    [update_data.get('total_pages')]. *)
Definition callback_percentage (current_page total_pages : option Z)
  : ArithError + option Z :=
  match current_page, total_pages with
  | Some c, Some t =>
      if 0 <? t then
        match percent c t with
        | inl e => inl e
        | inr n => inr (Some n)
        end
      else inr None
  | _, _ => inr None
  end.

(** [send_progress_update]. *)
Definition send_progress_update (tid message : str) (pct cur tot : option Z)
    (page_html : option str) (o : SendOutcome) (m : Manager)
  : bool * Manager :=
  _send_message tid (progress tid message pct cur tot page_html) o m.

(** The callback: whatever its body raises is caught and logged. *)
Definition progress_callback (tid : str) (message : option str)
    (current_page total_pages : option Z) (page_html : option str)
    (o : SendOutcome) (m : Manager) : Manager :=
  match callback_percentage current_page total_pages with
  | inl _ => m
  | inr pct =>
      snd (send_progress_update tid (default (lit "Processing...") message)
             pct current_page total_pages page_html o m)
  end.

End Percentage.

(** [send_error]. *)
Definition send_error (tid message : str) (code : option str)
    (o : SendOutcome) (m : Manager) : bool * Manager :=
  let set_error t :=
    {| status := lit "error"; progress_percentage := progress_percentage t;
       current_page := current_page t; total_pages := total_pages t;
       messages := messages t; error_message := Some message |} in
  _send_message tid (error tid message code) o
    {| active_connections := active_connections m;
       task_statuses := alter set_error tid (task_statuses m);
       connection_metadata := connection_metadata m |}.

(** [send_task_completion]. *)
Definition send_task_completion (tid st : str) (html : option str)
    (total : Z) (errs : list str) (o : SendOutcome) (m : Manager)
  : bool * Manager :=
  let set_done t :=
    {| status := st;
       progress_percentage := if decide (st = lit "success") then 100 else 0;
       current_page := current_page t; total_pages := total_pages t;
       messages := messages t; error_message := error_message t |} in
  _send_message tid (task_completed tid st html total errs) o
    {| active_connections := active_connections m;
       task_statuses := alter set_done tid (task_statuses m);
       connection_metadata := connection_metadata m |}.

(** The history of a task, empty when the task has no status entry. *)
Definition history (tid : str) (m : Manager) : list Message :=
  from_option messages [] (task_statuses m !! tid).

End WS.

(* ===================================================================== *)
(** * The vocabulary of the statements                                    *)
(* ===================================================================== *)

Module Words.

(** [sub in s], as a decomposition of [s]. *)
Definition occurs (sub s : str) : Prop := ∃ pre post, s = pre ++ sub ++ post.

(** A string of white space only. *)
Definition blank (s : str) : Prop := Forall (λ c, isspace c = true) s.

Definition key_le {A} (key : A → Z) (a b : A) : Prop := key a ≤ key b.

(** A collaborator call that returns in every world, returns a given value
    in every world, or raises in every world. *)
Definition always_returns {W A} (f : W → (Engine.exn + A) * W) : Prop :=
  ∀ w, ∃ a w', f w = (inr a, w').


Definition always_raises {W A} (f : W → (Engine.exn + A) * W) : Prop :=
  ∀ w, ∃ e w', f w = (inl e, w').

(** Kinds of calls in the log. *)
Definition is_generate (c : Engine.Call) : bool :=
  match c with Engine.GenerateInitialHtml _ => true | _ => false end.

Definition is_render (c : Engine.Call) : bool :=
  match c with Engine.RenderAndScreenshot _ _ => true | _ => false end.

Definition is_refine (c : Engine.Call) : bool :=
  match c with Engine.RefineHtml _ _ _ => true | _ => false end.

Definition is_cleanup (c : Engine.Call) : bool :=
  match c with
  | Engine.CleanupTempFiles _ | Engine.CleanupAllScreenshots => true
  | _ => false
  end.

(** The calls of one kind, in the order made. *)
Definition only (kind : Engine.Call → bool) (l : list Engine.Call)
  : list Engine.Call :=
  filter (λ c, kind c = true) l.

End Words.

(* ===================================================================== *)
(** * Concrete collaborators                                              *)
(* ===================================================================== *)

(** Scripted collaborators over a world that is the list of files on disk:
    extraction writes one image per page, a render writes a screenshot, and
    the cleanup calls delete.  The theorems are instantiated on them. *)
Module Demo.
Import Engine.

Definition Files : Type := list str.

Definition image_of (n : Z) : str :=
  lit "temp/page_" ++ str_of_int n ++ lit ".png".

Definition shot_of (n : Z) : str :=
  lit "screenshots/screenshot_" ++ str_of_int n ++ lit ".png".

Definition page (n : Z) : PageData (Dim := Z) :=
  {| page_number := n; image_path := image_of n;
     width := 612; height := 792;
     pixel_width := 2550; pixel_height := 3300 |}.

Definition generated (n : Z) : str :=
  lit "<html><body><p>page " ++ str_of_int n ++ lit "</p></body></html>".

Definition refined (n iteration : Z) : str :=
  lit "<html><body><p>page " ++ str_of_int n ++ lit " pass "
  ++ str_of_int iteration ++ lit "</p></body></html>".

Definition remove_file (path : str) (fs : Files) : Files :=
  filter (λ f, f ≠ path) fs.

(** What a run is scripted to meet. *)
Record Script : Type := {
  s_max_iterations : Z;
  (** the page numbers extraction yields, or its failure together with
      the pages whose images were written before it *)
  s_extract : exn * list Z + list Z;
  s_generate_fails : Z -> bool;
  s_render_fails : Z -> bool;
  (** by page number and iteration number *)
  s_refine_fails : Z -> Z -> bool;
  (** [None]: the analysis raises; [Some o]: it returns with score [o] *)
  s_score : option (option Z);
  s_callback : bool
}.

Definition collaborators (s : Script) : Collaborators (World := Files) :=
  {| max_iterations := s_max_iterations s;
     str_of_dim := str_of_int;
     uuid4 := λ w, (lit "task-0", w);
     process_pdf_file := λ _ w,
       match s_extract s with
       | inl (e, written) => (inl e, w ++ (image_of <$> written))
       | inr ns =>
           (inr (page <$> ns, {| title := Some (lit "Report") |}),
            w ++ (image_of <$> ns))
       end;
     generate_initial_html := λ _ pd w,
       if s_generate_fails s (page_number pd)
       then (inl (lit "Failed to generate HTML: quota"), w)
       else (inr (generated (page_number pd)), w);
     start_browser := λ w, (inr (), w);
     stop_browser := λ w, w;
     render_and_screenshot := λ _ pd w,
       if s_render_fails s (page_number pd)
       then (inl (lit "Failed to render HTML: timeout"), w)
       else (inr (shot_of (page_number pd)),
             w ++ [shot_of (page_number pd)]);
     refine_html := λ _ _ _ pd iteration w,
       if s_refine_fails s (page_number pd) iteration
       then (inl (lit "Failed to refine HTML: quota"), w)
       else (inr (refined (page_number pd) iteration), w);
     analyze_visual_similarity := λ _ _ w,
       match s_score s with
       | None => (inl (lit "scoring unavailable"), w)
       | Some o => (inr o, w)
       end;
     cleanup_screenshot := λ path w, remove_file path w;
     progress_callback :=
       if s_callback s then Some (λ _ _ w, (inr (), w)) else None;
     cleanup_temp_files := λ pds w,
       (inr (), foldr (λ pd, remove_file (image_path pd)) w pds);
     cleanup_all_screenshots := λ w,
       (inr (), filter (λ f, startswith (lit "screenshots/") f = false) w)
  |}.

Definition st0 : St (World := Files) (Dim := Z) :=
  {| world := []; calls := []; active_tasks := ∅ |}.

(** Three pages; generation of page 2 fails. *)
Definition page2_generation_fails : Script :=
  {| s_max_iterations := 2; s_extract := inr [1; 2; 3];
     s_generate_fails := λ n, n =? 2; s_render_fails := λ _, false;
     s_refine_fails := λ _ _, false; s_score := Some (Some 8);
     s_callback := true |}.




(** The percentage arithmetic on exact quotients: a pair is a numerator
    over a denominator that is not zero, and [int] truncates toward zero. *)
Definition exact_quot (a b : Z) : option (Z * Z) := Some (a, b).
Definition exact_mul (x : Z * Z) (k : Z) : Z * Z := (fst x * k, snd x).
Definition exact_int (x : Z * Z) : option Z := Some (Z.quot (fst x) (snd x)).

(** A manager with one connected task, [n] messages in its history. *)
Definition manager_with (n : nat) : WS.Manager :=
  {| WS.active_connections := {[ lit "t" ]};
     WS.task_statuses :=
       {[ lit "t" :=
            {| WS.status := lit "connected"; WS.progress_percentage := 0;
               WS.current_page := 0; WS.total_pages := 0;
               WS.messages := replicate n (WS.connection (lit "t"));
               WS.error_message := None |} ]};
     WS.connection_metadata := {[ lit "t" := 0 ]} |}.

(** A run configured with no refinement iteration. *)
Definition no_iterations : Script :=
  {| s_max_iterations := 0; s_extract := inr [1];
     s_generate_fails := λ _, false; s_render_fails := λ _, false;
     s_refine_fails := λ _ _, false; s_score := Some (Some 8);
     s_callback := true |}.



End Demo.

(* ===================================================================== *)
(** * The rest of [WebSocketManager]                                      *)
(* ===================================================================== *)

Module WSOps.
Import WS.

(** [WebSocketManager.__init__]. *)
Definition empty_manager : Manager :=
  {| active_connections := ∅; task_statuses := ∅;
     connection_metadata := ∅ |}.

(** [self.task_statuses.get(task_id)]. *)
Definition get_task_status (tid : str) (m : Manager) : option TaskStatus :=
  task_statuses m !! tid.

(** [task_id in self.active_connections]. *)
Definition is_connected (tid : str) (m : Manager) : bool :=
  bool_decide (tid ∈ active_connections m).

(** [self.connection_metadata.get(task_id)], by its [messages_sent]. *)
Definition get_connection_info (tid : str) (m : Manager) : option Z :=
  connection_metadata m !! tid.

(** [cleanup_task]: [disconnect], then the status entry is deleted. *)
Definition cleanup_task (tid : str) (m : Manager) : Manager :=
  let m1 := disconnect tid m in
  {| active_connections := active_connections m1;
     task_statuses := delete tid (task_statuses m1);
     connection_metadata := connection_metadata m1 |}.

(** [len(self.active_connections)]. *)
Definition get_active_connections_count (m : Manager) : Z :=
  Z.of_nat (size (active_connections m)).

(** A call of one of the methods that change the manager, with the
    outcome of the send it makes, if it makes one. *)
Inductive Op : Type :=
| Connect (tid : str) (o : SendOutcome)
| Disconnect (tid : str)
| SendProgressUpdate (tid message : str) (pct cur tot : option Z)
                     (page_html : option str) (o : SendOutcome)
| SendPageCompletion (tid : str) (page_number : Z) (page_html : str)
                     (current_page total_pages : Z) (o : SendOutcome)
| SendTaskCompletion (tid st : str) (html : option str) (total : Z)
                     (errs : list str) (o : SendOutcome)
| SendError (tid message : str) (code : option str) (o : SendOutcome)
| Callback (tid : str) (message : option str)
           (current_page total_pages : option Z)
           (page_html : option str) (o : SendOutcome)
| CleanupTask (tid : str).

Section Operations.
Context {Float : Type}.
Context (float_quot : Z → Z → option Float).
Context (float_mul : Float → Z → Float).
Context (int_of_float : Float → option Z).

(** The manager after one call. *)
Definition run_op (op : Op) (m : Manager) : Manager :=
  match op with
  | Connect tid o => snd (connect tid o m)
  | Disconnect tid => disconnect tid m
  | SendProgressUpdate tid message pct cur tot page_html o =>
      snd (send_progress_update tid message pct cur tot page_html o m)
  | SendPageCompletion tid n html cur tot o =>
      snd (send_page_completion float_quot float_mul int_of_float
             tid n html cur tot o m)
  | SendTaskCompletion tid st html total errs o =>
      snd (send_task_completion tid st html total errs o m)
  | SendError tid message code o => snd (send_error tid message code o m)
  | Callback tid message cur tot page_html o =>
      progress_callback float_quot float_mul int_of_float
        tid message cur tot page_html o m
  | CleanupTask tid => cleanup_task tid m
  end.

(** The manager after a sequence of calls. *)
Definition run (ops : list Op) (m : Manager) : Manager :=
  foldl (λ m op, run_op op m) m ops.

End Operations.

(** What the three dictionaries of the manager keep to. *)
Record consistent (m : Manager) : Prop := {
  connected_has_status :
    ∀ tid, tid ∈ active_connections m → is_Some (task_statuses m !! tid);
  connected_iff_metadata :
    ∀ tid, tid ∈ active_connections m ↔ is_Some (connection_metadata m !! tid);
  history_bounded : ∀ tid, (length (history tid m) ≤ 51)%nat
}.

End WSOps.

(* ===================================================================== *)
(** * The rest of [RefinementEngine]                                      *)
(* ===================================================================== *)

Module EngineOps.
Import Engine.

Section Tasks.
Context {World Dim : Type}.

(** [self.active_tasks.get(task_id)]. *)
Definition get_task_status (tid : str) (st : St (World := World) (Dim := Dim))
  : option TaskInfo :=
  active_tasks st !! tid.

(** [cleanup_task]. *)
Definition cleanup_task (tid : str) (st : St (World := World) (Dim := Dim))
  : St :=
  if decide (is_Some (active_tasks st !! tid)) then
    {| world := world st; calls := calls st;
       active_tasks := delete tid (active_tasks st) |}
  else st.

(** The ['task_id'] of the dictionary [convert_pdf_to_html] returns. *)
Definition result_task_id (r : ConversionResult (Dim := Dim)) : str :=
  match r with
  | Success tid _ _ _ _ _ _ => tid
  | Error tid _ _ => tid
  end.

(** The page results that are fallbacks. *)
Definition fallbacks (res : list (PageResult (Dim := Dim)))
  : list PageResult :=
  filter (λ r, is_Some (error r)) res.

End Tasks.

(** The message [convert_pdf_to_html] records for a fatal error. *)
Definition fatal (e : exn) : str :=
  lit "Fatal error in PDF conversion: " ++ e.

(** More kinds of calls in the log. *)
Definition is_browser (c : Call) : bool :=
  match c with StartBrowser | StopBrowser => true | _ => false end.

Definition is_analyze (c : Call) : bool :=
  match c with AnalyzeVisualSimilarity _ => true | _ => false end.

Definition is_shot_cleanup (c : Call) : bool :=
  match c with CleanupScreenshot _ => true | _ => false end.

(** The calls of the refinement loop that need the browser or follow a
    rendering. *)
Definition is_loop_call (c : Call) : bool :=
  match c with
  | RenderAndScreenshot _ _ | RefineHtml _ _ _ | AnalyzeVisualSimilarity _
  | CleanupScreenshot _ => true
  | _ => false
  end.

End EngineOps.

(* ===================================================================== *)
(** * Effects of the collaborators                                        *)
(* ===================================================================== *)

(** The collaborators of the engine are themselves code of the
    repository.  Each is modelled over the library it drives, given as
    world-passing oracles; [Eff S] is the monad of a method that reads and
    writes the state [S] (the object, the world and the log of the calls it
    made) and returns or raises. *)
Module Eff.
Import Py.

Definition exn : Type := str.

Definition Eff (S A : Type) : Type := S → (exn + A) * S.

Section Monad.
Context {S : Type}.

Definition ret {A} (a : A) : Eff S A := λ s, (inr a, s).

Definition bind {A B} (m : Eff S A) (k : A → Eff S B) : Eff S B :=
  λ s, match m s with
       | (inl e, s') => (inl e, s')
       | (inr a, s') => k a s'
       end.

Definition raise {A} (e : exn) : Eff S A := λ s, (inl e, s).

(** [try: m / except Exception as e: h e]. *)
Definition try_except {A} (m : Eff S A) (h : exn → Eff S A) : Eff S A :=
  λ s, match m s with
       | (inl e, s') => h e s'
       | (inr a, s') => (inr a, s')
       end.

(** [try: m / finally: f]. *)
Definition try_finally {A} (m : Eff S A) (f : Eff S ()) : Eff S A :=
  λ s, match m s with
       | (r, s') =>
           match f s' with
           | (inl e, s'') => (inl e, s'')
           | (inr _, s'') => (r, s'')
           end
       end.

(** [for x in xs: body x]. *)
Fixpoint for_each {A} (body : A → Eff S ()) (xs : list A) : Eff S () :=
  match xs with
  | [] => ret ()
  | x :: rest => bind (body x) (λ _, for_each body rest)
  end.

End Monad.

#[export] Instance Eff_ret {S} : MRet (Eff S) := λ A, ret.
#[export] Instance Eff_bind {S} : MBind (Eff S) := λ A B k m, bind m k.

End Eff.

(* ===================================================================== *)
(** * [HTMLRenderer]                                                      *)
(* ===================================================================== *)

Module Renderer.
Import Py Eff.

(** The calls the renderer makes on Playwright and on the file system. *)
Inductive Ev : Type :=
| PlaywrightStart
| Launch
| NewContext
| ContextClose
| BrowserClose
| PlaywrightStop
| NewPage
| SetViewportSize (width height : Z)
| SetContent (html : str)
| WaitForTimeout (ms : Z)
| Screenshot (path : str) (full_page : bool)
| PageClose
| Exists (path : str)
| Unlink (path : str)
| GlobPng.

(** The keys of [page_info] the renderer reads, [None] for a key that is
    missing. *)
Record PageInfo : Type := {
  page_number : option Z;
  pixel_width : option Z;
  pixel_height : option Z
}.

(** The attributes [playwright], [browser] and [context] of the renderer:
    [true] for a handle, [false] for [None]. *)
Record Handles : Type := {
  playwright : bool;
  browser : bool;
  context : bool
}.

Section WithPlaywright.
Context {World : Type}.

(** Playwright and the file system.  [fresh_path n] is
    [str(self.screenshots_dir / name)] for the file name [name] the
    renderer builds with a new [uuid4]. *)
Record Playwright : Type := {
  playwright_start : World → (exn + ()) * World;
  launch : World → (exn + ()) * World;
  new_context : World → (exn + ()) * World;
  context_close : World → (exn + ()) * World;
  browser_close : World → (exn + ()) * World;
  playwright_stop : World → (exn + ()) * World;
  new_page : World → (exn + ()) * World;
  set_viewport_size : Z → Z → World → (exn + ()) * World;
  set_content : str → World → (exn + ()) * World;
  wait_for_timeout : Z → World → (exn + ()) * World;
  uuid4_hex : World → str * World;
  in_screenshots_dir : str → str;
  screenshot : str → bool → World → (exn + ()) * World;
  page_close : World → (exn + ()) * World;
  path_exists : str → World → (exn + bool) * World;
  unlink : str → World → (exn + ()) * World;
  glob_png : World → (exn + list str) * World
}.

Context (P : Playwright).

Record St : Type := {
  world : World;
  log : list Ev;
  self : Handles
}.

Local Abbreviation R := (Eff St).

(** The state after a logged call that left the world as [w]. *)
Definition logged (st : St) (ev : Ev) (w : World) : St :=
  {| world := w; log := log st ++ [ev]; self := self st |}.

(** A call: it is logged, then answered by the world. *)
Definition call {A} (ev : Ev) (f : World → (exn + A) * World) : R A :=
  λ st, let '(r, w) := f (world st) in (r, logged st ev w).

(** [uuid.uuid4().hex]. *)
Definition uuid4 : R str :=
  λ st, let '(hex, w) := uuid4_hex P (world st) in
        (inr hex, {| world := w; log := log st; self := self st |}).

Definition get_self : R Handles := λ st, (inr (self st), st).

Definition set_self (h : Handles) : R () :=
  λ st, (inr (), {| world := world st; log := log st; self := h |}).

Definition set_playwright (b : bool) : R () :=
  h ← get_self;
  set_self {| playwright := b; browser := browser h; context := context h |}.

Definition set_browser (b : bool) : R () :=
  h ← get_self;
  set_self {| playwright := playwright h; browser := b;
              context := context h |}.

Definition set_context (b : bool) : R () :=
  h ← get_self;
  set_self {| playwright := playwright h; browser := browser h;
              context := b |}.

(** ** [start_browser] *)

Definition start_browser : R () :=
  try_except
    (call PlaywrightStart (playwright_start P);;
     set_playwright true;;
     call Launch (launch P);;
     set_browser true;;
     call NewContext (new_context P);;
     set_context true)
    (λ e, raise (lit "Browser startup failed: " ++ e)).

(** ** [stop_browser] *)

Definition stop_browser : R () :=
  try_except
    (h ← get_self;
     (if context h then call ContextClose (context_close P);;
                        set_context false
      else ret ());;
     h ← get_self;
     (if browser h then call BrowserClose (browser_close P);;
                        set_browser false
      else ret ());;
     h ← get_self;
     (if playwright h then call PlaywrightStop (playwright_stop P);;
                           set_playwright false
      else ret ()))
    (λ _, ret ()).

(** ** [render_and_screenshot] *)

Definition not_started : str :=
  lit "Browser not started. Use async context manager or call start_browser()".

(** The truth value of [page_info.get(key)]. *)
Definition truthy (x : option Z) : bool :=
  match x with
  | Some n => negb (n =? 0)
  | None => false
  end.

(** [f"screenshot_{page_info.get('page_number', 'unknown')}_{hex}.png"]. *)
Definition screenshot_filename (page_info : PageInfo) (hex : str) : str :=
  lit "screenshot_"
  ++ from_option str_of_int (lit "unknown") (page_number page_info)
  ++ lit "_" ++ hex ++ lit ".png".

(** [if page_info.get('pixel_width') and page_info.get('pixel_height')]
    and the statement it guards. *)
Definition set_viewport (page_info : PageInfo) : R () :=
  if truthy (pixel_width page_info) && truthy (pixel_height page_info) then
    let viewport_width := Z.min (default 0 (pixel_width page_info)) 1920 in
    let viewport_height := Z.min (default 0 (pixel_height page_info)) 1080 in
    call (SetViewportSize viewport_width viewport_height)
         (set_viewport_size P viewport_width viewport_height)
  else ret ().

(** The body of the [try], after [page] has been assigned. *)
Definition render_page (html_content : str) (page_info : PageInfo)
    (wait_for_load : Z) (full_page : bool) : R str :=
  set_viewport page_info;;
  call (SetContent html_content) (set_content P html_content);;
  call (WaitForTimeout wait_for_load) (wait_for_timeout P wait_for_load);;
  hex ← uuid4;
  let screenshot_path :=
    in_screenshots_dir P (screenshot_filename page_info hex) in
  call (Screenshot screenshot_path full_page)
       (screenshot P screenshot_path full_page);;
  ret screenshot_path.

Definition render_failed (e : exn) : str := lit "Failed to render HTML: " ++ e.

(** The calls of a [render_page] that runs to its end and saves the
    screenshot at [path]. *)
Definition viewport_step (page_info : PageInfo) : list Ev :=
  if truthy (pixel_width page_info) && truthy (pixel_height page_info) then
    [SetViewportSize (Z.min (default 0 (pixel_width page_info)) 1920)
                     (Z.min (default 0 (pixel_height page_info)) 1080)]
  else [].

Definition render_steps (html_content : str) (page_info : PageInfo)
    (wait_for_load : Z) (full_page : bool) (path : str) : list Ev :=
  viewport_step page_info
  ++ [SetContent html_content; WaitForTimeout wait_for_load;
      Screenshot path full_page].

(** [page] is [None] until [new_page] has returned: when that call
    raises, the handler runs and the [finally] clause closes nothing; from
    then on the [finally] clause closes the page. *)
Definition render_and_screenshot (html_content : str) (page_info : PageInfo)
    (wait_for_load : Z) (full_page : bool) : R str :=
  h ← get_self;
  if negb (browser h) || negb (context h) then raise not_started
  else
    try_except
      (call NewPage (new_page P);; ret None)
      (λ e, ret (Some e)) ≫= λ failed,
    match failed with
    | Some e => raise (render_failed e)
    | None =>
        try_finally
          (try_except
             (render_page html_content page_info wait_for_load full_page)
             (λ e, raise (render_failed e)))
          (call PageClose (page_close P))
    end.

(** The calls of a [stop_browser] in which every close returns. *)
Definition closes (h : Handles) : list Ev :=
  (if context h then [ContextClose] else [])
  ++ (if browser h then [BrowserClose] else [])
  ++ (if playwright h then [PlaywrightStop] else []).

(** ** [cleanup_screenshot] and [cleanup_all_screenshots] *)

Definition cleanup_screenshot (screenshot_path : str) : R () :=
  try_except
    (present ← call (Exists screenshot_path) (path_exists P screenshot_path);
     if present : bool then
       call (Unlink screenshot_path) (unlink P screenshot_path)
     else ret ())
    (λ _, ret ()).

Definition cleanup_all_screenshots : R () :=
  try_except
    (files ← call GlobPng (glob_png P);
     for_each (λ f, call (Unlink f) (unlink P f)) files)
    (λ _, ret ()).

End WithPlaywright.
End Renderer.

(* ===================================================================== *)
(** * [pdf_processor]                                                     *)
(* ===================================================================== *)

Module Pdf.
Import Py Eff.

(** The calls the processor makes on PyMuPDF and on the file system. *)
Inductive Ev : Type :=
| Mkdir
| Open (pdf_path : str)
| Metadata
| LoadPage (page_num : Z)
| GetPixmap (page_num dpi : Z)
| Save (image_path : str) (jpg_quality : option Z)
| GetSize (pdf_path : str)
| Close
| Exists (image_path : str)
| Unlink (image_path : str).

Section WithFitz.

(** [Dim] is the type of a width or height in points. *)
Context {World Dim : Type}.

(** PyMuPDF and the file system.  [fitz_open] gives [len(pdf_document)];
    [load_page n] is [pdf_document[n]] and gives the [rect] of the page;
    [get_pixmap n dpi] renders it and gives the pixel width and height;
    [metadata] gives the dictionary [pdf_document.metadata] as a lookup,
    whose values are strings or [None];
    [in_temp_dir name] is [str(self.temp_dir / name)]. *)
Record Fitz : Type := {
  mkdir : World → (exn + ()) * World;
  fitz_open : str → World → (exn + Z) * World;
  metadata : World → (exn + (string → option (option str))) * World;
  load_page : Z → World → (exn + Dim * Dim) * World;
  get_pixmap : Z → Z → World → (exn + Z * Z) * World;
  uuid4_hex : World → str * World;
  in_temp_dir : str → str;
  save : str → option Z → World → (exn + ()) * World;
  getsize : str → World → (exn + Z) * World;
  doc_close : World → (exn + ()) * World;
  path_exists : str → World → (exn + bool) * World;
  unlink : str → World → (exn + ()) * World
}.

Context (F : Fitz).

(** An entry of [pages_data]. *)
Record PageInfo : Type := {
  page_number : Z;
  image_path : str;
  image_filename : str;
  width : Dim;
  height : Dim;
  dpi : Z;
  format : str;
  pixel_width : Z;
  pixel_height : Z
}.

(** The dictionary [get_pdf_info] returns.  A value taken from the
    metadata is a string or Python's [None]; [page_size] is [None] for the
    size [0] by [0] of a document without pages. *)
Record PdfInfo : Type := {
  title : option str;
  author : option str;
  subject : option str;
  creator : option str;
  producer : option str;
  created : option str;
  modified : option str;
  page_count : Z;
  page_size : option (Dim * Dim);
  file_size : Z
}.

Record St : Type := {
  world : World;
  log : list Ev
}.

Local Abbreviation R := (Eff St).

(** The state after a logged call that left the world as [w]. *)
Definition logged (st : St) (ev : Ev) (w : World) : St :=
  {| world := w; log := log st ++ [ev] |}.

Definition call {A} (ev : Ev) (f : World → (exn + A) * World) : R A :=
  λ st, let '(r, w) := f (world st) in (r, logged st ev w).

(** [uuid.uuid4().hex]. *)
Definition uuid4 : R str :=
  λ st, let '(hex, w) := uuid4_hex F (world st) in
        (inr hex, {| world := w; log := log st |}).

(** [s.lower() == target], for a [target] of lower-case ASCII letters
    other than [i] and [k]: only the ASCII capitals lower to such
    letters. *)
Definition ascii_lower (c : char) : char :=
  if ((65 <=? c) && (c <=? 90))%N then (c + 32)%N else c.

Definition lower_is (target : string) (s : str) : bool :=
  bool_decide (ascii_lower <$> s = lit target).

(** ** [extract_pages_as_images] *)

(** [f"page_{page_num + 1}_{uuid.uuid4().hex}.{image_format}"]. *)
Definition page_filename (page_num : Z) (hex image_format : str) : str :=
  lit "page_" ++ str_of_int (page_num + 1) ++ lit "_" ++ hex ++ lit "."
  ++ image_format.

(** [pix.save(...)], by the format. *)
Definition save_image (image_path image_format : str) : R () :=
  if lower_is "png" image_format then
    call (Save image_path None) (save F image_path None)
  else if lower_is "jpeg" image_format then
    call (Save image_path (Some 95)) (save F image_path (Some 95))
  else raise (lit "Unsupported image format: " ++ image_format).

(** The body of [for page_num in range(len(pdf_document))]. *)
Definition extract_page (dpi_ : Z) (image_format : str) (page_num : Z)
  : R PageInfo :=
  rect ← call (LoadPage page_num) (load_page F page_num);
  pix ← call (GetPixmap page_num dpi_) (get_pixmap F page_num dpi_);
  hex ← uuid4;
  let filename := page_filename page_num hex image_format in
  let path := in_temp_dir F filename in
  save_image path image_format;;
  ret {| page_number := page_num + 1; image_path := path;
         image_filename := filename; width := rect.1; height := rect.2;
         dpi := dpi_; format := image_format;
         pixel_width := pix.1; pixel_height := pix.2 |}.

Fixpoint extract_loop (dpi_ : Z) (image_format : str) (page_nums : list Z)
    (pages_data : list PageInfo) : R (list PageInfo) :=
  match page_nums with
  | [] => ret pages_data
  | page_num :: rest =>
      page_info ← extract_page dpi_ image_format page_num;
      extract_loop dpi_ image_format rest (pages_data ++ [page_info])
  end.

Definition extract_failed (e : exn) : str := lit "Failed to process PDF: " ++ e.

Definition extract_pages_as_images (pdf_path : str) (dpi_ : Z)
    (image_format : str) : R (list PageInfo) :=
  try_except
    (n ← call (Open pdf_path) (fitz_open F pdf_path);
     pages_data ← extract_loop dpi_ image_format (seqZ 0 n) [];
     call Close (doc_close F);;
     ret pages_data)
    (λ e, raise (extract_failed e)).

(** What a run of the loop is read by. *)
Definition is_save (ev : Ev) : bool :=
  match ev with Save _ _ => true | _ => false end.

Definition is_exists (ev : Ev) : bool :=
  match ev with Exists _ => true | _ => false end.

Definition is_open (ev : Ev) : bool :=
  match ev with Open _ => true | _ => false end.

Definition is_page_call (ev : Ev) : bool :=
  match ev with LoadPage _ | GetPixmap _ _ | Save _ _ => true | _ => false end.

Definition supported (image_format : str) : bool :=
  lower_is "png" image_format || lower_is "jpeg" image_format.

Definition jpg_quality (image_format : str) : option Z :=
  if lower_is "png" image_format then None else Some 95.

(** What the entry of the page [page_num] keeps to. *)
Definition page_entry (dpi_ : Z) (image_format : str) (page_num : Z)
    (p : PageInfo) : Prop :=
  page_number p = page_num + 1
  ∧ dpi p = dpi_ ∧ format p = image_format
  ∧ (∃ hex, image_filename p = page_filename page_num hex image_format)
  ∧ image_path p = in_temp_dir F (image_filename p).

(** ** [get_pdf_info] *)

Definition info_failed (e : exn) : str := lit "Failed to get PDF info: " ++ e.

Definition get_pdf_info (pdf_path : str) : R PdfInfo :=
  try_except
    (n ← call (Open pdf_path) (fitz_open F pdf_path);
     meta ← call Metadata (metadata F);
     size ← (if 0 <? n then
               rect ← call (LoadPage 0) (load_page F 0); ret (Some rect)
             else ret None);
     bytes ← call (GetSize pdf_path) (getsize F pdf_path);
     call Close (doc_close F);;
     ret {| title := default (Some []) (meta "title");
            author := default (Some []) (meta "author");
            subject := default (Some []) (meta "subject");
            creator := default (Some []) (meta "creator");
            producer := default (Some []) (meta "producer");
            created := default (Some []) (meta "creationDate");
            modified := default (Some []) (meta "modDate");
            page_count := n; page_size := size; file_size := bytes |})
    (λ e, raise (info_failed e)).

(** ** [cleanup_temp_files] *)

(** The body of [for page_data in pages_data]. *)
Definition cleanup_page (page_data : PageInfo) : R () :=
  try_except
    (present ← call (Exists (image_path page_data))
                    (path_exists F (image_path page_data));
     if present : bool then
       call (Unlink (image_path page_data)) (unlink F (image_path page_data))
     else ret ())
    (λ _, ret ()).

Definition cleanup_temp_files (pages_data : list PageInfo) : R () :=
  for_each cleanup_page pages_data.

(** ** [validate_pdf] *)

Definition validate_pdf (pdf_path : str) : R bool :=
  try_except
    (n ← call (Open pdf_path) (fitz_open F pdf_path);
     call Close (doc_close F);;
     ret (0 <? n))
    (λ _, ret false).

(** ** [process_pdf_file] *)

Definition invalid_pdf : str := lit "Invalid or unreadable PDF file".

(** The function of the module: a new processor (its constructor makes
    the directory), the validation, the information, the pages, with the
    defaults of [extract_pages_as_images]. *)
Definition process_pdf_file (pdf_path : str) : R (list PageInfo * PdfInfo) :=
  call Mkdir (mkdir F);;
  valid ← validate_pdf pdf_path;
  if negb valid then raise invalid_pdf
  else
    pdf_info ← get_pdf_info pdf_path;
    pages_data ← extract_pages_as_images pdf_path 300 (lit "png");
    ret (pages_data, pdf_info).

End WithFitz.
End Pdf.

(* ===================================================================== *)
(** * [GeminiClient]                                                      *)
(* ===================================================================== *)

Module Gemini.
Import Py Eff.

(** What [json.loads] does with a string. *)
Inductive Parsed (J : Type) : Type :=
| Json (j : J)
| JSONDecodeError
| OtherError (e : exn).
Arguments Json {J} j.
Arguments JSONDecodeError {J}.
Arguments OtherError {J} e.

(** What [analyze_visual_similarity] returns: the value decoded from the
    answer of the model, or one of its two dictionaries of default
    values, given by the score all its ratings have and by its
    [major_differences] and [recommendations] entries. *)
Inductive Analysis (J : Type) : Type :=
| FromModel (j : J)
| Defaults (score : Z) (major_difference recommendation : str).
Arguments FromModel {J} j.
Arguments Defaults {J} score major_difference recommendation.

Section WithApi.

(** [Dim] is the type of a width or height in points, [Time] that of a
    clock reading, [Response] that of an answer of the model and [J] that
    of a decoded JSON value. *)
Context {World Dim Time Response J : Type}.

(** The calls the client makes on the API. *)
Inductive Ev : Type :=
| Sleep (seconds : Time)
| UploadFile (path display_name : str)
| GenerateContent (prompt : str) (files : list str)
| DeleteFile (name : str).

(** The keys of [page_info] the client reads. *)
Record PageInfo : Type := {
  page_number : Z;
  width : Dim;
  height : Dim;
  pixel_width : Z;
  pixel_height : Z
}.

(** The API, the clock and the decoder.  An uploaded file is known by
    its [name]; [text] is the property [response.text], which may raise;
    [minus] and [less] are [-] and [<] on clock readings. *)
Record Api : Type := {
  rate_limit_seconds : Time;
  clock : World → Time * World;
  minus : Time → Time → Time;
  less : Time → Time → bool;
  sleep : Time → World → World;
  str_of_dim : Dim → str;
  upload_file : str → str → World → (exn + str) * World;
  generate_content : str → list str → World → (exn + Response) * World;
  text : Response → exn + str;
  delete_file : str → World → (exn + ()) * World;
  json_loads : str → Parsed J
}.

Context (G : Api).

Record St : Type := {
  world : World;
  log : list Ev;
  last_call_time : Time
}.

Local Abbreviation R := (Eff St).

(** The state after a logged call that left the world as [w]. *)
Definition logged (st : St) (ev : Ev) (w : World) : St :=
  {| world := w; log := log st ++ [ev];
     last_call_time := last_call_time st |}.

Definition call {A} (ev : Ev) (f : World → (exn + A) * World) : R A :=
  λ st, let '(r, w) := f (world st) in (r, logged st ev w).

(** [time.time()]. *)
Definition time : R Time :=
  λ st, let '(t, w) := clock G (world st) in
        (inr t, {| world := w; log := log st;
                   last_call_time := last_call_time st |}).

(** A property or a decoder that returns or raises. *)
Definition lift {A} (r : exn + A) : R A := λ st, (r, st).

(** ** [_rate_limit] *)

Definition get_last_call_time : R Time :=
  λ st, (inr (last_call_time st), st).

Definition set_last_call_time (t : Time) : R () :=
  λ st, (inr (), {| world := world st; log := log st;
                    last_call_time := t |}).

Definition _rate_limit : R () :=
  current_time ← time;
  last ← get_last_call_time;
  let time_since_last_call := minus G current_time last in
  (if less G time_since_last_call (rate_limit_seconds G) then
     let sleep_time := minus G (rate_limit_seconds G) time_since_last_call in
     call (Sleep sleep_time) (λ w, (inr (), sleep G sleep_time w))
   else ret ());;
  now ← time;
  set_last_call_time now.

(** ** The prompts *)

Definition initial_prompt (page_info : PageInfo) : str :=
  join nl [
    lit "You are an expert frontend developer tasked with converting this PDF page image into accurate HTML5 and CSS code.";
    [];
    lit "CRITICAL REQUIREMENTS:";
    lit "1. Analyze this image carefully and recreate it as HTML with embedded CSS";
    lit "2. Include ALL text content exactly as shown in the image";
    lit "3. Preserve the visual layout, fonts, colors, and spacing as closely as possible";
    lit "4. Use semantic HTML5 elements where appropriate";
    lit "5. Embed ALL CSS within a <style> tag in the <head>";
    lit "6. DO NOT use external libraries or frameworks";
    lit "7. Make the page responsive but prioritize exact visual matching";
    lit "8. Pay special attention to:";
    lit "   - Font families, sizes, and weights";
    lit "   - Colors and backgrounds";
    lit "   - Margins, padding, and spacing";
    lit "   - Text alignment and line heights";
    lit "   - Any images, graphics, or special formatting";
    [];
    lit "PAGE INFORMATION:";
    lit "- Page number: " ++ str_of_int (page_number page_info);
    lit "- Original dimensions: " ++ str_of_dim G (width page_info) ++ lit "pt x " ++ str_of_dim G (height page_info) ++ lit "pt";
    lit "- Image resolution: " ++ str_of_int (pixel_width page_info) ++ lit "px x " ++ str_of_int (pixel_height page_info) ++ lit "px";
    [];
    lit "RESPONSE FORMAT:";
    lit "Return ONLY the complete HTML document, starting with <!DOCTYPE html> and ending with </html>. ";
    lit "Do not include any explanations or markdown formatting."
  ].

Definition refinement_prompt (page_info : PageInfo) (current_html : str) (iteration : Z) : str :=
  join nl [
    lit "You are a visual quality control system for frontend development. Your task is to perfect HTML code by comparing its rendered output with a target image.";
    [];
    lit "INPUTS PROVIDED:";
    lit "1. TARGET IMAGE: The original PDF page that we want to recreate perfectly";
    lit "2. CURRENT RENDERING: Screenshot of how the current HTML code looks when rendered";
    lit "3. CURRENT HTML CODE: The code that produced the current rendering";
    [];
    lit "YOUR MISSION:";
    lit "Analyze the visual differences between the TARGET IMAGE and CURRENT RENDERING, then modify the HTML code to eliminate these differences.";
    [];
    lit "ANALYSIS FOCUS:";
    lit "- Text content accuracy and completeness";
    lit "- Font families, sizes, weights, and styles";
    lit "- Colors (text, backgrounds, borders)";
    lit "- Layout and positioning";
    lit "- Spacing (margins, padding, line-height)";
    lit "- Element alignment and justification  ";
    lit "- Missing or incorrectly positioned elements";
    lit "- Overall visual hierarchy and structure";
    [];
    lit "REFINEMENT GUIDELINES:";
    lit "1. Fix ANY visual discrepancies you identify";
    lit "2. Maintain the existing HTML structure if it's working well";
    lit "3. Adjust CSS properties to match the target image exactly";
    lit "4. Add missing content or elements if they exist in target but not current rendering";
    lit "5. Correct any text that doesn't match exactly";
    lit "6. Ensure colors, fonts, and spacing are pixel-perfect when possible";
    [];
    lit "PAGE INFORMATION:";
    lit "- Page: " ++ str_of_int (page_number page_info);
    lit "- Refinement iteration: " ++ str_of_int iteration;
    lit "- Target dimensions: " ++ str_of_dim G (width page_info) ++ lit "pt x " ++ str_of_dim G (height page_info) ++ lit "pt";
    [];
    lit "CURRENT HTML CODE:";
    current_html;
    [];
    lit "RESPONSE FORMAT:";
    lit "Return ONLY the improved HTML code. Start with <!DOCTYPE html> and end with </html>.";
    lit "Do not include explanations, comments, or markdown formatting."
  ].

Definition analysis_prompt : str :=
  join nl [
    lit "Compare these two images and provide a detailed analysis of their visual similarity.";
    [];
    lit "Analyze and rate (1-10 scale) the following aspects:";
    lit "1. Text content accuracy and completeness";
    lit "2. Layout and positioning similarity";
    lit "3. Color accuracy";
    lit "4. Font and typography matching";
    lit "5. Overall visual fidelity";
    [];
    lit "Provide a JSON response with:";
    lit "- overall_score: number (1-10, where 10 is perfect match)";
    lit "- text_accuracy: number (1-10)";
    lit "- layout_similarity: number (1-10) ";
    lit "- color_accuracy: number (1-10)";
    lit "- typography_match: number (1-10)";
    lit "- major_differences: array of strings describing key differences";
    lit "- recommendations: array of strings with improvement suggestions";
    [];
    lit "Return only valid JSON, no other text."
  ].

(** ** [generate_initial_html] *)

Definition generate_failed (e : exn) : str := lit "Failed to generate HTML: " ++ e.

(** [response.text] is read for the test and again for the result; the
    property has no effect, and the second reading gives what the first
    gave. *)
Definition generate_initial_html (image_path : str) (page_info : PageInfo)
  : R str :=
  _rate_limit;;
  try_except
    (let display_name :=
       lit "PDF Page " ++ str_of_int (page_number page_info) in
     image_file ← call (UploadFile image_path display_name)
                       (upload_file G image_path display_name);
     let prompt := initial_prompt page_info in
     response ← call (GenerateContent prompt [image_file])
                     (generate_content G prompt [image_file]);
     response_text ← lift (text G response);
     if bool_decide (response_text = []) then
       raise (lit "Empty response from Gemini API")
     else
       call (DeleteFile image_file) (delete_file G image_file);;
       ret (strip response_text))
    (λ e, raise (generate_failed e)).

(** ** [refine_html] *)

Definition refine_failed (e : exn) : str := lit "Failed to refine HTML: " ++ e.

Definition refine_html (original_image_path current_html screenshot_path : str)
    (page_info : PageInfo) (iteration : Z) : R str :=
  _rate_limit;;
  try_except
    (let original_name :=
       lit "Original Page " ++ str_of_int (page_number page_info) in
     let screenshot_name :=
       lit "Current Rendering Page " ++ str_of_int (page_number page_info) in
     original_image ← call (UploadFile original_image_path original_name)
                           (upload_file G original_image_path original_name);
     screenshot_image ← call (UploadFile screenshot_path screenshot_name)
                             (upload_file G screenshot_path screenshot_name);
     let prompt := refinement_prompt page_info current_html iteration in
     let files := [original_image; screenshot_image] in
     response ← call (GenerateContent prompt files)
                     (generate_content G prompt files);
     response_text ← lift (text G response);
     if bool_decide (response_text = []) then
       raise (lit "Empty response from Gemini API during refinement")
     else
       call (DeleteFile original_image) (delete_file G original_image);;
       call (DeleteFile screenshot_image) (delete_file G screenshot_image);;
       ret (strip response_text))
    (λ e, raise (refine_failed e)).

(** ** [analyze_visual_similarity] *)

Definition unable_to_analyze : Analysis J :=
  Defaults 7 (lit "Unable to analyze") (lit "Manual review recommended").

Definition analysis_failed : Analysis J :=
  Defaults 5 (lit "Analysis failed") (lit "Manual review needed").

Definition analyze_visual_similarity (original_image_path screenshot_path : str)
  : R (Analysis J) :=
  _rate_limit;;
  try_except
    (original_image ← call (UploadFile original_image_path (lit "Original"))
                           (upload_file G original_image_path
                                        (lit "Original"));
     screenshot_image ← call (UploadFile screenshot_path (lit "Rendered"))
                             (upload_file G screenshot_path (lit "Rendered"));
     let files := [original_image; screenshot_image] in
     response ← call (GenerateContent analysis_prompt files)
                     (generate_content G analysis_prompt files);
     call (DeleteFile original_image) (delete_file G original_image);;
     call (DeleteFile screenshot_image) (delete_file G screenshot_image);;
     response_text ← lift (text G response);
     match json_loads G (strip response_text) with
     | Json j => ret (FromModel j)
     | JSONDecodeError => ret unable_to_analyze
     | OtherError e => raise e
     end)
    (λ _, ret analysis_failed).

(** Kinds of calls in the log. *)
Definition is_upload (ev : Ev) : bool :=
  match ev with UploadFile _ _ => true | _ => false end.

Definition is_delete (ev : Ev) : bool :=
  match ev with DeleteFile _ => true | _ => false end.

Definition is_generate_content (ev : Ev) : bool :=
  match ev with GenerateContent _ _ => true | _ => false end.

End WithApi.
End Gemini.

(* ===================================================================== *)
(** * The engine with its own client and processor                        *)
(* ===================================================================== *)

(** [RefinementEngine.__init__] builds the collaborators itself:
    [self.pdf_processor = PDFProcessor(...)] and
    [self.gemini_client = GeminiClient(...)].  [wired] is an engine whose
    generation, refinement and analysis are the methods of the client
    above, and whose extraction is the attribute the engine looks up on
    the processor object; the world of this engine is the state of the
    client.  The renderer, the progress callback and the clean-up are left
    as an engine [C0] has them. *)
Module Wired.
Import Py.

(** The attributes of a [PDFProcessor] object that are not those of every
    object: the one its constructor assigns and the methods of the
    class. *)
Definition PDFProcessor_attributes : list string :=
  ["temp_dir"; "extract_pages_as_images"; "get_pdf_info";
   "cleanup_temp_files"; "validate_pdf"]%string.

(** The message of the [AttributeError] of a failed lookup. *)
Definition attribute_error (class_name attribute : string) : str :=
  lit "'" ++ lit class_name ++ lit "' object has no attribute '"
  ++ lit attribute ++ lit "'".

(** [processor.<name>], given what the attribute is when there is one. *)
Definition getattr_PDFProcessor {A} (name : string) (found : A)
  : Engine.exn + A :=
  if bool_decide (name ∈ PDFProcessor_attributes) then inr found
  else inl (attribute_error "PDFProcessor" name).

Section Wiring.
Context {World Dim Time Response J : Type}.
Context (G : Gemini.Api (World := World) (Dim := Dim) (Time := Time)
                        (Response := Response) (J := J)).

(** [quality_analysis.get('overall_score')] on a decoded value: it
    raises when the value has no [get], and is [None] when the key is
    missing. *)
Context (score_of : J → Engine.exn + option Z).

Local Abbreviation Sys := (Gemini.St (World := World) (Time := Time)).

(** [page_data], as the client reads it. *)
Definition page_info_of (page_data : Engine.PageData (Dim := Dim))
  : Gemini.PageInfo (Dim := Dim) :=
  {| Gemini.page_number := Engine.page_number page_data;
     Gemini.width := Engine.width page_data;
     Gemini.height := Engine.height page_data;
     Gemini.pixel_width := Engine.pixel_width page_data;
     Gemini.pixel_height := Engine.pixel_height page_data |}.

(** The ['overall_score'] of what the client returned. *)
Definition overall_of (a : Gemini.Analysis J) : Engine.exn + option Z :=
  match a with
  | Gemini.FromModel j => score_of j
  | Gemini.Defaults score _ _ => inr (Some score)
  end.

Definition wired (C0 : Engine.Collaborators (World := Sys) (Dim := Dim))
  : Engine.Collaborators (World := Sys) (Dim := Dim) :=
  {| Engine.max_iterations := Engine.max_iterations C0;
     Engine.str_of_dim := Engine.str_of_dim C0;
     Engine.uuid4 := Engine.uuid4 C0;
     Engine.process_pdf_file :=
       λ pdf_path w,
         match getattr_PDFProcessor "process_pdf_file"
                                    (Engine.process_pdf_file C0) with
         | inr method => method pdf_path w
         | inl e => (inl e, w)
         end;
     Engine.generate_initial_html :=
       λ image_path page_data,
         Gemini.generate_initial_html G image_path (page_info_of page_data);
     Engine.start_browser := Engine.start_browser C0;
     Engine.stop_browser := Engine.stop_browser C0;
     Engine.render_and_screenshot := Engine.render_and_screenshot C0;
     Engine.refine_html :=
       λ original current_html screenshot page_data iteration,
         Gemini.refine_html G original current_html screenshot
                            (page_info_of page_data) iteration;
     Engine.analyze_visual_similarity :=
       λ original screenshot w,
         let '(r, w') :=
           Gemini.analyze_visual_similarity G original screenshot w in
         (match r with
          | inl e => inl e
          | inr a => overall_of a
          end, w');
     Engine.cleanup_screenshot := Engine.cleanup_screenshot C0;
     Engine.progress_callback := Engine.progress_callback C0;
     Engine.cleanup_temp_files := Engine.cleanup_temp_files C0;
     Engine.cleanup_all_screenshots := Engine.cleanup_all_screenshots C0 |}.

(** Where a score of a page of this engine can come from. *)
Definition score_source (s : Z) : Prop :=
  s = 5 ∨ s = 7 ∨ ∃ j o, score_of j = inr o ∧ s = Engine.overall_score o.

End Wiring.
End Wired.

(* ===================================================================== *)
(** * Facts about the Python operations                                   *)
(* ===================================================================== *)

Module PyFacts.
Import Words.

(** ** The operations on small inputs, as Python evaluates them *)

Example find_body :
  find (lit "<body") (lit "<html><body class=x>hi</body>") 0 = 6.
Proof. reflexivity. Qed.

Example find_from_start : find (lit ">") (lit "<a><b>") 3 = 5.
Proof. reflexivity. Qed.

Example find_missing : find (lit "<body") (lit "<p>text</p>") 0 = -1.
Proof. reflexivity. Qed.

Example find_empty_at_end :
  find (lit "") (lit "abc") 3 = 3 ∧ find (lit "") (lit "abc") 4 = -1.
Proof. by split. Qed.

Example rfind_last_of_two : rfind (lit "</body>") (lit "a</body>b</body>") = 9.
Proof. reflexivity. Qed.

Example slice_negative : slice (lit "hello") 1 (-1) = lit "ell".
Proof. reflexivity. Qed.

Example slice_crossed : slice (lit "hello") 4 2 = [].
Proof. reflexivity. Qed.

Example strip_both_ends :
  strip ([32; 10; 9]%N ++ lit "a b" ++ [160; 13; 32]%N) = lit "a b".
Proof. reflexivity. Qed.

Example join_lines : join nl [lit "a"; lit "b"; lit "c"] = lit "a" ++ nl ++ lit "b" ++ nl ++ lit "c".
Proof. reflexivity. Qed.

Example str_of_int_samples :
  str_of_int 0 = lit "0" ∧ str_of_int 12 = lit "12"
  ∧ str_of_int (-7) = lit "-7".
Proof. by split_and!. Qed.

Lemma startswith_spec (p s : str) :
  startswith p s = true ↔ ∃ post, s = p ++ post.
Proof.
  revert s. induction p as [|a p IH]; intros s; simpl.
  - split; [intros _; by exists s | done].
  - destruct s as [|b s]; simpl.
    + split; [done | intros [post H]; discriminate].
    + destruct (N.eqb_spec a b) as [->|Hne].
      * rewrite IH. split; intros [post H]; exists post; congruence.
      * split; [done | intros [post H]; congruence].
Qed.

Lemma startswith_app (p post : str) : startswith p (p ++ post) = true.
Proof. apply startswith_spec. by exists post. Qed.

Lemma startswith_false (p s : str) :
  startswith p s = false ↔ ¬ ∃ post, s = p ++ post.
Proof.
  rewrite <- startswith_spec. destruct (startswith p s); naive_solver.
Qed.

(** An occurrence seen from some index on. *)
Lemma startswith_drop_occurs (sub s : str) (k : nat) :
  startswith sub (drop k s) = true → occurs sub s.
Proof.
  intros [post H]%startswith_spec. exists (take k s), post.
  by rewrite <- H, take_drop.
Qed.

Lemma occurs_startswith_drop (sub s : str) :
  occurs sub s → ∃ k, (k ≤ length s)%nat ∧ startswith sub (drop k s) = true.
Proof.
  intros (pre & post & ->). exists (length pre). split.
  - rewrite length_app. lia.
  - rewrite drop_app_length. apply startswith_app.
Qed.

(** ** [find] *)

Lemma find_go_first (sub s : str) (i : Z) (k : nat) :
  (∀ j, (j < k)%nat → startswith sub (drop j s) = false) →
  startswith sub (drop k s) = true →
  (k ≤ length s)%nat →
  find_go sub s i = i + Z.of_nat k.
Proof.
  revert i k. induction s as [|c s IH]; intros i k Hbefore Hat Hlen.
  - simpl in Hlen. assert (k = 0%nat) as -> by lia.
    simpl in *. rewrite Hat. lia.
  - destruct k as [|k].
    + simpl in *. rewrite Hat. lia.
    + simpl. specialize (Hbefore 0%nat ltac:(lia)) as H0. simpl in H0.
      rewrite H0. rewrite (IH (i + 1) k).
      * lia.
      * intros j Hj. apply (Hbefore (S j)). lia.
      * exact Hat.
      * simpl in Hlen. lia.
Qed.


Lemma clamp_id (i n : Z) : 0 ≤ i ≤ n → clamp i n = i.
Proof. intros H. unfold clamp. destruct (Z.ltb_spec i 0); lia. Qed.

Lemma find_from (sub s : str) (start : nat) :
  (start ≤ length s)%nat →
  find sub s (Z.of_nat start) = find_go sub (drop start s) (Z.of_nat start).
Proof.
  intros H. unfold find, len.
  destruct (Z.ltb_spec (Z.of_nat (length s)) (Z.of_nat start)); [lia|].
  rewrite clamp_id by lia. by rewrite Nat2Z.id.
Qed.

Lemma find_zero (sub s : str) : find sub s 0 = find_go sub s 0.
Proof. apply (find_from sub s 0). lia. Qed.


(** The first occurrence of [sub] in [pre ++ sub ++ post] is at
    [length pre] when none starts inside [pre]. *)
Lemma find_first (sub pre post : str) :
  sub ≠ [] →
  ¬ occurs sub (pre ++ take (length sub - 1) sub) →
  find sub (pre ++ sub ++ post) 0 = Z.of_nat (length pre).
Proof.
  intros Hsub Hno. rewrite find_zero.
  rewrite (find_go_first sub _ 0 (length pre)).
  - lia.
  - intros j Hj.
    destruct (startswith sub (drop j (pre ++ sub ++ post))) eqn:E; [|done].
    destruct Hno. apply startswith_spec in E as [rest E].
    rewrite drop_app_le in E by lia.
    assert (length sub ≠ 0%nat) by (destruct sub; simpl; [done|lia]).
    set (X := drop j pre ++ take (length sub - 1) sub).
    assert (take (length sub) X = sub) as Hsame.
    { transitivity (take (length sub) (sub ++ rest));
        [|apply take_app_length].
      rewrite <- E. unfold X. rewrite !(take_app (drop j pre)). f_equal.
      rewrite take_app_le by lia.
      rewrite take_take. f_equal. rewrite length_drop. lia. }
    exists (take j pre), (drop (length sub) X).
    assert (sub ++ drop (length sub) X = X) as ->.
    { transitivity (take (length sub) X ++ drop (length sub) X);
        [by rewrite Hsame | apply take_drop]. }
    unfold X. by rewrite (assoc_L (++)), take_drop.
  - rewrite drop_app_length. apply startswith_app.
  - rewrite !length_app. lia.
Qed.

Lemma find_go_found (sub s : str) (i : Z) (k : nat) :
  startswith sub (drop k s) = true → (k ≤ length s)%nat →
  i ≤ find_go sub s i.
Proof.
  revert i k. induction s as [|c s IH]; intros i k Hat Hlen.
  - simpl in Hlen. assert (k = 0%nat) as -> by lia.
    simpl in *. rewrite Hat. lia.
  - simpl. destruct (startswith sub (c :: s)) eqn:E; [lia|].
    destruct k as [|k]; [simpl in Hat; congruence|].
    specialize (IH (i + 1) k Hat). simpl in Hlen. lia.
Qed.

(** [find] decides [occurs]. *)
Lemma not_occurs_by_find (sub s : str) : find sub s 0 = -1 → ¬ occurs sub s.
Proof.
  intros Hfind (k & Hk & Hat)%occurs_startswith_drop.
  rewrite find_zero in Hfind.
  pose proof (find_go_found sub s 0 k Hat Hk). lia.
Qed.

(** The first [c] at or after [length pre], past a stretch without it. *)
Lemma find_go_char (c : char) (skip post : str) (i : Z) :
  c ∉ skip →
  find_go [c] (skip ++ c :: post) i = i + Z.of_nat (length skip).
Proof.
  revert i. induction skip as [|x skip IH]; intros i Hnot; simpl.
  - rewrite N.eqb_refl. lia.
  - apply not_elem_of_cons in Hnot as [Hx Hskip].
    destruct (N.eqb_spec c x) as [->|_]; [done|].
    rewrite IH by done. lia.
Qed.

Lemma find_char (c : char) (pre skip post : str) :
  c ∉ skip →
  find [c] (pre ++ skip ++ c :: post) (Z.of_nat (length pre))
  = Z.of_nat (length pre + length skip).
Proof.
  intros Hnot. rewrite find_from by (rewrite length_app; lia).
  rewrite drop_app_length, find_go_char by done. lia.
Qed.

(** ** [rfind] *)

Lemma rfind_go_none (sub s : str) (i : Z) :
  (∀ j, startswith sub (drop j s) = false) → rfind_go sub s i = -1.
Proof.
  revert i. induction s as [|c s IH]; intros i H.
  - specialize (H 0%nat). simpl in *. by rewrite H.
  - simpl. rewrite IH by (intros j; apply (H (S j))).
    specialize (H 0%nat). simpl in H. by rewrite H.
Qed.

Lemma rfind_go_last (sub s : str) (i : Z) (k : nat) :
  0 ≤ i →
  startswith sub (drop k s) = true →
  (k ≤ length s)%nat →
  (∀ j, (k < j)%nat → startswith sub (drop j s) = false) →
  rfind_go sub s i = i + Z.of_nat k.
Proof.
  revert i k. induction s as [|c s IH]; intros i k Hi Hat Hlen Hafter.
  - simpl in Hlen. assert (k = 0%nat) as -> by lia.
    simpl in *. rewrite Hat. lia.
  - destruct k as [|k]; simpl.
    + rewrite rfind_go_none by (intros j; apply (Hafter (S j)); lia).
      simpl in Hat. rewrite Hat. simpl. lia.
    + rewrite (IH (i + 1) k); [|lia|done|simpl in Hlen; lia|].
      * destruct (Z.eqb_spec (i + 1 + Z.of_nat k) (-1)); lia.
      * intros j Hj. apply (Hafter (S j)). lia.
Qed.


(** The last occurrence of [sub] in [pre ++ sub ++ post] is at
    [length pre] when none starts after it. *)
Lemma rfind_last (sub pre post : str) :
  ¬ occurs sub (drop 1 sub ++ post) →
  rfind sub (pre ++ sub ++ post) = Z.of_nat (length pre).
Proof.
  intros Hno. unfold rfind.
  rewrite (rfind_go_last sub _ 0 (length pre)).
  - lia.
  - lia.
  - rewrite drop_app_length. apply startswith_app.
  - rewrite !length_app. lia.
  - intros j Hj.
    destruct (startswith sub (drop j (pre ++ sub ++ post))) eqn:E; [|done].
    destruct Hno. apply (startswith_drop_occurs sub _ (j - length pre - 1)).
    rewrite drop_app_ge in E by lia.
    replace (j - length pre)%nat with (1 + (j - length pre - 1))%nat in E
      by lia.
    rewrite <- drop_drop in E.
    destruct sub as [|c sub]; [done | exact E].
Qed.

(** ** Slices *)


Lemma slice_nat (s : str) (a b : nat) :
  (a ≤ b ≤ length s)%nat →
  slice s (Z.of_nat a) (Z.of_nat b) = take (b - a) (drop a s).
Proof.
  intros H. unfold slice, len. rewrite !clamp_id by lia.
  rewrite Nat2Z.id. f_equal. lia.
Qed.

(** ** [join] and [occurs] *)

Lemma occurs_here (sub a b : str) : occurs sub (a ++ sub ++ b).
Proof. by exists a, b. Qed.




(** ** [strip] *)

Lemma lstrip_split (s : str) : ∃ a, s = a ++ lstrip s ∧ blank a.
Proof.
  induction s as [|c s (a & IH & Ha)]; simpl.
  - exists []. split; [done | constructor].
  - destruct (isspace c) eqn:E.
    + exists (c :: a). split; [simpl; congruence | by constructor].
    + exists []. split; [done | constructor].
Qed.

(** [strip] removes a blank prefix and a blank suffix, nothing else. *)
Lemma strip_split (s : str) :
  ∃ a b, s = a ++ strip s ++ b ∧ blank a ∧ blank b.
Proof.
  destruct (lstrip_split (reverse s)) as (b & Hb & Hblank_b).
  destruct (lstrip_split (rstrip s)) as (a & Ha & Hblank_a).
  exists a, (reverse b). split_and!.
  - unfold strip. rewrite (assoc_L (++)), <- Ha. unfold rstrip.
    rewrite <- reverse_app, <- Hb. by rewrite reverse_involutive.
  - done.
  - unfold blank. by rewrite Forall_reverse.
Qed.

End PyFacts.

(* ===================================================================== *)
(** * The assembler: [_combine_pages_to_html]                             *)
(* ===================================================================== *)

Module CombineFacts.
Import Engine Words PyFacts.

(** [sorted] keeps the input order of equal keys, as Python's does. *)
Example sorted_is_stable :
  sorted fst [(2, 10); (1, 20); (2, 30); (1, 40)]
  = [(1, 20); (1, 40); (2, 10); (2, 30)].
Proof. reflexivity. Qed.

(** An opening tag that is never closed by ['>'] sends the start of the
    slice back to the beginning of the fragment. *)
Example page_content_unclosed_tag :
  page_content (lit "x <body class=a") = lit "x <body class=a".
Proof. reflexivity. Qed.

Example page_content_full_document :
  page_content (lit "<html><head></head><body class=a>" ++ nl
                ++ lit "  <p>hi</p>" ++ nl ++ lit "</body></html>")
  = lit "<p>hi</p>".
Proof. reflexivity. Qed.

Section Combine.
Context {Dim : Type}.
Implicit Types (page : PageResult (Dim := Dim)).
Implicit Types (pages : list (PageResult (Dim := Dim))).

Lemma not_elem_of_lit_body : 62%N ∉ lit "<body".
Proof.
  change (lit "<body") with [60; 98; 111; 100; 121]%N.
  rewrite !not_elem_of_cons. split_and!; [done..|apply not_elem_of_nil].
Qed.


(** Where the scan of [page_content] lands on a fragment with an opening
    tag: just after the first ['>'] that follows the first ['<body']. *)
Lemma body_start_after_tag (pre attrs rest : str) :
  let h := pre ++ lit "<body" ++ attrs ++ lit ">" ++ rest in
  ¬ occurs (lit "<body") (pre ++ lit "<bod") →
  62%N ∉ attrs →
  find (lit "<body") h 0 = Z.of_nat (length pre)
  ∧ find (lit ">") h (Z.of_nat (length pre)) + 1
    = Z.of_nat (length (pre ++ lit "<body" ++ attrs ++ lit ">"))
  ∧ drop (length (pre ++ lit "<body" ++ attrs ++ lit ">")) h = rest.
Proof.
  intros h Hfirst Hattrs. split_and!.
  - by apply find_first.
  - unfold h.
    replace (pre ++ lit "<body" ++ attrs ++ lit ">" ++ rest)
      with (pre ++ (lit "<body" ++ attrs) ++ 62%N :: rest)
      by by rewrite <- !(assoc_L (++)).
    change (lit ">") with [62%N]. rewrite find_char.
    + rewrite !length_app. simpl. lia.
    + rewrite not_elem_of_app. split; [apply not_elem_of_lit_body | done].
  - unfold h.
    replace (pre ++ lit "<body" ++ attrs ++ lit ">" ++ rest)
      with ((pre ++ lit "<body" ++ attrs ++ lit ">") ++ rest)
      by by rewrite <- !(assoc_L (++)).
    apply drop_app_length.
Qed.

Lemma found_index (n : nat) : negb (Z.of_nat n =? -1) = true.
Proof. destruct (Z.eqb_spec (Z.of_nat n) (-1)); [lia | done]. Qed.


Lemma page_content_closed_body (pre attrs inner post : str) :
  let h := pre ++ lit "<body" ++ attrs ++ lit ">" ++ inner
           ++ lit "</body>" ++ post in
  ¬ occurs (lit "<body") (pre ++ lit "<bod") →
  62%N ∉ attrs →
  ¬ occurs (lit "</body>") (lit "/body>" ++ post) →
  page_content h = strip inner.
Proof.
  intros h Hfirst Hattrs Hlast.
  destruct (body_start_after_tag pre attrs (inner ++ lit "</body>" ++ post)
              Hfirst Hattrs) as (Hfind & Hstart & Hdrop).
  fold h in Hfind, Hstart, Hdrop. unfold page_content.
  set (P := pre ++ lit "<body" ++ attrs ++ lit ">") in *.
  assert (h = (P ++ inner) ++ lit "</body>" ++ post) as Hh
    by (unfold h, P; by rewrite <- !(assoc_L (++))).
  assert (rfind (lit "</body>") h = Z.of_nat (length (P ++ inner))) as Hend
    by (rewrite Hh; by apply rfind_last).
  rewrite Hfind, found_index, Hstart, Hend, found_index.
  rewrite slice_nat.
  - rewrite Hdrop, length_app.
    replace (length P + length inner - length P)%nat with (length inner)
      by lia.
    by rewrite take_app_length.
  - rewrite Hh, !length_app. lia.
Qed.


(** ** [sorted] *)

Section Sorted.
Context {A : Type} (key : A → Z).

Lemma insert_by_perm (x : A) (l : list A) : insert_by key x l ≡ₚ x :: l.
Proof.
  induction l as [|y l IH]; simpl; [done|].
  destruct (key x <=? key y); [done|].
  rewrite IH. apply Permutation_swap.
Qed.

Lemma sorted_perm (l : list A) : sorted key l ≡ₚ l.
Proof.
  induction l as [|x l IH]; simpl; [done|].
  unfold sorted in *. simpl. by rewrite insert_by_perm, IH.
Qed.

Lemma insert_by_ascending (x : A) (l : list A) :
  StronglySorted (key_le key) l → StronglySorted (key_le key) (insert_by key x l).
Proof.
  induction 1 as [|y l Hl IH Hy]; simpl.
  - repeat constructor.
  - destruct (Z.leb_spec (key x) (key y)).
    + constructor; [by constructor|].
      constructor; [done|].
      eapply Forall_impl; [exact Hy|]. unfold key_le. intros z ?. lia.
    + constructor; [done|].
      rewrite insert_by_perm. constructor; [unfold key_le; lia | done].
Qed.

Lemma sorted_ascending (l : list A) : StronglySorted (key_le key) (sorted key l).
Proof.
  induction l as [|x l IH]; [constructor|].
  by apply insert_by_ascending.
Qed.




End Sorted.

(** ** The lines of the combined document *)

Lemma foldl_add_page (total : Z) (html_parts : list str) pages :
  foldl (add_page total) html_parts pages
  = html_parts ++ concat (page_block total <$> pages).
Proof.
  revert html_parts. induction pages as [|page pages IH]; intros parts.
  - simpl. by rewrite (right_id_L [] (++)).
  - simpl. rewrite IH. unfold add_page, page_block.
    by rewrite <- !(assoc_L (++)).
Qed.

Lemma is_container_container_line (n : Z) :
  is_container (container_line n) = true.
Proof.
  unfold is_container, container_line.
  rewrite (assoc_L (++) (lit "    <div class=")). apply startswith_app.
Qed.

Lemma filter_container_head (info : PdfInfo) :
  filter (λ line, is_container line = true) (head_parts info) = [].
Proof. by destruct info as [[t|]]. Qed.

Lemma filter_container_tail :
  filter (λ line, is_container line = true) [lit "</body>"; lit "</html>"]
  = [].
Proof. reflexivity. Qed.

Lemma filter_container_block (total : Z) page :
  filter (λ line, is_container line = true) (page_block total page)
  = [container_line (r_page_number page)].
Proof.
  unfold page_block. rewrite filter_cons_True
    by apply is_container_container_line.
  done.
Qed.

Lemma filter_container_blocks (total : Z) pages :
  filter (λ line, is_container line = true)
         (concat (page_block total <$> pages))
  = (λ page, container_line (r_page_number page)) <$> pages.
Proof.
  induction pages as [|page pages IH]; [done|].
  rewrite !fmap_cons.
  change (concat (page_block total page :: (page_block total <$> pages)))
    with (page_block total page ++ concat (page_block total <$> pages)).
  by rewrite filter_app, filter_container_block, IH.
Qed.


End Combine.

(** ** The theorems on concrete fragments and pages *)



End CombineFacts.

(* ===================================================================== *)
(** * The message history and the percentages                             *)
(* ===================================================================== *)

Module WSFacts.
Import WS.

Lemma length_record_message (msg : Message) (t : TaskStatus) :
  length (messages (record_message msg t))
  = if 50 <? len_list (messages t) then length (messages t)
    else S (length (messages t)).
Proof.
  unfold record_message, pop0, len_list. simpl.
  destruct (Z.ltb_spec 50 (Z.of_nat (length (messages t)))).
  - rewrite length_app, length_drop. simpl. lia.
  - rewrite length_app. simpl. lia.
Qed.

(** What [_send_message] does to the history of its task. *)
Lemma history_send_message (tid : str) (msg : Message) (o : SendOutcome)
    (m : Manager) :
  history tid (snd (_send_message tid msg o m))
  = if decide (tid ∈ active_connections m) then
      match task_statuses m !! tid with
      | Some t => messages (record_message msg t)
      | None => []
      end
    else history tid m.
Proof.
  unfold _send_message, history.
  destruct (decide (tid ∈ active_connections m)); [|done].
  destruct o; simpl; rewrite lookup_alter_eq;
    by destruct (task_statuses m !! tid).
Qed.

(** The length the history keeps to: one more than the [50] of the test. *)
Lemma history_stays_within_51 (tid : str) (msg : Message) (o : SendOutcome)
    (m : Manager) :
  (length (history tid m) ≤ 51)%nat →
  (length (history tid (snd (_send_message tid msg o m))) ≤ 51)%nat.
Proof.
  intros H. rewrite history_send_message.
  destruct (decide (tid ∈ active_connections m)); [|done].
  unfold history in H.
  destruct (task_statuses m !! tid) as [t|]; simpl in H; [|simpl; lia].
  rewrite length_record_message. unfold len_list.
  destruct (Z.ltb_spec 50 (Z.of_nat (length (messages t)))); lia.
Qed.

(** A history of exactly [50] messages is not trimmed. *)
Lemma history_at_50_grows (tid : str) (msg : Message) (o : SendOutcome)
    (m : Manager) (t : TaskStatus) :
  tid ∈ active_connections m →
  task_statuses m !! tid = Some t →
  length (messages t) = 50%nat →
  history tid (snd (_send_message tid msg o m)) = messages t ++ [msg].
Proof.
  intros Hconn Ht Hlen. rewrite history_send_message.
  rewrite decide_True by done. rewrite Ht.
  unfold record_message, len_list. rewrite Hlen. done.
Qed.

(** C9. The history [_send_message] keeps is tested with
    [len(messages) > 50] before the new message is appended: a history
    that holds [50] messages is not trimmed and holds [51] after the
    publish, the oldest message still first.  From [51] on the oldest
    message is dropped at each publish, so the length the history keeps to
    is [51], not [50]. *)
Theorem history_exceeds_50 :
  let m := Demo.manager_with 50 in
  let tid := lit "t" in
  let msg := error tid (lit "late") None in
  length (history tid m) = 50%nat
  ∧ fst (_send_message tid msg Sent m) = true
  ∧ length (history tid (snd (_send_message tid msg Sent m))) = 51%nat
  ∧ history tid (snd (_send_message tid msg Sent m)) = history tid m ++ [msg]
  ∧ history tid (snd (_send_message tid msg Sent (Demo.manager_with 51)))
    = drop 1 (history tid (Demo.manager_with 51)) ++ [msg]
  ∧ length (history tid (snd (_send_message tid msg Sent
                                            (Demo.manager_with 51))))
    = 51%nat.
Proof. vm_compute. done. Qed.

(** ** The percentages *)

Section PercentageFacts.
Context {Float : Type}.
Context (float_quot : Z → Z → option Float).
Context (float_mul : Float → Z → Float).
Context (int_of_float : Float → option Z).

Local Abbreviation percent := (percent float_quot float_mul int_of_float).
Local Abbreviation page_completion_percentage :=
  (page_completion_percentage float_quot float_mul int_of_float).
Local Abbreviation callback_percentage :=
  (callback_percentage float_quot float_mul int_of_float).
Local Abbreviation send_page_completion :=
  (send_page_completion float_quot float_mul int_of_float).
Local Abbreviation progress_callback :=
  (progress_callback float_quot float_mul int_of_float).

(** The division raises [ZeroDivisionError] on a zero divisor only. *)
Lemma percent_zero_division (c t : Z) :
  percent c t = inl ZeroDivisionError ↔ t = 0.
Proof.
  unfold percent, truediv. destruct (Z.eqb_spec t 0) as [->|Hne].
  - done.
  - split; [|done]. destruct (float_quot c t) as [x|]; [|done].
    by destruct (int_of_float (float_mul x 100)).
Qed.

(** C10. The percentage computations of the event interface do not divide
    by zero.  [send_page_completion] divides [current_page] by
    [total_pages] only when [total_pages > 0] and reports [0] otherwise;
    the progress callback computes a percentage only when [current_page]
    and [total_pages] are both present and [total_pages > 0], and leaves it
    [None] otherwise; for no inputs does either raise
    [ZeroDivisionError]. *)
Theorem percentages_guard_division :
  (∀ c t, 0 < t →
     page_completion_percentage c t = percent c t)
  ∧ (∀ c t, t ≤ 0 → page_completion_percentage c t = inr 0)
  ∧ (∀ c t, page_completion_percentage c t ≠ inl ZeroDivisionError)
  ∧ (∀ tid n html c t o m,
       fst (send_page_completion tid n html c t o m)
       ≠ inl ZeroDivisionError)
  ∧ (∀ c t, 0 < t →
       callback_percentage (Some c) (Some t)
       = sum_map id Some (percent c t))
  ∧ (∀ c t, c = None ∨ t = None ∨ (∃ n, t = Some n ∧ n ≤ 0) →
       callback_percentage c t = inr None)
  ∧ (∀ c t, callback_percentage c t ≠ inl ZeroDivisionError).
Proof.
  assert (∀ c t, page_completion_percentage c t ≠ inl ZeroDivisionError)
    as Hpage.
  { intros c t. unfold WS.page_completion_percentage.
    destruct (Z.ltb_spec 0 t); [|done].
    rewrite percent_zero_division. lia. }
  split_and!.
  - intros c t Ht. unfold WS.page_completion_percentage.
    destruct (Z.ltb_spec 0 t); [done | lia].
  - intros c t Ht. unfold WS.page_completion_percentage.
    destruct (Z.ltb_spec 0 t); [lia | done].
  - exact Hpage.
  - intros tid n html c t o m. unfold WS.send_page_completion.
    specialize (Hpage c t).
    destruct (page_completion_percentage c t) as [e|pct]; simpl.
    + intros [= ->]. by destruct Hpage.
    + by destruct (_send_message _ _ _ _).
  - intros c t Ht. unfold WS.callback_percentage.
    destruct (Z.ltb_spec 0 t); [|lia]. by destruct (percent c t).
  - intros c t H. unfold WS.callback_percentage.
    destruct c as [c|], t as [t|]; try done.
    destruct H as [H|[H|(n & [= ->] & Hn)]]; try done.
    destruct (Z.ltb_spec 0 n); [lia | done].
  - intros [c|] [t|]; unfold WS.callback_percentage; try done.
    destruct (Z.ltb_spec 0 t); [|done].
    pose proof (percent_zero_division c t) as Hz.
    destruct (percent c t) as [e|n]; [|done].
    intros [= ->]. destruct Hz as [Hz _]. specialize (Hz eq_refl). lia.
Qed.

End PercentageFacts.

Lemma percentages_guard_division_witness :
  let pct :=
    page_completion_percentage Demo.exact_quot Demo.exact_mul Demo.exact_int in
  let cb :=
    callback_percentage Demo.exact_quot Demo.exact_mul Demo.exact_int in
  pct 1 2 = inr 50
  ∧ pct 1 0 = inr 0
  ∧ cb (Some 3) (Some 4) = inr (Some 75)
  ∧ cb (Some 3) (Some 0) = inr None
  ∧ cb None (Some 4) = inr None.
Proof.
  intros pct cb.
  destruct (percentages_guard_division
              Demo.exact_quot Demo.exact_mul Demo.exact_int)
    as (Hdiv & Hzero & _ & _ & Hcb & Hnone & _).
  split; [|split; [|split; [|split]]].
  - unfold pct. rewrite Hdiv by lia. reflexivity.
  - unfold pct. apply Hzero. lia.
  - unfold cb. rewrite Hcb by lia. reflexivity.
  - unfold cb. apply Hnone. right. right. exists 0. split; [reflexivity|lia].
  - unfold cb. apply Hnone. by left.
Defined.

End WSFacts.

(* ===================================================================== *)
(** * The orchestrator: [_process_single_page], [convert_pdf_to_html]     *)
(* ===================================================================== *)

Module EngineFacts.
Import Engine Words PyFacts.

Section Facts.
Context {World Dim : Type}.
Context (C : Collaborators (World := World) (Dim := Dim)).

Implicit Types (st : St (World := World) (Dim := Dim)).
Implicit Types (pd : PageData (Dim := Dim)).
Implicit Types (v : LoopVars).
Implicit Types (d : list Call).
Implicit Types (prs : list (PageData (Dim := Dim) * PageResult (Dim := Dim))).
Implicit Types (ti : TaskInfo (Dim := Dim)).

(** ** The monad *)

Lemma bind_inr {A B} (m : M A) (k : A → M B) st a st' :
  m st = (inr a, st') → (m ≫= k) st = k a st'.
Proof. intros H. unfold mbind, M_bind, bind. by rewrite H. Qed.

Lemma bind_inl {A B} (m : M A) (k : A → M B) st e st' :
  m st = (inl e, st') → (m ≫= k) st = (inl e, st').
Proof. intros H. unfold mbind, M_bind, bind. by rewrite H. Qed.

Lemma call_eq {A} (c : Call) (f : World → (exn + A) * World) st :
  call c f st = (fst (f (world st)), logged st c (snd (f (world st)))).
Proof. unfold call, logged. by destruct (f (world st)). Qed.

Lemma call_inr {A} (c : Call) (f : World → (exn + A) * World) st a w :
  f (world st) = (inr a, w) → call c f st = (inr a, logged st c w).
Proof. intros H. by rewrite call_eq, H. Qed.

Lemma call_inl {A} (c : Call) (f : World → (exn + A) * World) st e w :
  f (world st) = (inl e, w) → call c f st = (inl e, logged st c w).
Proof. intros H. by rewrite call_eq, H. Qed.

Lemma try_except_inr {A} (m : M A) (h : exn → M A) st a st' :
  m st = (inr a, st') → try_except m h st = (inr a, st').
Proof. intros H. unfold try_except. by rewrite H. Qed.

Lemma try_except_inl {A} (m : M A) (h : exn → M A) st e st' :
  m st = (inl e, st') → try_except m h st = h e st'.
Proof. intros H. unfold try_except. by rewrite H. Qed.

(** ** [_update_progress] *)

Lemma _update_progress_spec (tid message : str) st :
  ∃ st', _update_progress C tid message st = (inr (), st')
         ∧ active_tasks st' = active_tasks st
         ∧ calls st' = calls st ++ progress_call C tid message.
Proof.
  unfold _update_progress, progress_call.
  destruct (progress_callback C) as [cb|].
  - unfold try_except. rewrite call_eq.
    destruct (cb tid message (world st)) as [[e|[]] w]; simpl;
      eexists; split_and!; done.
  - unfold ret. exists st. split_and!; [done..|].
    by rewrite (right_id_L [] (++)).
Qed.

Lemma only_progress_call (kind : Call → bool) (tid message : str) :
  kind (ProgressCallback tid message) = false →
  only kind (progress_call C tid message) = [].
Proof.
  intros H. unfold only, progress_call.
  destruct (progress_callback C); [|done].
  by rewrite filter_cons_False, filter_nil by (by rewrite H).
Qed.

(** ** One iteration of the refinement loop *)

(** The three ways an iteration ends: the render raises and so does the
    iteration; the refinement raises and the loop breaks with the markup
    it had; or the refinement returns and the loop goes on with the new
    markup and one more score. *)
Lemma refine_iteration_cases (tid : str) pd (i : Z) v st :
  let html := current_html v in
  let n := iterations_done v + 1 in
  let pn := page_number pd in
  let pre := progress_call C tid (refining_message C pd i)
             ++ [RenderAndScreenshot pn html] in
  ∃ st', active_tasks st' = active_tasks st ∧
    ((∃ e w w',
        render_and_screenshot C html pd w = (inl e, w')
        ∧ refine_iteration C tid pd i v st = (inl e, st')
        ∧ calls st' = calls st ++ pre)
     ∨ (∃ shot e w w',
          refine_html C (image_path pd) html shot pd (i + 1) w = (inl e, w')
          ∧ refine_iteration C tid pd i v st
            = (inr (Break, {| current_html := html; iterations_done := n;
                              quality_scores := quality_scores v |}), st')
          ∧ calls st' = calls st ++ pre ++ [RefineHtml pn html (i + 1)])
     ∨ (∃ shot html' w w' s,
          refine_html C (image_path pd) html shot pd (i + 1) w
          = (inr html', w')
          ∧ ((∃ w1 e w2,
                analyze_visual_similarity C (image_path pd) shot w1
                = (inl e, w2) ∧ s = 7)
             ∨ (∃ w1 o w2,
                  analyze_visual_similarity C (image_path pd) shot w1
                  = (inr o, w2) ∧ s = overall_score o))
          ∧ refine_iteration C tid pd i v st
            = (inr (Next, {| current_html := html'; iterations_done := n;
                             quality_scores := quality_scores v ++ [s] |}),
               st')
          ∧ calls st' = calls st ++ pre
                        ++ [RefineHtml pn html (i + 1);
                            AnalyzeVisualSimilarity pn;
                            CleanupScreenshot shot])).
Proof.
  intros html n pn pre. subst html n pn.
  destruct (_update_progress_spec tid (refining_message C pd i) st)
    as (st1 & Hprog & Htasks1 & Hcalls1).
  assert (∀ more,
            calls st1
            ++ RenderAndScreenshot (page_number pd) (current_html v) :: more
            = calls st ++ pre ++ more) as Hlog.
  { intros more. rewrite Hcalls1. unfold pre.
    by rewrite <- !(assoc_L (++)). }
  clearbody pre.
  unfold refine_iteration. rewrite (bind_inr _ _ _ _ _ Hprog).
  destruct (render_and_screenshot C (current_html v) pd (world st1))
    as [[e|shot] w2] eqn:Hrender.
  { eexists (logged st1 _ w2). split; [done|]. left.
    exists e, (world st1), w2. split_and!; [done| |].
    - by rewrite (bind_inl _ _ _ _ _ (call_inl _ _ _ _ _ Hrender)).
    - simpl. rewrite (Hlog []). by rewrite (right_id_L [] (++)). }
  rewrite (bind_inr _ _ _ _ _ (call_inr _ _ _ _ _ Hrender)).
  set (st2 := logged st1 _ w2).
  destruct (refine_html C (image_path pd) (current_html v) shot pd (i + 1)
              (world st2)) as [[e|html'] w3] eqn:Hrefine.
  { eexists (logged st2 _ w3). split; [done|]. right; left.
    exists shot, e, (world st2), w3. split_and!; [done| |].
    - by rewrite (try_except_inl _ _ _ _ _
                    (bind_inl _ _ _ _ _ (call_inl _ _ _ _ _ Hrefine))).
    - unfold st2. simpl. rewrite <- (assoc_L (++)). simpl.
      by rewrite Hlog. }
  set (st3 := logged st2 (RefineHtml (page_number pd) (current_html v)
                                     (i + 1)) w3).
  assert (∃ s st4,
            try_except
              (call (AnalyzeVisualSimilarity (page_number pd))
                    (analyze_visual_similarity C (image_path pd) shot)
               ≫= λ analysis, ret (overall_score analysis))
              (λ _, ret 7) st3 = (inr s, st4)
            ∧ active_tasks st4 = active_tasks st3
            ∧ calls st4 = calls st3 ++ [AnalyzeVisualSimilarity (page_number pd)]
            ∧ ((∃ w1 e w2,
                  analyze_visual_similarity C (image_path pd) shot w1
                  = (inl e, w2) ∧ s = 7)
               ∨ (∃ w1 o w2,
                    analyze_visual_similarity C (image_path pd) shot w1
                    = (inr o, w2) ∧ s = overall_score o)))
    as (s & st4 & Hscore & Htasks4 & Hcalls4 & Hs).
  { destruct (analyze_visual_similarity C (image_path pd) shot (world st3))
      as [[e|o] w4] eqn:Hscore.
    - exists 7, (logged st3 (AnalyzeVisualSimilarity (page_number pd)) w4).
      split_and!; [|done|done|left; by exists (world st3), e, w4].
      by rewrite (try_except_inl _ _ _ _ _
                    (bind_inl _ _ _ _ _ (call_inl _ _ _ _ _ Hscore))).
    - exists (overall_score o), (logged st3 (AnalyzeVisualSimilarity (page_number pd)) w4).
      split_and!; [|done|done|right; by exists (world st3), o, w4].
      apply try_except_inr.
      by rewrite (bind_inr _ _ _ _ _ (call_inr _ _ _ _ _ Hscore)). }
  eexists (logged st4 (CleanupScreenshot shot)
                  (cleanup_screenshot C shot (world st4))).
  split; [simpl; by rewrite Htasks4|]. right; right.
  exists shot, html', (world st2), w3, s. split_and!; [done|done| |].
  - apply try_except_inr.
    rewrite (bind_inr _ _ _ _ _ (call_inr _ _ _ _ _ Hrefine)).
    fold st3. by rewrite (bind_inr _ _ _ _ _ Hscore).
  - simpl. rewrite Hcalls4. unfold st3, st2. simpl.
    rewrite <- !(assoc_L (++)). simpl. by rewrite Hlog.
Qed.

(** ** The refinement loop *)

Lemma for_loop_cons {V} (body : Z → V → M (Flow * V)) (i : Z)
    (rest : list Z) (v : V) st :
  for_loop body (i :: rest) v st
  = match body i v st with
    | (inl e, st') => (inl e, st')
    | (inr (Break, v'), st') => (inr v', st')
    | (inr (Next, v'), st') => for_loop body rest v' st'
    end.
Proof.
  simpl. unfold mbind, M_bind, bind.
  destruct (body i v st) as [[e|[[] v']] st']; done.
Qed.

(** What every run of the loop keeps to: the task table is not touched,
    no generation call is made, the iteration count grows by at most one
    per turn, and the scores are only appended to. *)
Lemma refinement_loop_inv (tid : str) pd (its : list Z) v st r st' :
  for_loop (refine_iteration C tid pd) its v st = (r, st') →
  active_tasks st' = active_tasks st
  ∧ (∃ d, calls st' = calls st ++ d ∧ only is_generate d = [])
  ∧ match r with
    | inl _ => True
    | inr v' =>
        iterations_done v ≤ iterations_done v'
        ≤ iterations_done v + Z.of_nat (length its)
        ∧ ∃ new, quality_scores v' = quality_scores v ++ new
                 ∧ Forall (recorded C pd) new
    end.
Proof.
  revert v st. induction its as [|i its IH]; intros v st Hrun.
  - simpl in Hrun. injection Hrun as <- <-. split; [done|split].
    + exists []. by rewrite (right_id_L [] (++)).
    + split; [simpl; lia|]. exists []. by rewrite (right_id_L [] (++)).
  - rewrite for_loop_cons in Hrun.
    destruct (refine_iteration_cases tid pd i v st)
      as (st1 & Htasks & [Hcase|[Hcase|Hcase]]).
    + destruct Hcase as (e & w & w' & _ & Hbody & Hcalls).
      rewrite Hbody in Hrun. injection Hrun as <- <-.
      split; [done|split; [|done]].
      eexists. split; [exact Hcalls|].
      unfold only. rewrite filter_app.
      fold (only is_generate (progress_call C tid (refining_message C pd i))).
      by rewrite only_progress_call.
    + destruct Hcase as (shot & e & w & w' & _ & Hbody & Hcalls).
      rewrite Hbody in Hrun. injection Hrun as <- <-.
      split; [done|split].
      * eexists. split; [exact Hcalls|].
        unfold only. rewrite !filter_app.
        fold (only is_generate
                (progress_call C tid (refining_message C pd i))).
        by rewrite only_progress_call.
      * simpl. split; [lia|]. exists [].
        by rewrite (right_id_L [] (++)).
    + destruct Hcase as (shot & html' & w & w' & s & _ & Hs & Hbody & Hcalls).
      rewrite Hbody in Hrun.
      destruct (IH _ _ Hrun) as (Htasks' & (d & Hd & Hgen) & Hr).
      split; [congruence|split].
      * eexists. split.
        { rewrite Hd, Hcalls. by rewrite <- !(assoc_L (++)). }
        unfold only. rewrite !filter_app.
        fold (only is_generate
                (progress_call C tid (refining_message C pd i))).
        fold (only is_generate d).
        by rewrite only_progress_call, Hgen.
      * destruct r as [e|v']; [done|]. simpl in Hr.
        destruct Hr as (Hiter & new & Hnew & Hrec).
        split; [simpl; lia|]. exists (s :: new). split.
        { rewrite Hnew. by rewrite <- (assoc_L (++)). }
        constructor; [|done].
        destruct Hs as [(w1 & e & w2 & _ & ->)|(w1 & o & w2 & Ho & ->)].
        -- by left.
        -- right. by exists shot, w1, o, w2.
Qed.

(** ** [_process_single_page] *)

Lemma try_finally_quiet {A} (m : M A) (c : Call) (f : World → World) st r
    st1 :
  m st = (r, st1) →
  try_finally m (call_quiet c f) st = (r, logged st1 c (f (world st1))).
Proof.
  intros H. unfold try_finally, call_quiet. rewrite H, call_eq. simpl.
  by destruct r.
Qed.

Lemma length_range (n : Z) : Z.of_nat (length (range n)) = Z.max 0 n.
Proof. unfold range. rewrite length_seqZ. lia. Qed.

(** Every run of [_process_single_page]: one generation call, the task
    table untouched, and, when a result is returned, a result built from
    variables the loop left within its bounds. *)
Lemma _process_single_page_cases (tid : str) pd st :
  ∃ r st' d,
    _process_single_page C tid pd st = (r, st')
    ∧ active_tasks st' = active_tasks st
    ∧ calls st' = calls st ++ d
    ∧ only is_generate d = [GenerateInitialHtml (page_number pd)]
    ∧ match r with
      | inl _ => True
      | inr res =>
          ∃ v, res = page_result pd v
               ∧ 0 ≤ iterations_done v ≤ Z.max 0 (max_iterations C)
               ∧ Forall (recorded C pd) (quality_scores v)
      end.
Proof.
  unfold _process_single_page.
  destruct (_update_progress_spec tid (generating_message pd) st)
    as (st1 & Hprog & Htasks1 & Hcalls1).
  rewrite (bind_inr _ _ _ _ _ Hprog).
  assert (∀ more,
            only is_generate
              (progress_call C tid (generating_message pd)
               ++ GenerateInitialHtml (page_number pd) :: more)
            = GenerateInitialHtml (page_number pd) :: only is_generate more)
    as Hgen.
  { intros more. unfold only. rewrite filter_app.
    fold (only is_generate (progress_call C tid (generating_message pd))).
    by rewrite only_progress_call. }
  destruct (generate_initial_html C (image_path pd) pd (world st1))
    as [[e|html] w2] eqn:Hgenerate.
  { rewrite (bind_inl _ _ _ _ _ (call_inl _ _ _ _ _ Hgenerate)).
    eexists _, _, _. split_and!; [done|done| | |done].
    - simpl. rewrite Hcalls1. by rewrite <- (assoc_L (++)).
    - apply Hgen. }
  rewrite (bind_inr _ _ _ _ _ (call_inr _ _ _ _ _ Hgenerate)).
  set (st2 := logged st1 (GenerateInitialHtml (page_number pd)) w2).
  destruct (start_browser C (world st2)) as [[e|[]] w3] eqn:Hstart.
  { rewrite (bind_inl _ _ _ _ _ (call_inl _ _ _ _ _ Hstart)).
    eexists _, _, _. split_and!; [done|done| | |done].
    - unfold st2. simpl. rewrite Hcalls1.
      by rewrite <- !(assoc_L (++)).
    - apply Hgen. }
  rewrite (bind_inr _ _ _ _ _ (call_inr _ _ _ _ _ Hstart)).
  set (st3 := logged st2 StartBrowser w3).
  destruct (for_loop (refine_iteration C tid pd) (range (max_iterations C))
              {| current_html := html; iterations_done := 0;
                 quality_scores := [] |} st3) as [r st4] eqn:Hloop.
  destruct (refinement_loop_inv _ _ _ _ _ _ _ Hloop)
    as (Htasks4 & (d & Hd & Hgen4) & Hr).
  pose proof (try_finally_quiet _ StopBrowser (stop_browser C) _ _ _ Hloop)
    as Hfin.
  assert (calls (logged st4 StopBrowser (stop_browser C (world st4)))
          = calls st
            ++ progress_call C tid (generating_message pd)
            ++ GenerateInitialHtml (page_number pd)
               :: StartBrowser :: d ++ [StopBrowser]) as Hcalls.
  { simpl. rewrite Hd. unfold st3, st2. simpl. rewrite Hcalls1.
    by rewrite <- !(assoc_L (++)). }
  assert (only is_generate
            (progress_call C tid (generating_message pd)
             ++ GenerateInitialHtml (page_number pd)
                :: StartBrowser :: d ++ [StopBrowser])
          = [GenerateInitialHtml (page_number pd)]) as Honly.
  { rewrite Hgen. f_equal. unfold only.
    rewrite filter_cons_False by done. rewrite filter_app.
    fold (only is_generate d). by rewrite Hgen4. }
  destruct r as [e|v].
  - rewrite (bind_inl _ _ _ _ _ Hfin).
    eexists _, _, _. split_and!; [done| |exact Hcalls|exact Honly|done].
    simpl. by rewrite Htasks4.
  - rewrite (bind_inr _ _ _ _ _ Hfin).
    eexists _, _, _. split_and!; [done| |exact Hcalls|exact Honly|].
    + simpl. by rewrite Htasks4.
    + exists v. simpl in Hr. destruct Hr as (Hiter & new & Hnew & Hrec).
      rewrite length_range in Hiter. simpl in Hnew. subst.
      split_and!; [done|lia|lia|done].
Qed.

(** ** The page loop *)

Lemma update_task_eq (tid : str) (f : TaskInfo → TaskInfo) st :
  update_task tid f st
  = (inr (), {| world := world st; calls := calls st;
                active_tasks := alter f tid (active_tasks st) |}).
Proof. done. Qed.

(** One turn of the page loop never raises: it appends the result of the
    page, or the fallback when the page raised, and notes it in the task. *)
Lemma process_page_spec (tid : str) (total : Z) acc pd st :
  ∃ r st' d,
    process_page C tid total acc pd st = (inr (acc ++ [r]), st')
    ∧ page_outcome C pd r
    ∧ (∀ e st1, _process_single_page C tid pd st = (inl e, st1) →
         r = fallback_page C pd e)
    ∧ (∀ res st1, _process_single_page C tid pd st = (inr res, st1) →
         r = res)
    ∧ active_tasks st' = alter (note_page pd r) tid (active_tasks st)
    ∧ calls st' = calls st ++ d
    ∧ only is_generate d = [GenerateInitialHtml (page_number pd)].
Proof.
  destruct (_process_single_page_cases tid pd st)
    as (r & st1 & d & Hrun & Htasks & Hcalls & Hgen & Hr).
  unfold process_page. destruct r as [e|res].
  - rewrite (try_except_inl _ _ _ _ _ (bind_inl _ _ _ _ _ Hrun)).
    exists (fallback_page C pd e). eexists _, d.
    split_and!; [done| | | | |exact Hcalls|exact Hgen].
    + right. by exists e.
    + intros e' st1' H. rewrite Hrun in H. by injection H as -> ->.
    + intros res st1' H. by rewrite Hrun in H.
    + simpl. by rewrite Htasks, alter_alter_eq.
  - destruct Hr as (v & -> & Hv).
    destruct (_update_progress_spec tid
                (lit "Completed page " ++ str_of_int (page_number pd)
                 ++ lit " of " ++ str_of_int total)
                {| world := world st1; calls := calls st1;
                   active_tasks :=
                     alter incr_completed tid (active_tasks st1) |})
      as (st2 & Hprog & Htasks2 & Hcalls2).
    exists (page_result pd v), st2. eexists.
    split_and!; [| | | | | |].
    + apply try_except_inr. rewrite (bind_inr _ _ _ _ _ Hrun).
      rewrite (bind_inr _ _ _ _ _ (update_task_eq _ _ _)).
      by rewrite (bind_inr _ _ _ _ _ Hprog).
    + left. by exists v.
    + intros e st1' H. by rewrite Hrun in H.
    + intros res st1' H. rewrite Hrun in H. by injection H as <- <-.
    + rewrite Htasks2. simpl. by rewrite Htasks.
    + rewrite Hcalls2. simpl. rewrite Hcalls.
      by rewrite <- (assoc_L (++)).
    + unfold only. rewrite filter_app.
      fold (only is_generate d). rewrite Hgen.
      match goal with
      | |- context [filter _ (progress_call C tid ?m)] =>
          fold (only is_generate (progress_call C tid m));
          by rewrite only_progress_call
      end.
Qed.

Lemma process_page_ran (tid : str) (total : Z) acc pd st r st' :
  process_page C tid total acc pd st = (inr (acc ++ [r]), st') →
  page_ran C tid pd r.
Proof.
  intros Hturn. exists st.
  destruct (process_page_spec tid total acc pd st)
    as (r' & st1 & d & Hturn' & _ & Hraise & Hreturn & _).
  rewrite Hturn' in Hturn. injection Hturn as Hr _.
  apply app_inv_head in Hr. injection Hr as ->.
  destruct (_process_single_page C tid pd st) as [[e|res] st2] eqn:Hrun.
  - exact (Hraise _ _ eq_refl).
  - exact (Hreturn _ _ eq_refl).
Qed.

Lemma page_ran_outcome (tid : str) pd r :
  page_ran C tid pd r → page_outcome C pd r.
Proof.
  intros [st H].
  destruct (_process_single_page_cases tid pd st)
    as (r' & st1 & d & Hrun & _ & _ & _ & Hr).
  rewrite Hrun in H. simpl in H. destruct r' as [e|res]; subst.
  - right. by exists e.
  - by left.
Qed.

(** The page loop never raises: it appends one result per page, in the
    order of the pages, and makes one generation call for each. *)
Lemma page_loop_spec (tid : str) (total : Z) (pds : list PageData) acc st :
  ∃ res st' d,
    page_loop C tid total pds acc st = (inr (acc ++ res), st')
    ∧ Forall2 (page_ran C tid) pds res
    ∧ active_tasks st' = alter (note_pages (zip pds res)) tid (active_tasks st)
    ∧ calls st' = calls st ++ d
    ∧ only is_generate d = GenerateInitialHtml <$> (page_number <$> pds).
Proof.
  revert acc st. induction pds as [|pd pds IH]; intros acc st.
  - exists [], st, []. simpl. rewrite !(right_id_L [] (++)).
    split_and!; [done|constructor| |done|done].
    symmetry. apply alter_id. done.
  - destruct (process_page_spec tid total acc pd st)
      as (r & st1 & d1 & Hturn & _ & _ & _ & Htasks1 & Hcalls1 & Hgen1).
    destruct (IH (acc ++ [r]) st1)
      as (res & st' & d & Hloop & Hres & Htasks & Hcalls & Hgen).
    exists (r :: res), st', (d1 ++ d). split_and!.
    + simpl. rewrite (bind_inr _ _ _ _ _ Hturn), Hloop.
      by rewrite <- (assoc_L (++)).
    + constructor; [|done]. by eapply process_page_ran.
    + rewrite Htasks, Htasks1. by rewrite alter_alter_eq.
    + rewrite Hcalls, Hcalls1. by rewrite <- (assoc_L (++)).
    + unfold only. rewrite filter_app.
      fold (only is_generate d1). fold (only is_generate d).
      by rewrite Hgen1, Hgen.
Qed.


(** ** What the loop leaves in the task *)

Lemma errors_note_pages prs ti :
  errors (note_pages prs ti) = errors ti ++ page_errors prs.
Proof.
  revert ti. induction prs as [|[pd r] prs IH]; intros ti.
  - simpl. by rewrite (right_id_L [] (++)).
  - unfold note_pages, page_errors in *. simpl. rewrite IH.
    unfold note_page. simpl. destruct (error r) as [e|]; simpl.
    + by rewrite <- (assoc_L (++)).
    + done.
Qed.

Lemma completed_note_pages prs ti :
  completed_pages (note_pages prs ti)
  = completed_pages ti + Z.of_nat (length prs).
Proof.
  revert ti. induction prs as [|[pd r] prs IH]; intros ti.
  - simpl. lia.
  - unfold note_pages in *. simpl foldl. rewrite IH.
    unfold note_page. simpl. destruct (error r); simpl; lia.
Qed.

Lemma total_note_pages prs ti :
  total_pages (note_pages prs ti) = total_pages ti.
Proof.
  revert ti. induction prs as [|[pd r] prs IH]; intros ti; [done|].
  unfold note_pages in *. simpl foldl. rewrite IH.
  unfold note_page. simpl. by destruct (error r).
Qed.

(** ** [convert_pdf_to_html] *)

Lemma resolve_task_id_spec (tid0 : option str) st :
  ∃ tid st1 d,
    resolve_task_id C tid0 st = (inr tid, st1)
    ∧ active_tasks st1 = active_tasks st
    ∧ calls st1 = calls st ++ d
    ∧ d ⊆ [Uuid4]
    ∧ (∀ c t, tid0 = Some (c :: t) → tid = c :: t).
Proof.
  assert (∃ tid st1,
            call Uuid4 (λ w, let '(u, w') := uuid4 C w in (inr u, w')) st
            = (inr tid, st1)
            ∧ active_tasks st1 = active_tasks st
            ∧ calls st1 = calls st ++ [Uuid4]) as (u & st1 & Hu & ? & ?).
  { rewrite call_eq. destruct (uuid4 C (world st)) as [u w]. simpl.
    by eexists _, _. }
  destruct tid0 as [[|c t]|]; simpl.
  - exists u, st1, [Uuid4]. by split_and!.
  - exists (c :: t), st, []. rewrite (right_id_L [] (++)).
    split_and!; [done..|set_solver|]. by intros ?? [= -> ->].
  - exists u, st1, [Uuid4]. by split_and!.
Qed.

Lemma _cleanup_temp_files_spec (pds : list PageData) st :
  ∃ st' d,
    _cleanup_temp_files C pds st = (inr (), st')
    ∧ active_tasks st' = active_tasks st
    ∧ calls st' = calls st ++ CleanupTempFiles (image_path <$> pds) :: d
    ∧ d ⊆ [CleanupAllScreenshots].
Proof.
  unfold _cleanup_temp_files.
  destruct (cleanup_temp_files C pds (world st)) as [[e|[]] w1] eqn:H1.
  - exists (logged st (CleanupTempFiles (image_path <$> pds)) w1), [].
    split_and!; [|done|done|set_solver].
    by rewrite (try_except_inl _ _ _ _ _
                  (bind_inl _ _ _ _ _ (call_inl _ _ _ _ _ H1))).
  - set (st1 := logged st (CleanupTempFiles (image_path <$> pds)) w1).
    destruct (cleanup_all_screenshots C (world st1)) as [[e|[]] w2] eqn:H2.
    + exists (logged st1 CleanupAllScreenshots w2), [CleanupAllScreenshots].
      split_and!; [| | |set_solver].
      * rewrite (try_except_inl _ _ _ _ _
                   (eq_trans (bind_inr _ _ _ _ _ (call_inr _ _ _ _ _ H1))
                             (call_inl _ _ _ _ _ H2))).
        done.
      * done.
      * simpl. by rewrite <- (assoc_L (++)).
    + exists (logged st1 CleanupAllScreenshots w2), [CleanupAllScreenshots].
      split_and!; [| | |set_solver].
      * apply try_except_inr.
        rewrite (bind_inr _ _ _ _ _ (call_inr _ _ _ _ _ H1)).
        exact (call_inr _ _ _ _ _ H2).
      * done.
      * simpl. by rewrite <- (assoc_L (++)).
Qed.

Lemma task_errors_eq (tid : str) st :
  task_errors tid st = (inr (from_option errors [] (active_tasks st !! tid)), st).
Proof. done. Qed.

Lemma only_app (kind : Call → bool) d1 d2 :
  only kind (d1 ++ d2) = only kind d1 ++ only kind d2.
Proof. apply filter_app. Qed.

Lemma only_nil (kind : Call → bool) : only kind [] = [].
Proof. done. Qed.

Lemma only_cons_true (kind : Call → bool) (c : Call) d :
  kind c = true → only kind (c :: d) = c :: only kind d.
Proof. intros H. unfold only. by rewrite filter_cons_True. Qed.

Lemma only_cons_false (kind : Call → bool) (c : Call) d :
  kind c = false → only kind (c :: d) = only kind d.
Proof.
  intros H. unfold only. rewrite filter_cons_False; [done|]. by rewrite H.
Qed.

Ltac only_simpl :=
  rewrite ?only_app, ?only_progress_call by done;
  repeat first [ rewrite only_cons_true by done
               | rewrite only_cons_false by done ];
  rewrite ?only_nil.

Lemma only_subseteq_nil (kind : Call → bool) d (known : list Call) :
  d ⊆ known → only kind known = [] → only kind d = [].
Proof.
  intros Hsub Hnil. unfold only in *.
  apply elem_of_nil_inv. intros c [Hk Hc]%list_elem_of_filter.
  apply Hsub in Hc.
  assert (c ∈ filter (λ c, kind c = true) known) as Hin
    by by apply list_elem_of_filter.
  rewrite Hnil in Hin. by apply not_elem_of_nil in Hin.
Qed.



(** When extraction raises, the handler of the outer [try] runs: the
    task is marked failed, and the log holds no cleanup call. *)
Lemma convert_fails (path : str) (tid0 : option str) st :
  always_raises (process_pdf_file C path) →
  ∃ tid e st' d,
    convert_pdf_to_html C path tid0 st
    = (inr (Error tid e [lit "Fatal error in PDF conversion: " ++ e]), st')
    ∧ active_tasks st' !! tid
      = Some (set_failed (lit "Fatal error in PDF conversion: " ++ e)
                         (new_task tid path))
    ∧ calls st' = calls st ++ d
    ∧ ProcessPdfFile path ∈ d
    ∧ only is_cleanup d = [].
Proof.
  intros Hextract. unfold convert_pdf_to_html.
  destruct (resolve_task_id_spec tid0 st)
    as (tid & st1 & d1 & Hid & Ht1 & Hc1 & Hd1 & _).
  rewrite (bind_inr _ _ _ _ _ Hid).
  set (st2 := {| world := world st1; calls := calls st1;
                 active_tasks := <[tid := new_task tid path]>
                                   (active_tasks st1) |}).
  assert (register_task tid path st1 = (inr (), st2)) as Hreg by done.
  rewrite (bind_inr _ _ _ _ _ Hreg).
  destruct (_update_progress_spec tid (lit "Extracting PDF pages...") st2)
    as (st3 & Hp3 & Ht3 & Hc3).
  destruct (Hextract (world st3)) as (e & w4 & Hex).
  assert (conversion C tid path st2
          = (inl e, logged st3 (ProcessPdfFile path) w4)) as Hrun.
  { unfold conversion. rewrite (bind_inr _ _ _ _ _ Hp3).
    by rewrite (bind_inl _ _ _ _ _ (call_inl _ _ _ _ _ Hex)). }
  rewrite (try_except_inl _ _ _ _ _ Hrun). unfold conversion_failed.
  rewrite (bind_inr _ _ _ _ _ (update_task_eq _ _ _)).
  match goal with
  | |- context [(_update_progress C tid ?m ≫= _) ?s] =>
      destruct (_update_progress_spec tid m s) as (st6 & Hp6 & Ht6 & Hc6)
  end.
  rewrite (bind_inr _ _ _ _ _ Hp6).
  rewrite (bind_inr _ _ _ _ _ (task_errors_eq _ _)).
  assert (active_tasks st6 !! tid
          = Some (set_failed (lit "Fatal error in PDF conversion: " ++ e)
                             (new_task tid path))) as Hti.
  { rewrite Ht6. cbn [active_tasks logged]. rewrite Ht3.
    unfold st2. cbn [active_tasks]. rewrite lookup_alter_eq.
    by rewrite lookup_insert_eq. }
  exists tid, e, st6. eexists. split_and!.
  - by rewrite Hti.
  - done.
  - rewrite Hc6. cbn [calls logged]. rewrite Hc3. unfold st2.
    cbn [calls]. rewrite Hc1. by rewrite <- !(assoc_L (++)).
  - rewrite !elem_of_app, !elem_of_cons. do 2 right. left. by left.
  - rewrite !only_app, !only_progress_call by done.
    by rewrite (only_subseteq_nil is_cleanup d1 [Uuid4]).
Qed.

(** ** Runs in which the collaborators behave in a given way *)




(** ** Scores *)






(** C3. For every page and every configured [max_iterations ≥ 0], the
    [refinement_iterations] of the result [_process_single_page] returns
    is at most [max_iterations]; the fallback result made for a page that
    raised records [0] iterations and so keeps the bound too; hence every
    result the page loop appends keeps it. *)
Theorem iterations_within_budget :
  0 ≤ max_iterations C →
  (∀ tid pd st res st',
     _process_single_page C tid pd st = (inr res, st') →
     0 ≤ refinement_iterations res ≤ max_iterations C)
  ∧ (∀ pd e, refinement_iterations (fallback_page C pd e) = 0)
  ∧ (∀ tid pd (r : PageResult),
       page_ran C tid pd r →
       0 ≤ refinement_iterations r ≤ max_iterations C)
  ∧ (∀ tid total (pds : list PageData) st res st',
       page_loop C tid total pds [] st = (inr res, st') →
       length res = length pds
       ∧ Forall (λ r, 0 ≤ refinement_iterations r ≤ max_iterations C) res).
Proof.
  intros Hmax.
  assert (∀ tid pd (r : PageResult),
            page_ran C tid pd r →
            0 ≤ refinement_iterations r ≤ max_iterations C) as Hran.
  { intros tid pd r [(v & -> & Hv & _)|(e & ->)]%page_ran_outcome.
    - simpl. lia.
    - simpl. lia. }
  split_and!.
  - intros tid pd st res st' Hrun. apply (Hran tid pd). exists st.
    by rewrite Hrun.
  - done.
  - exact Hran.
  - intros tid total pds st res st' Hloop.
    destruct (page_loop_spec tid total pds [] st)
      as (res' & st1 & d & Hloop' & Hres & _).
    rewrite Hloop' in Hloop. injection Hloop as -> _. simpl. split.
    + symmetry. by eapply Forall2_length.
    + eapply Forall2_Forall_r; [exact Hres|].
      apply Forall_forall. intros pd _ r. apply Hran.
Qed.




(** C8. With [max_iterations = 0], [_process_single_page] calls the
    initial generation once for the page and never calls the renderer or
    the refinement; the result it returns has an empty
    [quality_progression] and [0] iterations, and it does return one when
    the generation and the browser start succeed. *)
Theorem no_iterations_generates_once (tid : str) pd st :
  max_iterations C = 0 →
  ∃ r st' d,
    _process_single_page C tid pd st = (r, st')
    ∧ calls st' = calls st ++ d
    ∧ only is_generate d = [GenerateInitialHtml (page_number pd)]
    ∧ only is_render d = []
    ∧ only is_refine d = []
    ∧ (∀ res, r = inr res →
         quality_progression res = Some []
         ∧ refinement_iterations res = 0
         ∧ final_quality_score res = 7)
    ∧ (always_returns (generate_initial_html C (image_path pd) pd) →
       always_returns (start_browser C) →
       ∃ res, r = inr res).
Proof.
  intros Hmax. unfold _process_single_page. rewrite Hmax.
  change (range 0) with (@nil Z).
  destruct (_update_progress_spec tid (generating_message pd) st)
    as (st1 & Hprog & _ & Hcalls1).
  rewrite (bind_inr _ _ _ _ _ Hprog).
  destruct (generate_initial_html C (image_path pd) pd (world st1))
    as [[e|html] w2] eqn:Hg.
  { rewrite (bind_inl _ _ _ _ _ (call_inl _ _ _ _ _ Hg)).
    eexists _, _, _. split_and!; [done| | | | | |].
    - cbn [calls logged]. rewrite Hcalls1. by rewrite <- (assoc_L (++)).
    - by only_simpl.
    - by only_simpl.
    - by only_simpl.
    - intros res [=].
    - intros Hgen _. destruct (Hgen (world st1)) as (? & ? & H).
      rewrite H in Hg. discriminate. }
  rewrite (bind_inr _ _ _ _ _ (call_inr _ _ _ _ _ Hg)).
  match goal with
  | |- context [(call StartBrowser _ ≫= _) ?s] => set (st2 := s)
  end.
  destruct (start_browser C (world st2)) as [[e|[]] w3] eqn:Hs.
  { rewrite (bind_inl _ _ _ _ _ (call_inl _ _ _ _ _ Hs)).
    eexists _, _, _. split_and!; [done| | | | | |].
    - unfold st2. cbn [calls logged]. rewrite Hcalls1.
      by rewrite <- !(assoc_L (++)).
    - by only_simpl.
    - by only_simpl.
    - by only_simpl.
    - intros res [=].
    - intros _ Hstart. destruct (Hstart (world st2)) as (? & ? & H).
      rewrite H in Hs. discriminate. }
  rewrite (bind_inr _ _ _ _ _ (call_inr _ _ _ _ _ Hs)).
  match goal with
  | |- context [(try_finally (for_loop ?b [] ?v) _ ≫= _) ?s] =>
      assert (for_loop b [] v s = (inr v, s)) as Hloop by done
  end.
  rewrite (bind_inr _ _ _ _ _ (try_finally_quiet _ _ _ _ _ _ Hloop)).
  eexists _, _, _. split_and!; [done| | | | | |].
  - unfold st2. cbn [calls logged]. rewrite Hcalls1.
    by rewrite <- !(assoc_L (++)).
  - by only_simpl.
  - by only_simpl.
  - by only_simpl.
  - by intros res [= <-].
  - intros _ _. by eexists.
Qed.

(** ** A refinement call that raises *)



(** ** A page that raises *)



End Facts.

(** ** The exit paths of [convert_pdf_to_html] *)


(** ** The theorems on concrete runs *)



Lemma iterations_within_budget_witness :
  let C := Demo.collaborators Demo.page2_generation_fails in
  0 ≤ max_iterations C
  ∧ ∃ res st',
      page_loop C (lit "t") 3 [Demo.page 1; Demo.page 2; Demo.page 3] []
                Demo.st0 = (inr res, st')
      ∧ length res = 3%nat
      ∧ Forall (λ r, 0 ≤ refinement_iterations r ≤ 2) res.
Proof.
  intros C.
  assert (0 ≤ max_iterations C) as Hmax by (simpl; lia).
  split; [exact Hmax|].
  destruct (iterations_within_budget C Hmax) as (_ & _ & _ & Hloop).
  destruct (page_loop C (lit "t") 3 [Demo.page 1; Demo.page 2; Demo.page 3]
              [] Demo.st0) as [[e|res] st'] eqn:Hrun.
  - vm_compute in Hrun. discriminate.
  - exists res, st'. split; [reflexivity|].
    exact (Hloop _ _ _ _ _ _ Hrun).
Defined.


Lemma no_iterations_generates_once_witness :
  let C := Demo.collaborators Demo.no_iterations in
  max_iterations C = 0
  ∧ ∃ r st' d,
      _process_single_page C (lit "t") (Demo.page 1) Demo.st0 = (r, st')
      ∧ calls st' = calls Demo.st0 ++ d
      ∧ only is_generate d = [GenerateInitialHtml 1]
      ∧ only is_render d = []
      ∧ only is_refine d = [].
Proof.
  intros C. split; [reflexivity|].
  destruct (no_iterations_generates_once C (lit "t") (Demo.page 1) Demo.st0
              eq_refl)
    as (r & st' & d & Hrun & Hcalls & Hgen & Hrender & Hrefine & _).
  exists r, st', d. repeat (split; [assumption|]). assumption.
Defined.

End EngineFacts.

(* ===================================================================== *)
(** * More on the assembler                                               *)
(* ===================================================================== *)

Module CombineMore.
Import Engine Words PyFacts CombineFacts.

(** ** What [page_content] can return *)

Lemma occurs_trans (a b c : str) : occurs a b → occurs b c → occurs a c.
Proof.
  intros (p1 & q1 & ->) (p2 & q2 & ->).
  exists (p2 ++ p1), (q1 ++ q2). by rewrite <- !(assoc_L (++)).
Qed.

Lemma occurs_length (a b : str) : occurs a b → (length a ≤ length b)%nat.
Proof. intros (p & q & ->). rewrite !length_app. lia. Qed.

Lemma occurs_refl (a : str) : occurs a a.
Proof. exists [], []. by rewrite (right_id_L [] (++)). Qed.

Lemma occurs_take_drop (s : str) (n k : nat) : occurs (take n (drop k s)) s.
Proof.
  exists (take k s), (drop n (drop k s)).
  by rewrite (take_drop n (drop k s)), take_drop.
Qed.

Lemma occurs_slice (s : str) (a b : Z) : occurs (slice s a b) s.
Proof. apply occurs_take_drop. Qed.

Lemma occurs_slice_from (s : str) (a : Z) : occurs (slice_from s a) s.
Proof.
  unfold slice_from. exists (take (Z.to_nat (clamp a (len s))) s), [].
  by rewrite (right_id_L [] (++)), take_drop.
Qed.

Lemma occurs_strip (s : str) : occurs (strip s) s.
Proof. destruct (strip_split s) as (a & b & H & _). by exists a, b. Qed.

(** X1. Whatever the fragment, the content [_combine_pages_to_html] takes
    from it is a contiguous piece of the fragment itself: nothing is added
    or rearranged, and the content is never longer than the fragment. *)
Theorem page_content_is_a_piece (h : str) :
  occurs (page_content h) h
  ∧ (length (page_content h) ≤ length h)%nat.
Proof.
  assert (occurs (page_content h) h) as H.
  { unfold page_content.
    destruct (negb (find (lit "<body") h 0 =? -1)); [|apply occurs_refl].
    destruct (negb (rfind (lit "</body>") h =? -1)).
    - eapply occurs_trans; [apply occurs_strip | apply occurs_slice].
    - eapply occurs_trans; [apply occurs_strip | apply occurs_slice_from]. }
  split; [exact H | by apply occurs_length].
Qed.

(** ** Any list of pages, equal page numbers included *)

Section AnyPages.
Context {Dim : Type}.
Implicit Types (page : PageResult (Dim := Dim)).
Implicit Types (pages : list (PageResult (Dim := Dim))).

Lemma filter_insert_by {A} (key : A → Z) (n : Z) (x : A) (l : list A) :
  filter (λ a, key a = n) (insert_by key x l)
  = filter (λ a, key a = n) (x :: l).
Proof.
  induction l as [|y l IH]; simpl; [done|].
  destruct (Z.leb_spec (key x) (key y)); [done|].
  rewrite filter_cons, IH, !filter_cons.
  destruct (decide (key y = n)), (decide (key x = n)); try done. lia.
Qed.

(** [sorted] keeps the input order among equal keys. *)
Lemma sorted_stable {A} (key : A → Z) (n : Z) (l : list A) :
  filter (λ a, key a = n) (sorted key l) = filter (λ a, key a = n) l.
Proof.
  induction l as [|x l IH]; [done|].
  change (sorted key (x :: l)) with (insert_by key x (sorted key l)).
  rewrite filter_insert_by, !filter_cons, IH. done.
Qed.

Lemma length_concat_blocks (total : Z) pages :
  length (concat (page_block total <$> pages)) = (6 * length pages)%nat.
Proof.
  induction pages as [|page pages IH]; [done|].
  rewrite fmap_cons, concat_cons, length_app, IH. simpl. lia.
Qed.

(** X2. For every list of page results, page numbers repeated or not,
    [_combine_pages_to_html] emits 16 lines of envelope and 6 lines per
    page; the lines that open a page container are one per page, in
    ascending page number, and pages with the same number keep the order
    they had in the input (the sort is stable). *)
Theorem combined_parts_any_pages pages (info : PdfInfo) :
  let ordered := sorted r_page_number pages in
  length (combined_parts pages info) = (16 + 6 * length pages)%nat
  ∧ filter (λ line, is_container line = true) (combined_parts pages info)
    = (λ page, container_line (r_page_number page)) <$> ordered
  ∧ ordered ≡ₚ pages
  ∧ StronglySorted (key_le r_page_number) ordered
  ∧ ∀ n, filter (λ page, r_page_number page = n) ordered
         = filter (λ page, r_page_number page = n) pages.
Proof.
  intros ordered.
  assert (combined_parts pages info
          = head_parts info
            ++ concat (page_block (len_list ordered) <$> ordered)
            ++ [lit "</body>"; lit "</html>"]) as Hparts.
  { unfold combined_parts. rewrite foldl_add_page.
    by rewrite <- (assoc_L (++)). }
  split_and!.
  - rewrite Hparts, !length_app, length_concat_blocks.
    unfold ordered. rewrite (sorted_perm r_page_number pages).
    change (length (head_parts info)) with 14%nat. simpl length. lia.
  - rewrite Hparts, !filter_app.
    rewrite filter_container_head, filter_container_blocks.
    rewrite filter_container_tail. by rewrite (right_id_L [] (++)).
  - apply sorted_perm.
  - apply sorted_ascending.
  - intros n. apply sorted_stable.
Qed.

(** ** The envelope *)

Lemma join_cons2 (sep a b : str) (rest : list str) :
  join sep (a :: b :: rest) = a ++ sep ++ join sep (b :: rest).
Proof. done. Qed.

Lemma join_app (sep : str) (l1 l2 : list str) :
  l1 ≠ [] → l2 ≠ [] →
  join sep (l1 ++ l2) = join sep l1 ++ sep ++ join sep l2.
Proof.
  intros H1 H2. induction l1 as [|a l1 IH]; [done|].
  destruct l1 as [|b l1].
  - destruct l2 as [|c l2]; [done|]. done.
  - change ((a :: b :: l1) ++ l2) with (a :: b :: (l1 ++ l2)).
    rewrite !join_cons2.
    change (b :: l1 ++ l2) with ((b :: l1) ++ l2).
    rewrite IH by done. by rewrite <- !(assoc_L (++)).
Qed.

(** X3. The combined document has the same envelope whatever the pages
    hold: it opens with the doctype line and the [<html lang="en">] line,
    and it closes with [</body>] and [</html>] on lines of their own, so
    a malformed fragment cannot displace the head or the tail. *)
Theorem combined_document_envelope pages (info : PdfInfo) :
  ∃ middle,
    _combine_pages_to_html pages info
    = lit "<!DOCTYPE html>" ++ nl
      ++ lit "<html lang=" ++ q "en" ++ lit ">" ++ nl
      ++ lit "<head>" ++ nl
      ++ middle
      ++ nl ++ lit "</body>" ++ nl ++ lit "</html>".
Proof.
  unfold _combine_pages_to_html, combined_parts.
  rewrite foldl_add_page.
  set (blocks := concat _).
  assert (∃ rest, head_parts info ++ blocks
                  = lit "<!DOCTYPE html>"
                    :: (lit "<html lang=" ++ q "en" ++ lit ">")
                    :: lit "<head>" :: rest ∧ rest ≠ [])
    as (rest & Hhead & Hrest).
  { unfold head_parts. eexists. split; [reflexivity|]. done. }
  rewrite join_app; [|by rewrite Hhead|done].
  rewrite Hhead.
  destruct rest as [|r rest]; [done|].
  rewrite !join_cons2.
  exists (join nl (r :: rest)).
  change (join nl [lit "</body>"; lit "</html>"])
    with (lit "</body>" ++ nl ++ lit "</html>").
  by rewrite <- !(assoc_L (++)).
Qed.

End AnyPages.

End CombineMore.

(* ===================================================================== *)
(** * More on the WebSocket manager                                        *)
(* ===================================================================== *)

Module WSMore.
Import WS WSOps WSFacts.

Lemma consistent_empty : consistent empty_manager.
Proof.
  split; simpl.
  - by intros tid ?%elem_of_empty.
  - intros tid. rewrite lookup_empty. split.
    + by intros ?%elem_of_empty.
    + by intros ?%is_Some_None.
  - intros tid. unfold history. simpl. rewrite lookup_empty. simpl. lia.
Qed.

Lemma consistent_alter (f : TaskStatus → TaskStatus) (tid : str)
    (m : Manager) :
  (∀ t, (length (messages t) ≤ 51)%nat →
        (length (messages (f t)) ≤ 51)%nat) →
  consistent m →
  consistent {| active_connections := active_connections m;
                task_statuses := alter f tid (task_statuses m);
                connection_metadata := connection_metadata m |}.
Proof.
  intros Hf [Hs Hm Hh]. split; simpl.
  - intros tid' H. rewrite lookup_alter_is_Some. by apply Hs.
  - done.
  - intros tid'. specialize (Hh tid'). unfold history in *. simpl.
    rewrite lookup_alter. case_decide as E; [subst tid'|done].
    destruct (task_statuses m !! tid) as [t|]; simpl in *; [|lia].
    by apply Hf.
Qed.

Lemma consistent_disconnect (tid : str) (m : Manager) :
  consistent m → consistent (disconnect tid m).
Proof.
  intros [Hs Hm Hh]. split; simpl.
  - intros tid' [H _]%elem_of_difference. by apply Hs.
  - intros tid'. rewrite elem_of_difference, lookup_delete_is_Some.
    rewrite elem_of_singleton, (Hm tid').
    split; intros [H1 H2]; split; try done; by intros ->.
  - done.
Qed.

Lemma consistent_send_message (tid : str) (msg : Message) (o : SendOutcome)
    (m : Manager) :
  consistent m → consistent (snd (_send_message tid msg o m)).
Proof.
  intros Hm. unfold _send_message.
  destruct (decide (tid ∈ active_connections m)); [|done].
  assert (consistent
            {| active_connections := active_connections m;
               task_statuses :=
                 alter (record_message msg) tid (task_statuses m);
               connection_metadata := connection_metadata m |}) as H1.
  { apply consistent_alter; [|done]. intros t Ht.
    rewrite length_record_message. unfold len_list.
    destruct (Z.ltb_spec 50 (Z.of_nat (length (messages t)))); lia. }
  destruct o; cbn [snd].
  - destruct H1 as [Hs Hmeta Hh]. split; simpl in *.
    + done.
    + intros tid'. rewrite lookup_alter_is_Some. apply Hmeta.
    + done.
  - by apply consistent_disconnect.
  - done.
Qed.

Lemma consistent_connect (tid : str) (o : SendOutcome) (m : Manager) :
  consistent m → consistent (snd (connect tid o m)).
Proof.
  intros [Hs Hm Hh]. unfold connect. cbn [snd].
  apply consistent_send_message. split; simpl.
  - intros tid' [->%elem_of_singleton|H]%elem_of_union.
    + destruct (task_statuses m !! tid) eqn:E; [by rewrite E|].
      by rewrite lookup_insert_eq.
    + destruct (task_statuses m !! tid) eqn:E; [by apply Hs|].
      rewrite lookup_insert_is_Some'. right. by apply Hs.
  - intros tid'. rewrite elem_of_union, elem_of_singleton.
    rewrite lookup_insert_is_Some', (Hm tid').
    split; (intros [H|H]; [by left|by right]).
  - intros tid'. specialize (Hh tid'). unfold history in *. simpl.
    destruct (task_statuses m !! tid) eqn:E; [done|].
    rewrite lookup_insert. case_decide; [simpl; lia|done].
Qed.

Lemma consistent_cleanup_task (tid : str) (m : Manager) :
  consistent m → consistent (cleanup_task tid m).
Proof.
  intros H0. destruct (consistent_disconnect tid m H0) as [Hs Hm Hh].
  split; simpl in *.
  - intros tid' H. rewrite lookup_delete_is_Some. split.
    + intros ->. apply elem_of_difference in H as [_ H].
      by apply H, elem_of_singleton.
    + by apply Hs.
  - done.
  - intros tid'. specialize (Hh tid'). unfold history in *. simpl in *.
    rewrite lookup_delete. case_decide; [simpl; lia|done].
Qed.

Lemma bounded_status_update (t t' : TaskStatus) :
  messages t' = messages t →
  (length (messages t) ≤ 51)%nat → (length (messages t') ≤ 51)%nat.
Proof. by intros ->. Qed.

Section Runs.
Context {Float : Type}.
Context (float_quot : Z → Z → option Float).
Context (float_mul : Float → Z → Float).
Context (int_of_float : Float → option Z).

Local Abbreviation run_op := (run_op float_quot float_mul int_of_float).
Local Abbreviation run := (run float_quot float_mul int_of_float).

Lemma consistent_run_op (op : Op) (m : Manager) :
  consistent m → consistent (run_op op m).
Proof.
  intros Hm. destruct op; cbn [WSOps.run_op].
  - by apply consistent_connect.
  - by apply consistent_disconnect.
  - by apply consistent_send_message.
  - unfold send_page_completion.
    destruct (page_completion_percentage _ _ _ _ _) as [e|pct]; [done|].
    destruct (_send_message _ _ _ _) as [b m2] eqn:E. cbn [snd].
    change m2 with (snd (b, m2)). rewrite <- E.
    apply consistent_send_message, consistent_alter; [|done].
    intros t. by apply bounded_status_update.
  - apply consistent_send_message, consistent_alter; [|done].
    intros t. by apply bounded_status_update.
  - apply consistent_send_message, consistent_alter; [|done].
    intros t. by apply bounded_status_update.
  - unfold progress_callback.
    destruct (callback_percentage _ _ _ _ _) as [e|pct]; [done|].
    by apply consistent_send_message.
  - by apply consistent_cleanup_task.
Qed.

Lemma consistent_run (ops : list Op) (m : Manager) :
  consistent m → consistent (run ops m).
Proof.
  revert m. induction ops as [|op ops IH]; intros m Hm; [done|].
  apply IH. by apply consistent_run_op.
Qed.

(** X4. Whatever sequence of calls is made on a new [WebSocketManager]
    (connections, disconnections, publications of every kind with any
    outcome of the send, callbacks, clean-ups), the manager it leaves has
    a status entry for every connected task, connection metadata for
    exactly the connected tasks, and no history longer than 51
    messages. *)
Theorem manager_stays_consistent (ops : list Op) :
  let m := run ops empty_manager in
  (∀ tid, is_connected tid m = true → is_Some (get_task_status tid m))
  ∧ (∀ tid, is_connected tid m = true ↔ is_Some (get_connection_info tid m))
  ∧ (∀ tid, (length (history tid m) ≤ 51)%nat).
Proof.
  intros m.
  destruct (consistent_run ops empty_manager consistent_empty)
    as [Hs Hm Hh].
  unfold is_connected, get_task_status, get_connection_info.
  split_and!.
  - intros tid H%bool_decide_eq_true. by apply Hs.
  - intros tid. rewrite bool_decide_eq_true. apply Hm.
  - apply Hh.
Qed.

End Runs.

(** ** Publishing without a connection *)

Lemma send_message_unconnected (tid : str) (msg : Message) (o : SendOutcome)
    (m : Manager) :
  tid ∉ active_connections m → _send_message tid msg o m = (false, m).
Proof. intros H. unfold _send_message. by rewrite decide_False. Qed.

(** X5. For a task with no connection [_send_message] returns [False]
    and changes nothing, whatever the send would have done; [send_error]
    and [send_task_completion] return [False] too and record no message,
    yet they have already written the status entry of the task: its
    status is ['error'] with the error message, or the completion status
    with a percentage of 100 for ['success'] and 0 otherwise. *)
Theorem unconnected_publish_updates_status_only (tid : str) (m : Manager) :
  is_connected tid m = false →
  (∀ msg o, _send_message tid msg o m = (false, m))
  ∧ (∀ text code o,
       let r := send_error tid text code o m in
       fst r = false
       ∧ history tid (snd r) = history tid m
       ∧ status <$> get_task_status tid (snd r)
         = (λ _, lit "error") <$> get_task_status tid m
       ∧ error_message <$> get_task_status tid (snd r)
         = (λ _, Some text) <$> get_task_status tid m)
  ∧ (∀ st html total errs o,
       let r := send_task_completion tid st html total errs o m in
       fst r = false
       ∧ history tid (snd r) = history tid m
       ∧ status <$> get_task_status tid (snd r)
         = (λ _, st) <$> get_task_status tid m
       ∧ progress_percentage <$> get_task_status tid (snd r)
         = (λ _, if decide (st = lit "success") then 100 else 0)
           <$> get_task_status tid m).
Proof.
  intros H%bool_decide_eq_false. split_and!.
  - intros msg o. by apply send_message_unconnected.
  - intros text code o r. unfold r, send_error.
    rewrite send_message_unconnected by done.
    unfold history, get_task_status. cbn [fst snd task_statuses].
    rewrite lookup_alter_eq. by destruct (task_statuses m !! tid).
  - intros st html total errs o r. unfold r, send_task_completion.
    rewrite send_message_unconnected by done.
    unfold history, get_task_status. cbn [fst snd task_statuses].
    rewrite lookup_alter_eq. by destruct (task_statuses m !! tid).
Qed.

Lemma unconnected_publish_updates_status_only_witness :
  let m := snd (connect (lit "t") Disconnected empty_manager) in
  let r := send_error (lit "t") (lit "boom") None Sent m in
  is_connected (lit "t") m = false
  ∧ fst r = false
  ∧ history (lit "t") (snd r) = [connection (lit "t")]
  ∧ status <$> get_task_status (lit "t") (snd r) = Some (lit "error").
Proof.
  intros m r.
  destruct (unconnected_publish_updates_status_only (lit "t") m)
    as (_ & Herr & _); [reflexivity|].
  destruct (Herr (lit "boom") None Sent) as (Hf & Hh & Hs & _).
  split; [reflexivity|]. split; [exact Hf|]. split.
  - unfold r. rewrite Hh. reflexivity.
  - unfold r. rewrite Hs. reflexivity.
Defined.

(** ** The outcomes of a send *)

(** X6. For a connected task with a status entry, [_send_message]
    appends the message to the history before it sends, so the message
    is recorded whatever the send does.  It returns [True] exactly when
    the send succeeds, and only then counts the message in
    [messages_sent]; a [WebSocketDisconnect] removes the connection and
    its metadata but keeps the status entry, every other failure leaves
    the task connected. *)
Theorem send_outcomes (tid : str) (msg : Message) (o : SendOutcome)
    (m : Manager) (t : TaskStatus) :
  is_connected tid m = true →
  get_task_status tid m = Some t →
  let r := _send_message tid msg o m in
  get_task_status tid (snd r) = Some (record_message msg t)
  ∧ last (history tid (snd r)) = Some msg
  ∧ (fst r = true ↔ o = Sent)
  ∧ is_connected tid (snd r)
    = match o with Disconnected => false | _ => true end
  ∧ get_connection_info tid (snd r)
    = match o with
      | Sent => (λ n, n + 1) <$> get_connection_info tid m
      | Disconnected => None
      | SendFailed => get_connection_info tid m
      end.
Proof.
  intros Hc%bool_decide_eq_true Ht r. unfold get_task_status in Ht.
  assert (get_task_status tid (snd r) = Some (record_message msg t)) as Hr.
  { unfold r, _send_message, get_task_status. rewrite decide_True by done.
    destruct o; cbn [snd disconnect task_statuses];
      by rewrite lookup_alter_eq, Ht. }
  split; [done|]. split.
  { unfold history. unfold get_task_status in Hr. rewrite Hr.
    unfold record_message. simpl. by rewrite last_snoc. }
  unfold r, _send_message, is_connected, get_connection_info.
  rewrite decide_True by done.
  destruct o; cbn [fst snd disconnect active_connections connection_metadata].
  - split; [done|]. split; [by apply bool_decide_eq_true|].
    by rewrite lookup_alter_eq.
  - split; [done|]. split.
    + apply bool_decide_eq_false. rewrite elem_of_difference.
      intros [_ H]. by apply H, elem_of_singleton.
    + by rewrite lookup_delete_eq.
  - split; [done|]. split; [by apply bool_decide_eq_true|done].
Qed.

Lemma send_outcomes_witness :
  let m := Demo.manager_with 3 in
  let msg := error (lit "t") (lit "late") None in
  let r := _send_message (lit "t") msg SendFailed m in
  last (history (lit "t") (snd r)) = Some msg
  ∧ is_connected (lit "t") (snd r) = true
  ∧ get_connection_info (lit "t") (snd r) = Some 0.
Proof.
  intros m msg r.
  destruct (send_outcomes (lit "t") msg SendFailed m
              {| status := lit "connected"; progress_percentage := 0;
                 current_page := 0; total_pages := 0;
                 messages := replicate 3 (connection (lit "t"));
                 error_message := None |})
    as (_ & Hl & _ & Hc & Hi); [reflexivity|reflexivity|].
  split; [exact Hl|]. split; [exact Hc|]. unfold r. rewrite Hi.
  reflexivity.
Defined.

(** ** Connecting *)


(** ** Cleaning up *)

Lemma manager_eq (m1 m2 : Manager) :
  active_connections m1 = active_connections m2 →
  task_statuses m1 = task_statuses m2 →
  connection_metadata m1 = connection_metadata m2 →
  m1 = m2.
Proof. destruct m1, m2. simpl. by intros -> -> ->. Qed.

(** X8. [cleanup_task] forgets a task altogether: afterwards the task
    has no status, no connection and no metadata; cleaning up again
    changes nothing; and every other task keeps its status, its
    connection and its metadata. *)
Theorem cleanup_task_forgets_one_task (tid : str) (m : Manager) :
  let m' := cleanup_task tid m in
  get_task_status tid m' = None
  ∧ is_connected tid m' = false
  ∧ get_connection_info tid m' = None
  ∧ history tid m' = []
  ∧ cleanup_task tid m' = m'
  ∧ ∀ other, other ≠ tid →
      get_task_status other m' = get_task_status other m
      ∧ is_connected other m' = is_connected other m
      ∧ get_connection_info other m' = get_connection_info other m.
Proof.
  intros m'. unfold get_task_status, is_connected, get_connection_info.
  unfold history, m', cleanup_task, disconnect. simpl. split_and!.
  - by rewrite lookup_delete_eq.
  - apply bool_decide_eq_false. rewrite elem_of_difference.
    intros [_ H]. by apply H, elem_of_singleton.
  - by rewrite lookup_delete_eq.
  - by rewrite lookup_delete_eq.
  - apply manager_eq; simpl.
    + apply set_eq. intros x. rewrite !elem_of_difference. tauto.
    + by rewrite delete_delete_eq.
    + by rewrite delete_delete_eq.
  - intros other Hne. split_and!.
    + by rewrite lookup_delete_ne.
    + apply bool_decide_ext. rewrite elem_of_difference, elem_of_singleton.
      tauto.
    + by rewrite lookup_delete_ne.
Qed.

End WSMore.

(* ===================================================================== *)
(** * More on the engine                                                   *)
(* ===================================================================== *)

Module EngineMore.
Import Engine Words EngineOps PyFacts EngineFacts.

Section MoreFacts.
Context {World Dim : Type}.
Context (C : Collaborators (World := World) (Dim := Dim)).

Implicit Types (st : St (World := World) (Dim := Dim)).
Implicit Types (pd : PageData (Dim := Dim)).
Implicit Types (v : LoopVars).
Implicit Types (d : list Call).

Ltac only_simpl :=
  rewrite ?only_app, ?only_progress_call by done;
  repeat first [ rewrite only_cons_true by done
               | rewrite only_cons_false by done ];
  rewrite ?only_nil.

(** ** Every run of [convert_pdf_to_html] *)

(** The body of the outer [try] raises at the extraction call or not at
    all. *)
Lemma conversion_cases (tid path : str) st :
  ∃ st' d,
    calls st' = calls st ++ d
    ∧ ((∃ e,
          conversion C tid path st = (inl e, st')
          ∧ active_tasks st' = active_tasks st
          ∧ only is_cleanup d = []
          ∧ only is_generate d = []
          ∧ ∃ w w', process_pdf_file C path w = (inl e, w'))
       ∨ (∃ (pds : list PageData) (info : PdfInfo) res,
            conversion C tid path st
            = (inr (Success tid (len_list pds) (len_list res) res
                            (_combine_pages_to_html res info) info
                            (from_option errors []
                               (active_tasks st' !! tid))), st')
            ∧ Forall2 (page_ran C tid) pds res
            ∧ active_tasks st'
              = alter (set_completed res (_combine_pages_to_html res info)
                       ∘ note_pages (zip pds res)
                       ∘ set_extracted (len_list pds) info) tid
                      (active_tasks st)
            ∧ only is_generate d
              = GenerateInitialHtml <$> (page_number <$> pds)
            ∧ only is_cleanup d ≠ []
            ∧ ∃ w w', process_pdf_file C path w = (inr (pds, info), w'))).
Proof.
  unfold conversion.
  destruct (_update_progress_spec C tid (lit "Extracting PDF pages...") st)
    as (st1 & Hp1 & Ht1 & Hc1).
  rewrite (bind_inr _ _ _ _ _ Hp1).
  destruct (process_pdf_file C path (world st1)) as [[e|[pds info]] w2]
    eqn:Hex.
  { rewrite (bind_inl _ _ _ _ _ (call_inl _ _ _ _ _ Hex)).
    eexists _, _. split; [|left; exists e; split_and!; [done| | | |]].
    - cbn [calls logged]. rewrite Hc1. by rewrite <- (assoc_L (++)).
    - by rewrite <- Ht1.
    - by only_simpl.
    - by only_simpl.
    - by exists (world st1), w2. }
  rewrite (bind_inr _ _ _ _ _ (call_inr _ _ _ _ _ Hex)).
  cbv beta iota.
  rewrite (bind_inr _ _ _ _ _ (update_task_eq _ _ _)).
  match goal with
  | |- context [(_update_progress C tid ?m ≫= _) ?s] =>
      destruct (_update_progress_spec C tid m s) as (st4 & Hp4 & Ht4 & Hc4)
  end.
  rewrite (bind_inr _ _ _ _ _ Hp4).
  destruct (page_loop_spec C tid (len_list pds) pds [] st4)
    as (res & st5 & d5 & Hloop & Hres & Ht5 & Hc5 & Hgen5).
  rewrite (bind_inr _ _ _ _ _ Hloop). simpl app. cbv zeta.
  rewrite (bind_inr _ _ _ _ _ (update_task_eq _ _ _)).
  match goal with
  | |- context [(_update_progress C tid ?m ≫= _) ?s] =>
      destruct (_update_progress_spec C tid m s) as (st7 & Hp7 & Ht7 & Hc7)
  end.
  rewrite (bind_inr _ _ _ _ _ Hp7).
  destruct (_cleanup_temp_files_spec C pds st7)
    as (st8 & d8 & Hclean & Ht8 & Hc8 & Hd8).
  rewrite (bind_inr _ _ _ _ _ Hclean).
  rewrite (bind_inr _ _ _ _ _ (task_errors_eq _ _)).
  exists st8. eexists. split.
  { rewrite Hc8, Hc7. cbn [calls]. rewrite Hc5, Hc4.
    cbn [calls logged]. rewrite Hc1.
    rewrite <- !(assoc_L (++)). done. }
  right. exists pds, info, res. split_and!.
  - done.
  - done.
  - rewrite Ht8, Ht7. cbn [active_tasks]. rewrite Ht5, Ht4.
    cbn [active_tasks logged]. rewrite Ht1.
    by rewrite !alter_alter_eq.
  - rewrite !only_app. rewrite !only_progress_call by done.
    rewrite Hgen5.
    unfold only. rewrite !filter_cons_False by done.
    fold (only is_generate d8).
    rewrite (only_subseteq_nil is_generate d8 [CleanupAllScreenshots]);
      [|done|done].
    by rewrite filter_nil, !(right_id_L [] (++)).
  - rewrite !only_app. rewrite !only_progress_call by done.
    rewrite (only_cons_false is_cleanup (ProcessPdfFile path)) by done.
    rewrite only_nil. rewrite (only_cons_true is_cleanup) by done.
    intros H. apply (f_equal length) in H. rewrite !length_app in H.
    simpl in H. lia.
  - by exists (world st1), w2.
Qed.

Lemma alter_insert_eq {A} (f : A → A) (k : str) (x : A) (m : gmap str A) :
  alter f k (<[k := x]> m) = <[k := f x]> m.
Proof.
  apply map_eq. intros j. rewrite lookup_alter, !lookup_insert.
  rewrite (decide_True (P := k = k)) by done. by case_decide.
Qed.

(** Every run of [convert_pdf_to_html]: it returns, and it writes one
    entry of the task table. *)
Lemma convert_cases (path : str) (tid0 : option str) st :
  ∃ tid result st' d ti,
    convert_pdf_to_html C path tid0 st = (inr result, st')
    ∧ (∀ c t, tid0 = Some (c :: t) → tid = c :: t)
    ∧ active_tasks st' = <[tid := ti]> (active_tasks st)
    ∧ calls st' = calls st ++ d
    ∧ ((∃ e,
          result = Error tid e [fatal e]
          ∧ ti = set_failed (fatal e) (new_task tid path)
          ∧ only is_cleanup d = []
          ∧ only is_generate d = []
          ∧ ∃ w w', process_pdf_file C path w = (inl e, w'))
       ∨ (∃ (pds : list PageData) (info : PdfInfo) res,
            result = Success tid (len_list pds) (len_list res) res
                             (_combine_pages_to_html res info) info
                             (page_errors (zip pds res))
            ∧ Forall2 (page_ran C tid) pds res
            ∧ ti = set_completed res (_combine_pages_to_html res info)
                     (note_pages (zip pds res)
                        (set_extracted (len_list pds) info
                           (new_task tid path)))
            ∧ only is_generate d
              = GenerateInitialHtml <$> (page_number <$> pds)
            ∧ only is_cleanup d ≠ []
            ∧ ∃ w w', process_pdf_file C path w = (inr (pds, info), w'))).
Proof.
  unfold convert_pdf_to_html.
  destruct (resolve_task_id_spec C tid0 st)
    as (tid & st1 & d1 & Hid & Ht1 & Hc1 & Hd1 & Hgiven).
  rewrite (bind_inr _ _ _ _ _ Hid).
  set (st2 := {| world := world st1; calls := calls st1;
                 active_tasks := <[tid := new_task tid path]>
                                   (active_tasks st1) |}).
  assert (register_task tid path st1 = (inr (), st2)) as Hreg by done.
  rewrite (bind_inr _ _ _ _ _ Hreg).
  destruct (conversion_cases tid path st2)
    as (st3 & d3 & Hc3 & [Hcase|Hcase]).
  - destruct Hcase as (e & Hrun & Ht3 & Hclean & Hgen & Hextract).
    rewrite (try_except_inl _ _ _ _ _ Hrun). unfold conversion_failed.
    rewrite (bind_inr _ _ _ _ _ (update_task_eq _ _ _)).
    match goal with
    | |- context [(_update_progress C tid ?m ≫= _) ?s] =>
        destruct (_update_progress_spec C tid m s) as (st6 & Hp6 & Ht6 & Hc6)
    end.
    rewrite (bind_inr _ _ _ _ _ Hp6).
    rewrite (bind_inr _ _ _ _ _ (task_errors_eq _ _)).
    assert (active_tasks st6
            = <[tid := set_failed (fatal e) (new_task tid path)]>
                (active_tasks st)) as Hti.
    { rewrite Ht6. cbn [active_tasks]. rewrite Ht3. unfold st2.
      cbn [active_tasks]. rewrite Ht1. apply alter_insert_eq. }
    eexists tid, _, st6, _, _. split_and!.
    + rewrite Hti, lookup_insert_eq. done.
    + exact Hgiven.
    + exact Hti.
    + rewrite Hc6. cbn [calls]. rewrite Hc3. unfold st2. cbn [calls].
      rewrite Hc1. by rewrite <- !(assoc_L (++)).
    + left. exists e. split_and!; [done|done| | |done].
      * only_simpl. rewrite Hclean.
        by rewrite (only_subseteq_nil is_cleanup d1 [Uuid4]).
      * only_simpl. rewrite Hgen.
        by rewrite (only_subseteq_nil is_generate d1 [Uuid4]).
  - destruct Hcase
      as (pds & info & res & Hrun & Hres & Ht3 & Hgen & Hclean & Hextract).
    rewrite (try_except_inr _ _ _ _ _ Hrun).
    assert (active_tasks st3
            = <[tid := set_completed res (_combine_pages_to_html res info)
                         (note_pages (zip pds res)
                            (set_extracted (len_list pds) info
                               (new_task tid path)))]>
                (active_tasks st)) as Hti.
    { rewrite Ht3. unfold st2. cbn [active_tasks]. rewrite Ht1.
      by rewrite alter_insert_eq. }
    eexists tid, _, st3, _, _. split_and!.
    + done.
    + exact Hgiven.
    + exact Hti.
    + rewrite Hc3. unfold st2. cbn [calls]. rewrite Hc1.
      by rewrite <- (assoc_L (++)).
    + right. exists pds, info, res. split_and!; [|done|done| | |done].
      * rewrite Hti, lookup_insert_eq. cbn [from_option]. do 2 f_equal.
        change (errors (set_completed ?a ?b ?t)) with (errors t).
        by rewrite errors_note_pages.
      * rewrite only_app, Hgen.
        by rewrite (only_subseteq_nil is_generate d1 [Uuid4]).
      * rewrite only_app.
        rewrite (only_subseteq_nil is_cleanup d1 [Uuid4]) by done.
        done.
Qed.

Lemma identity_note_pages
    (prs : list (PageData (Dim := Dim) * PageResult (Dim := Dim)))
    (ti : TaskInfo (Dim := Dim)) :
  task_id (note_pages prs ti) = task_id ti
  ∧ task_pdf_path (note_pages prs ti) = task_pdf_path ti
  ∧ task_pdf_info (note_pages prs ti) = task_pdf_info ti.
Proof.
  revert ti. induction prs as [|[pd r] prs IH]; intros ti; [done|].
  unfold note_pages in *. simpl foldl.
  destruct (IH (note_page pd r ti)) as (-> & -> & ->).
  unfold note_page. simpl. by destruct (error r).
Qed.

Lemma length_page_errors (pds : list PageData)
    (res : list (PageResult (Dim := Dim))) :
  length pds = length res →
  length (page_errors (zip pds res)) = length (fallbacks res).
Proof.
  revert res. induction pds as [|pd pds IH]; intros [|r res] Hlen;
    try done.
  injection Hlen as Hlen. specialize (IH res Hlen).
  unfold page_errors, fallbacks in *. simpl zip. simpl omap.
  rewrite filter_cons. destruct (error r) as [e|]; simpl.
  - f_equal. exact IH.
  - exact IH.
Qed.

(** X9. [convert_pdf_to_html] never raises, whatever its collaborators
    do: it returns an error dictionary or a success dictionary, and the
    task it leaves in the table agrees with what it returns.  After an
    error the task is [failed] with the one fatal message, no page and no
    combined document.  After a success the task is [completed], every
    page is counted as completed whether it was converted or replaced by
    a fallback, there is one result per extracted page, the document is
    the combination of these results, and the errors are one message per
    fallback page. *)
Theorem convert_always_returns (path : str) (tid0 : option str) st :
  ∃ result st' ti,
    convert_pdf_to_html C path tid0 st = (inr result, st')
    ∧ get_task_status (result_task_id result) st' = Some ti
    ∧ task_id ti = result_task_id result
    ∧ task_pdf_path ti = path
    ∧ match result with
      | Error _ e errs =>
          status ti = failed
          ∧ errs = [fatal e] ∧ errors ti = errs
          ∧ pages ti = [] ∧ combined_html ti = None
          ∧ completed_pages ti = 0
      | Success _ total done res html info errs =>
          status ti = completed
          ∧ total_pages ti = total ∧ completed_pages ti = total
          ∧ done = total ∧ len_list res = total
          ∧ pages ti = res
          ∧ html = _combine_pages_to_html res info
          ∧ combined_html ti = Some html
          ∧ task_pdf_info ti = Some info
          ∧ errors ti = errs
          ∧ length errs = length (fallbacks res)
      end.
Proof.
  destruct (convert_cases path tid0 st)
    as (tid & result & st' & d & ti & Hrun & _ & Ht & _ & Hcase).
  exists result, st', ti. split; [done|].
  destruct Hcase as [(e & -> & -> & _)|
                     (pds & info & res & -> & Hres & -> & _)].
  - unfold get_task_status. cbn [result_task_id].
    rewrite Ht, lookup_insert_eq. split_and!; done.
  - unfold get_task_status. cbn [result_task_id].
    rewrite Ht, lookup_insert_eq.
    pose proof (Forall2_length _ _ _ Hres) as Hlen.
    match goal with
    | |- context [note_pages ?prs ?t] =>
        destruct (identity_note_pages prs t) as (Hi1 & Hi2 & Hi3)
    end.
    split_and!; try done.
    + cbn [total_pages set_completed]. by rewrite total_note_pages.
    + cbn [completed_pages set_completed]. rewrite completed_note_pages.
      cbn [completed_pages set_extracted new_task].
      rewrite length_zip_with. unfold len_list. lia.
    + unfold len_list. by rewrite Hlen.
    + unfold len_list. by rewrite Hlen.
    + cbn [errors set_completed]. by rewrite errors_note_pages.
    + by apply length_page_errors.
Qed.

(** X10. A run of [convert_pdf_to_html] writes one entry of
    [active_tasks], the one of the task it reports, and leaves every
    other entry as it was; an entry the table already had under that id
    is replaced.  A task id that is given and not empty is the one used.
    [cleanup_task] on that id then removes the entry again, so that the
    table is what it was before the run, less that id. *)
Theorem convert_writes_one_task (path : str) (tid0 : option str) st :
  ∃ result st' ti,
    convert_pdf_to_html C path tid0 st = (inr result, st')
    ∧ (∀ c t, tid0 = Some (c :: t) → result_task_id result = c :: t)
    ∧ active_tasks st' = <[result_task_id result := ti]> (active_tasks st)
    ∧ (∀ other, other ≠ result_task_id result →
         get_task_status other st' = get_task_status other st)
    ∧ get_task_status (result_task_id result)
        (cleanup_task (result_task_id result) st') = None
    ∧ active_tasks (cleanup_task (result_task_id result) st')
      = delete (result_task_id result) (active_tasks st)
    ∧ calls (cleanup_task (result_task_id result) st') = calls st'.
Proof.
  destruct (convert_cases path tid0 st)
    as (tid & result & st' & d & ti & Hrun & Hgiven & Ht & _ & Hcase).
  assert (result_task_id result = tid) as Hid.
  { by destruct Hcase as [(e & -> & _)|(pds & info & res & -> & _)]. }
  exists result, st', ti. rewrite Hid. split; [done|].
  assert (cleanup_task tid st'
          = {| world := world st'; calls := calls st';
               active_tasks := delete tid (active_tasks st') |}) as Hclean.
  { unfold cleanup_task. rewrite decide_True; [done|].
    by rewrite Ht, lookup_insert_eq. }
  split_and!.
  - exact Hgiven.
  - exact Ht.
  - intros other Hne. unfold get_task_status.
    by rewrite Ht, lookup_insert_ne.
  - rewrite Hclean. unfold get_task_status. cbn [active_tasks].
    by rewrite lookup_delete_eq.
  - rewrite Hclean. cbn [active_tasks]. by rewrite Ht, delete_insert_eq.
  - by rewrite Hclean.
Qed.

(** ** The calls of a page *)

Local Abbreviation count kind d := (length (only kind d)).

(** The log of the refinement loop: a rendering and a refinement call per
    turn, an analysis and a screenshot removal per turn that ran to its
    end, and no browser call. *)
Lemma refinement_loop_log (tid : str) pd (its : list Z) v st r st' :
  for_loop (refine_iteration C tid pd) its v st = (r, st') →
  ∃ d,
    calls st' = calls st ++ d
    ∧ only is_browser d = []
    ∧ count is_analyze d = count is_shot_cleanup d
    ∧ match r with
      | inl _ =>
          count is_render d = S (count is_refine d)
          ∧ count is_analyze d = count is_refine d
      | inr v' =>
          Z.of_nat (count is_render d)
          = iterations_done v' - iterations_done v
          ∧ count is_refine d = count is_render d
          ∧ length (quality_scores v')
            = (length (quality_scores v) + count is_analyze d)%nat
          ∧ (count is_analyze d ≤ count is_render d
             ≤ S (count is_analyze d))%nat
      end.
Proof.
  revert v st. induction its as [|i its IH]; intros v st Hrun.
  - simpl in Hrun. injection Hrun as <- <-. exists [].
    rewrite (right_id_L [] (++)). split_and!; try done; simpl; lia.
  - rewrite for_loop_cons in Hrun.
    destruct (refine_iteration_cases C tid pd i v st)
      as (st1 & Htasks & [Hcase|[Hcase|Hcase]]).
    + destruct Hcase as (e & w & w' & _ & Hbody & Hcalls).
      rewrite Hbody in Hrun. injection Hrun as <- <-.
      eexists. split; [exact Hcalls|]. by only_simpl.
    + destruct Hcase as (shot & e & w & w' & _ & Hbody & Hcalls).
      rewrite Hbody in Hrun. injection Hrun as <- <-.
      eexists. split; [exact Hcalls|]. only_simpl.
      split_and!; try done; simpl; lia.
    + destruct Hcase as (shot & html' & w & w' & s & _ & _ & Hbody & Hcalls).
      rewrite Hbody in Hrun.
      destruct (IH _ _ Hrun) as (d & Hd & Hb & Hac & Hr).
      eexists. split.
      { rewrite Hd, Hcalls. by rewrite <- !(assoc_L (++)). }
      only_simpl. split; [done|]. split; [simpl; lia|].
      destruct r as [e|v']; simpl in Hr |- *.
      * lia.
      * rewrite length_app in Hr. simpl in Hr. lia.
Qed.

(** The log of [_process_single_page]: what precedes the browser, and
    the browser session when there is one. *)
Lemma _process_single_page_log (tid : str) pd st :
  ∃ r st' d,
    _process_single_page C tid pd st = (r, st')
    ∧ calls st' = calls st ++ d
    ∧ (((∃ e, r = inl e)
        ∧ only is_loop_call d = []
        ∧ (only is_browser d = [] ∨ only is_browser d = [StartBrowser]))
       ∨ (∃ pre mid,
            d = pre ++ StartBrowser :: mid ++ [StopBrowser]
            ∧ only is_browser pre = []
            ∧ only is_loop_call pre = []
            ∧ only is_browser mid = []
            ∧ count is_analyze mid = count is_shot_cleanup mid
            ∧ match r with
              | inl _ =>
                  count is_render mid = S (count is_refine mid)
                  ∧ count is_analyze mid = count is_refine mid
              | inr res =>
                  ∃ scores,
                    quality_progression res = Some scores
                    ∧ Z.of_nat (count is_render mid)
                      = refinement_iterations res
                    ∧ count is_refine mid = count is_render mid
                    ∧ count is_analyze mid = length scores
                    ∧ (length scores ≤ count is_render mid
                       ≤ S (length scores))%nat
              end)).
Proof.
  unfold _process_single_page.
  destruct (_update_progress_spec C tid (generating_message pd) st)
    as (st1 & Hprog & Htasks1 & Hcalls1).
  rewrite (bind_inr _ _ _ _ _ Hprog).
  destruct (generate_initial_html C (image_path pd) pd (world st1))
    as [[e|html] w2] eqn:Hgenerate.
  { rewrite (bind_inl _ _ _ _ _ (call_inl _ _ _ _ _ Hgenerate)).
    eexists _, _, _. split; [done|]. split.
    - simpl. rewrite Hcalls1. by rewrite <- (assoc_L (++)).
    - left. split; [by exists e|]. only_simpl. split; [done|by left]. }
  rewrite (bind_inr _ _ _ _ _ (call_inr _ _ _ _ _ Hgenerate)).
  set (st2 := logged st1 (GenerateInitialHtml (page_number pd)) w2).
  destruct (start_browser C (world st2)) as [[e|[]] w3] eqn:Hstart.
  { rewrite (bind_inl _ _ _ _ _ (call_inl _ _ _ _ _ Hstart)).
    eexists _, _, _. split; [done|]. split.
    - unfold st2. simpl. rewrite Hcalls1.
      by rewrite <- !(assoc_L (++)).
    - left. split; [by exists e|]. only_simpl. split; [done|by right]. }
  rewrite (bind_inr _ _ _ _ _ (call_inr _ _ _ _ _ Hstart)).
  set (st3 := logged st2 StartBrowser w3).
  destruct (for_loop (refine_iteration C tid pd) (range (max_iterations C))
              {| current_html := html; iterations_done := 0;
                 quality_scores := [] |} st3) as [r st4] eqn:Hloop.
  destruct (refinement_loop_log _ _ _ _ _ _ _ Hloop)
    as (mid & Hd & Hb & Hac & Hr).
  pose proof (try_finally_quiet _ StopBrowser (stop_browser C) _ _ _ Hloop)
    as Hfin.
  assert (calls (logged st4 StopBrowser (stop_browser C (world st4)))
          = calls st
            ++ (progress_call C tid (generating_message pd)
                ++ [GenerateInitialHtml (page_number pd)])
            ++ StartBrowser :: mid ++ [StopBrowser]) as Hcalls.
  { simpl. rewrite Hd. unfold st3, st2. simpl. rewrite Hcalls1.
    by rewrite <- !(assoc_L (++)). }
  destruct r as [e|v].
  - rewrite (bind_inl _ _ _ _ _ Hfin).
    eexists _, _, _. split; [done|]. split; [exact Hcalls|].
    right. eexists _, mid. split; [done|].
    split; [by only_simpl|]. split; [by only_simpl|]. done.
  - rewrite (bind_inr _ _ _ _ _ Hfin).
    eexists _, _, _. split; [done|]. split; [exact Hcalls|].
    right. eexists _, mid. split; [done|].
    split; [by only_simpl|]. split; [by only_simpl|].
    split; [done|]. split; [done|].
    exists (quality_scores v). simpl in Hr |- *.
    destruct Hr as (Hi & Hf & Hs & Hle). split_and!; try done; lia.
Qed.

Ltac only_norm :=
  repeat first [ rewrite only_app
               | rewrite only_progress_call by done
               | rewrite only_cons_true by done
               | rewrite only_cons_false by done
               | rewrite only_nil ].



(** X11. In every run of [_process_single_page] the renderings, the
    refinement calls, the analyses and the screenshot removals all lie
    inside one browser session.  If generation raises no browser call is
    made; if [start_browser] raises the page raises with the browser
    started and never stopped, and no such call made; otherwise the log
    is: calls that need no browser, [StartBrowser], the calls of the
    loop, [StopBrowser], and [StopBrowser] is the last call whether the
    loop returned or raised. *)
Theorem browser_session_is_scoped (tid : str) pd st :
  ∃ r st' d,
    _process_single_page C tid pd st = (r, st')
    ∧ calls st' = calls st ++ d
    ∧ (((∃ e, r = inl e)
        ∧ only is_loop_call d = []
        ∧ (only is_browser d = [] ∨ only is_browser d = [StartBrowser]))
       ∨ (∃ pre mid,
            d = pre ++ StartBrowser :: mid ++ [StopBrowser]
            ∧ only is_loop_call pre = []
            ∧ only is_browser pre = []
            ∧ only is_browser mid = []
            ∧ only is_browser d = [StartBrowser; StopBrowser]
            ∧ last d = Some StopBrowser)).
Proof.
  destruct (_process_single_page_log tid pd st)
    as (r & st' & d & Hrun & Hcalls & [Hcase|Hcase]).
  - exists r, st', d. split; [done|]. split; [done|]. by left.
  - destruct Hcase as (pre & mid & -> & Hb & Hl & Hm & _).
    exists r, st'. eexists. split; [done|]. split; [done|]. right.
    exists pre, mid. split_and!; try done.
    + only_norm. by rewrite Hb, Hm.
    + change (StartBrowser :: mid ++ [StopBrowser])
        with ((StartBrowser :: mid) ++ [StopBrowser]).
      by rewrite (assoc_L (++)), last_snoc.
Qed.


(** ** Where the scores of a page come from *)

Section Scores.
Context (Q : Z → Prop).
Context (pd : PageData (Dim := Dim)).
Hypothesis on_raise :
  ∀ shot w e w',
    analyze_visual_similarity C (image_path pd) shot w = (inl e, w') → Q 7.
Hypothesis on_return :
  ∀ shot w o w',
    analyze_visual_similarity C (image_path pd) shot w = (inr o, w') →
    Q (overall_score o).

Lemma refinement_loop_scores (tid : str) (its : list Z) v st r st' :
  for_loop (refine_iteration C tid pd) its v st = (r, st') →
  match r with
  | inr v' => ∃ new, quality_scores v' = quality_scores v ++ new
                     ∧ Forall Q new
  | inl _ => True
  end.
Proof.
  revert v st. induction its as [|i its IH]; intros v st Hrun.
  - simpl in Hrun. injection Hrun as <- <-. exists [].
    by rewrite (right_id_L [] (++)).
  - rewrite for_loop_cons in Hrun.
    destruct (refine_iteration_cases C tid pd i v st)
      as (st1 & Htasks & [Hcase|[Hcase|Hcase]]).
    + destruct Hcase as (e & w & w' & _ & Hbody & _).
      rewrite Hbody in Hrun. by injection Hrun as <- <-.
    + destruct Hcase as (shot & e & w & w' & _ & Hbody & _).
      rewrite Hbody in Hrun. injection Hrun as <- <-. exists [].
      by rewrite (right_id_L [] (++)).
    + destruct Hcase as (shot & html' & w & w' & s & _ & Hs & Hbody & _).
      rewrite Hbody in Hrun. specialize (IH _ _ Hrun).
      destruct r as [e|v']; [done|].
      destruct IH as (new & Hnew & HQ). cbn [quality_scores] in Hnew.
      exists (s :: new). split; [by rewrite Hnew, <- (assoc_L (++))|].
      constructor; [|done].
      destruct Hs as [(w1 & e & w2 & Hraise & ->)|(w1 & o & w2 & Hret & ->)].
      * by eapply on_raise.
      * by eapply on_return.
Qed.

Lemma _process_single_page_scores (tid : str) st res st' :
  _process_single_page C tid pd st = (inr res, st') →
  ∃ scores, quality_progression res = Some scores ∧ Forall Q scores.
Proof.
  unfold _process_single_page.
  destruct (_update_progress_spec C tid (generating_message pd) st)
    as (st1 & Hprog & _ & _).
  rewrite (bind_inr _ _ _ _ _ Hprog).
  destruct (generate_initial_html C (image_path pd) pd (world st1))
    as [[e|html] w2] eqn:Hgenerate.
  { by rewrite (bind_inl _ _ _ _ _ (call_inl _ _ _ _ _ Hgenerate)). }
  rewrite (bind_inr _ _ _ _ _ (call_inr _ _ _ _ _ Hgenerate)).
  set (st2 := logged st1 (GenerateInitialHtml (page_number pd)) w2).
  destruct (start_browser C (world st2)) as [[e|[]] w3] eqn:Hstart.
  { by rewrite (bind_inl _ _ _ _ _ (call_inl _ _ _ _ _ Hstart)). }
  rewrite (bind_inr _ _ _ _ _ (call_inr _ _ _ _ _ Hstart)).
  set (st3 := logged st2 StartBrowser w3).
  destruct (for_loop (refine_iteration C tid pd) (range (max_iterations C))
              {| current_html := html; iterations_done := 0;
                 quality_scores := [] |} st3) as [r st4] eqn:Hloop.
  pose proof (refinement_loop_scores _ _ _ _ _ _ Hloop) as Hr.
  pose proof (try_finally_quiet _ StopBrowser (stop_browser C) _ _ _ Hloop)
    as Hfin.
  destruct r as [e|v].
  - by rewrite (bind_inl _ _ _ _ _ Hfin).
  - rewrite (bind_inr _ _ _ _ _ Hfin). intros [= <- _].
    destruct Hr as (new & Hnew & HQ). cbn [quality_scores app] in Hnew.
    exists (quality_scores v). split; [done|]. by rewrite Hnew.
Qed.

End Scores.

End MoreFacts.
End EngineMore.

(* ===================================================================== *)
(** * The renderer                                                        *)
(* ===================================================================== *)

Module EffFacts.
Import Py Eff.

Section Monad.
Context {S : Type}.

Lemma eff_bind_inr {A B} (m : Eff S A) (k : A → Eff S B) s a s' :
  m s = (inr a, s') → (m ≫= k) s = k a s'.
Proof. intros H. unfold mbind, Eff_bind, bind. by rewrite H. Qed.

Lemma eff_bind_inl {A B} (m : Eff S A) (k : A → Eff S B) s e s' :
  m s = (inl e, s') → (m ≫= k) s = (inl e, s').
Proof. intros H. unfold mbind, Eff_bind, bind. by rewrite H. Qed.

Lemma eff_try_except_inr {A} (m : Eff S A) (h : exn → Eff S A) s a s' :
  m s = (inr a, s') → try_except m h s = (inr a, s').
Proof. intros H. unfold try_except. by rewrite H. Qed.

Lemma eff_try_except_inl {A} (m : Eff S A) (h : exn → Eff S A) s e s' :
  m s = (inl e, s') → try_except m h s = h e s'.
Proof. intros H. unfold try_except. by rewrite H. Qed.

Lemma try_finally_inr {A} (m : Eff S A) (f : Eff S ()) s r s' s'' :
  m s = (r, s') → f s' = (inr (), s'') → try_finally m f s = (r, s'').
Proof. intros H1 H2. unfold try_finally. by rewrite H1, H2. Qed.

Lemma try_finally_inl {A} (m : Eff S A) (f : Eff S ()) s r s' e s'' :
  m s = (r, s') → f s' = (inl e, s'') → try_finally m f s = (inl e, s'').
Proof. intros H1 H2. unfold try_finally. by rewrite H1, H2. Qed.

End Monad.
End EffFacts.

Module RendererFacts.
Import Py Eff Renderer EffFacts.

Section Facts.
Context {World : Type}.
Context (P : Playwright (World := World)).

Implicit Types (st : St (World := World)).
Implicit Types (d : list Ev).

Lemma rcall_inr {A} (ev : Ev) (f : World → (exn + A) * World) st a w :
  f (world st) = (inr a, w) → call ev f st = (inr a, logged st ev w).
Proof. intros H. unfold call. by rewrite H. Qed.

Lemma rcall_inl {A} (ev : Ev) (f : World → (exn + A) * World) st e w :
  f (world st) = (inl e, w) → call ev f st = (inl e, logged st ev w).
Proof. intros H. unfold call. by rewrite H. Qed.

(** Runs the next call of a sequence: two goals, the call raising and the
    call returning. *)
Ltac step H :=
  match goal with
  | |- context [(call ?ev ?f ≫= ?k) ?s] =>
      let e := fresh "e" in
      let a := fresh "a" in
      let w := fresh "w" in
      destruct (f (world s)) as [[e|a] w] eqn:H;
      [ rewrite (eff_bind_inl _ k s _ _ (rcall_inl ev f s _ _ H))
      | rewrite (eff_bind_inr _ k s _ _ (rcall_inr ev f s _ _ H)) ]
  end.

(** ** [render_and_screenshot] *)

Lemma set_viewport_spec (info : PageInfo) st :
  ∃ r st',
    set_viewport P info st = (r, st')
    ∧ log st' = log st ++ viewport_step info
    ∧ self st' = self st.
Proof.
  unfold set_viewport, viewport_step.
  destruct (truthy (pixel_width info) && truthy (pixel_height info)).
  - cbv zeta. unfold call.
    destruct (set_viewport_size P _ _ (world st)) as [r w].
    by eexists _, _.
  - eexists _, _. split; [done|]. by rewrite (right_id_L [] (++)).
Qed.

Lemma uuid4_spec st :
  ∃ hex st', uuid4 P st = (inr hex, st')
             ∧ log st' = log st ∧ self st' = self st.
Proof.
  unfold uuid4. destruct (uuid4_hex P (world st)) as [hex w].
  by eexists _, _.
Qed.

Lemma render_page_cases (html : str) (info : PageInfo) (wait : Z)
    (full : bool) st :
  ∃ r st' d path,
    render_page P html info wait full st = (r, st')
    ∧ log st' = log st ++ d
    ∧ self st' = self st
    ∧ d `prefix_of` render_steps html info wait full path
    ∧ match r with
      | inr path' =>
          path' = path ∧ d = render_steps html info wait full path
          ∧ ∃ hex, path = in_screenshots_dir P (screenshot_filename info hex)
      | inl _ => True
      end.
Proof.
  unfold render_page, render_steps.
  destruct (set_viewport_spec info st) as ([e0|[]] & st0 & H0 & Hl0 & Hs0).
  { rewrite (eff_bind_inl _ _ _ _ _ H0).
    eexists _, _, _, []. split_and!; [done|done|done| |done].
    by apply prefix_app_r. }
  rewrite (eff_bind_inr _ _ _ _ _ H0).
  step H1.
  { eexists _, _, _, []. split_and!; [done| |done| |done].
    - cbn [log logged]. rewrite Hl0. by rewrite <- (assoc_L (++)).
    - apply prefix_app, prefix_cons, prefix_nil. }
  step H2.
  { eexists _, _, _, []. split_and!; [done| |done| |done].
    - cbn [log logged]. rewrite Hl0. by rewrite <- !(assoc_L (++)).
    - apply prefix_app. do 2 apply prefix_cons. apply prefix_nil. }
  match goal with
  | |- context [(uuid4 P ≫= _) ?s] =>
      destruct (uuid4_spec s) as (hex & st3 & H3 & Hl3 & Hs3)
  end.
  rewrite (eff_bind_inr _ _ _ _ _ H3). cbv zeta.
  cbn [self log logged] in Hs3, Hl3.
  step H4.
  { eexists _, _, _, (in_screenshots_dir P (screenshot_filename info hex)).
    split_and!; [done| |cbn [self logged]; congruence| |done].
    - cbn [log logged]. rewrite Hl3, Hl0.
      by rewrite <- !(assoc_L (++)).
    - done. }
  eexists _, _, _, (in_screenshots_dir P (screenshot_filename info hex)).
  split_and!; [done| |cbn [self logged]; congruence| |].
  - cbn [log logged]. rewrite Hl3, Hl0.
    by rewrite <- !(assoc_L (++)).
  - done.
  - split_and!; [done|done|by exists hex].
Qed.

(** Every run of [render_and_screenshot]. *)
Lemma render_cases (html : str) (info : PageInfo) (wait : Z) (full : bool)
    st :
  ∃ r st' d,
    render_and_screenshot P html info wait full st = (r, st')
    ∧ log st' = log st ++ d
    ∧ self st' = self st
    ∧ ((browser (self st) && context (self st) = false
        ∧ d = [] ∧ r = inl not_started)
       ∨ (browser (self st) && context (self st) = true
          ∧ ∃ e w w', new_page P w = (inl e, w')
                      ∧ d = [NewPage] ∧ r = inl (render_failed e))
       ∨ (browser (self st) && context (self st) = true
          ∧ ∃ mid path,
              d = NewPage :: mid ++ [PageClose]
              ∧ mid `prefix_of` render_steps html info wait full path
              ∧ ((r = inr path
                  ∧ mid = render_steps html info wait full path
                  ∧ ∃ hex, path = in_screenshots_dir P
                                    (screenshot_filename info hex))
                 ∨ (∃ e, r = inl (render_failed e))
                 ∨ (∃ e w w', page_close P w = (inl e, w') ∧ r = inl e)))).
Proof.
  unfold render_and_screenshot.
  assert (get_self st = (inr (self st), st)) as Hget by done.
  rewrite (eff_bind_inr _ _ _ _ _ Hget).
  destruct (browser (self st)) eqn:Hb, (context (self st)) eqn:Hc;
    cbn [negb orb andb];
    try (exists (inl not_started), st, []; rewrite (right_id_L [] (++));
         split_and!; [done|done|done|by left]).
  destruct (new_page P (world st)) as [[e|[]] w1] eqn:Hnew.
  { assert (try_except (call NewPage (new_page P);; ret None)
                       (λ e, ret (Some e)) st
            = (inr (Some e), logged st NewPage w1)) as Htry.
    { rewrite (eff_try_except_inl _ _ _ e (logged st NewPage w1)); [done|].
      by rewrite (eff_bind_inl _ _ _ _ _ (rcall_inl _ _ _ _ _ Hnew)). }
    rewrite (eff_bind_inr _ _ _ _ _ Htry).
    eexists _, _, _. split_and!; [done|done|done|].
    right. left. split; [done|]. by exists e, (world st), w1. }
  assert (try_except (call NewPage (new_page P);; ret None)
                     (λ e, ret (Some e)) st
          = (inr None, logged st NewPage w1)) as Htry.
  { apply eff_try_except_inr.
    by rewrite (eff_bind_inr _ _ _ _ _ (rcall_inr _ _ _ _ _ Hnew)). }
  rewrite (eff_bind_inr _ _ _ _ _ Htry).
  destruct (render_page_cases html info wait full (logged st NewPage w1))
    as (r & st2 & mid & path & Hrun & Hl2 & Hs2 & Hpre & Hr).
  cbn [log self logged] in Hl2, Hs2.
  set (body := try_except (render_page P html info wait full)
                          (λ e, raise (render_failed e))).
  assert (∃ r', body (logged st NewPage w1) = (r', st2)
                ∧ match r' with
                  | inr p => r = inr p
                  | inl e' => ∃ e, r = inl e ∧ e' = render_failed e
                  end) as (r' & Hbody & Hr').
  { unfold body. destruct r as [e|p].
    - exists (inl (render_failed e)). split; [|by exists e].
      by rewrite (eff_try_except_inl _ _ _ _ _ Hrun).
    - exists (inr p). split; [|done].
      by rewrite (eff_try_except_inr _ _ _ _ _ Hrun). }
  destruct (page_close P (world st2)) as [[e|[]] w3] eqn:Hclose.
  - rewrite (try_finally_inl _ _ _ _ _ _ _ Hbody (rcall_inl _ _ _ _ _ Hclose)).
    eexists _, _, _. split_and!; [done| |cbn [self logged]; congruence|].
    { cbn [log logged]. rewrite Hl2. by rewrite <- !(assoc_L (++)). }
    right. right. split; [done|]. exists mid, path.
    split_and!; [done|done|]. right. right. by exists e, (world st2), w3.
  - rewrite (try_finally_inr _ _ _ _ _ _ Hbody (rcall_inr _ _ _ _ _ Hclose)).
    eexists _, _, _. split_and!; [done| |cbn [self logged]; congruence|].
    { cbn [log logged]. rewrite Hl2. by rewrite <- !(assoc_L (++)). }
    right. right. split; [done|]. exists mid, path.
    split_and!; [done|done|].
    destruct r' as [e'|p].
    + destruct Hr' as (e & -> & ->). right. left. by exists e.
    + subst r. destruct Hr as (-> & -> & Hhex). by left.
Qed.

Lemma viewport_step_spec (info : PageInfo) (w h : Z) :
  SetViewportSize w h ∈ viewport_step info →
  ∃ pw ph,
    pixel_width info = Some pw ∧ pixel_height info = Some ph
    ∧ pw ≠ 0 ∧ ph ≠ 0
    ∧ w = Z.min pw 1920 ∧ h = Z.min ph 1080.
Proof.
  unfold viewport_step, truthy.
  destruct (pixel_width info) as [pw|], (pixel_height info) as [ph|];
    cbn [andb default]; try (by intros ?%elem_of_nil);
    try (destruct (negb _); by intros ?%elem_of_nil).
  destruct (Z.eqb_spec pw 0), (Z.eqb_spec ph 0); cbn [negb andb];
    try (by intros ?%elem_of_nil).
  intros [=]%list_elem_of_singleton. by exists pw, ph.
Qed.

(** X13. [render_and_screenshot] closes the page it opens, once and as
    its last call, whether the rendering returns or raises, and makes no
    call at all when the browser or its context is missing (it raises
    the "Browser not started" error).  When opening the page fails there
    is nothing to close.  A failure inside is reported as
    "Failed to render HTML: ..."; the one failure that is not wrapped is
    that of the closing itself.  The handles of the renderer are never
    changed. *)
Theorem render_closes_its_page (html : str) (info : PageInfo) (wait : Z)
    (full : bool) st :
  ∃ r st' d,
    render_and_screenshot P html info wait full st = (r, st')
    ∧ log st' = log st ++ d
    ∧ self st' = self st
    ∧ ((browser (self st) && context (self st) = false
        ∧ d = [] ∧ r = inl not_started)
       ∨ (browser (self st) && context (self st) = true
          ∧ d = [NewPage] ∧ ∃ e, r = inl (render_failed e))
       ∨ (browser (self st) && context (self st) = true
          ∧ ∃ mid,
              d = NewPage :: mid ++ [PageClose]
              ∧ (NewPage ∉ mid) ∧ (PageClose ∉ mid)
              ∧ last d = Some PageClose
              ∧ match r with
                | inr path => last mid = Some (Screenshot path full)
                | inl e =>
                    (∃ e', e = render_failed e')
                    ∨ ∃ w w', page_close P w = (inl e, w')
                end)).
Proof.
  destruct (render_cases html info wait full st)
    as (r & st' & d & Hrun & Hlog & Hself & Hcase).
  exists r, st', d. split_and!; [done|done|done|].
  destruct Hcase as [?|[(Hon & e & w & w' & _ & -> & ->)|
                        (Hon & mid & path & -> & Hpre & Hr)]].
  - by left.
  - right. left. split_and!; [done|done|by exists e].
  - right. right. split; [done|]. exists mid.
    assert (∀ ev, ev ∈ mid → ev ∈ render_steps html info wait full path)
      as Hin.
    { intros ev Hev. destruct Hpre as [k ->]. apply elem_of_app. by left. }
    assert (∀ ev, ev ∈ render_steps html info wait full path →
                  ev ≠ NewPage ∧ ev ≠ PageClose) as Hsteps.
    { intros ev. unfold render_steps, viewport_step.
      rewrite elem_of_app.
      destruct (truthy (pixel_width info) && truthy (pixel_height info));
        rewrite ?list_elem_of_singleton, !elem_of_cons;
        intros [H|H]; try (by apply elem_of_nil in H);
        (destruct H as [->|[->|[->|H]]] || subst ev); try done;
        by apply elem_of_nil in H. }
    split_and!.
    + done.
    + intros H. by destruct (Hsteps _ (Hin _ H)).
    + intros H. by destruct (Hsteps _ (Hin _ H)).
    + change (NewPage :: mid ++ [PageClose])
        with ((NewPage :: mid) ++ [PageClose]).
      by rewrite last_snoc.
    + destruct Hr as [(-> & -> & _)|[(e & ->)|(e & w & w' & Hc & ->)]].
      * unfold render_steps.
        change [SetContent html; WaitForTimeout wait; Screenshot path full]
          with ([SetContent html; WaitForTimeout wait]
                ++ [Screenshot path full]).
        by rewrite (assoc_L (++)), last_snoc.
      * left. by exists e.
      * right. by exists w, w'.
Qed.

(** X14. In every run of [render_and_screenshot], a viewport is set only
    when [pixel_width] and [pixel_height] are both present and not zero,
    and it is then [min(pixel_width, 1920)] by [min(pixel_height, 1080)]:
    never wider than 1920 nor higher than 1080.  The path returned is the
    one the screenshot was written to, a file named
    [screenshot_<page number>_<hex>.png] in the screenshots directory,
    with [unknown] for a missing page number. *)
Theorem render_viewport_is_capped (html : str) (info : PageInfo) (wait : Z)
    (full : bool) st :
  ∃ r st' d,
    render_and_screenshot P html info wait full st = (r, st')
    ∧ log st' = log st ++ d
    ∧ (∀ w h, SetViewportSize w h ∈ d →
         w ≤ 1920 ∧ h ≤ 1080
         ∧ ∃ pw ph,
             pixel_width info = Some pw ∧ pixel_height info = Some ph
             ∧ pw ≠ 0 ∧ ph ≠ 0
             ∧ w = Z.min pw 1920 ∧ h = Z.min ph 1080)
    ∧ (∀ path, r = inr path →
         Screenshot path full ∈ d
         ∧ ∃ hex,
             path = in_screenshots_dir P
                      (lit "screenshot_"
                       ++ from_option str_of_int (lit "unknown")
                                      (page_number info)
                       ++ lit "_" ++ hex ++ lit ".png")).
Proof.
  destruct (render_cases html info wait full st)
    as (r & st' & d & Hrun & Hlog & Hself & Hcase).
  exists r, st', d. split_and!; [done|done| |].
  - intros w h Hin.
    assert (SetViewportSize w h ∈ viewport_step info) as Hv.
    { destruct Hcase as [(_ & -> & _)|[(_ & e & w1 & w2 & _ & -> & _)|
                        (_ & mid & path & -> & [k Hpre] & _)]].
      - by apply elem_of_nil in Hin.
      - by apply list_elem_of_singleton in Hin.
      - rewrite elem_of_cons, elem_of_app, list_elem_of_singleton in Hin.
        destruct Hin as [[=]|[Hin|[=]]].
        assert (SetViewportSize w h
                ∈ render_steps html info wait full path) as Hin'
          by (rewrite Hpre, elem_of_app; by left).
        unfold render_steps in Hin'.
        rewrite elem_of_app, !elem_of_cons in Hin'.
        destruct Hin' as [?|[[=]|[[=]|[[=]|H]]]]; [done|].
        by apply elem_of_nil in H. }
    destruct (viewport_step_spec info w h Hv)
      as (pw & ph & Hw & Hh & Hpw & Hph & -> & ->).
    split; [lia|]. split; [lia|]. by exists pw, ph.
  - intros path ->.
    destruct Hcase as [(_ & _ & [=])|[(_ & e & w1 & w2 & _ & _ & [=])|
                      (_ & mid & path' & -> & _ & Hr)]].
    destruct Hr as [([= ->] & -> & Hhex)|[(e & [=])|(e & w & w' & _ & [=])]].
    split; [|exact Hhex].
    rewrite elem_of_cons, elem_of_app. right. left.
    unfold render_steps. rewrite elem_of_app, !elem_of_cons.
    right. right. right. by left.
Qed.

(** ** [stop_browser] and [start_browser] *)

Ltac unfold_eff :=
  cbv [try_except mbind Eff_bind bind mret Eff_ret ret raise
       get_self set_context set_browser set_playwright set_self call
       logged world log self playwright browser context].

Ltac oracle :=
  match goal with
  | |- context [context_close P ?w] =>
      destruct (context_close P w) as [[?|[]] ?] eqn:?
  | |- context [browser_close P ?w] =>
      destruct (browser_close P w) as [[?|[]] ?] eqn:?
  | |- context [playwright_stop P ?w] =>
      destruct (playwright_stop P w) as [[?|[]] ?] eqn:?
  | |- context [playwright_start P ?w] =>
      destruct (playwright_start P w) as [[?|[]] ?] eqn:?
  | |- context [launch P ?w] =>
      destruct (launch P w) as [[?|[]] ?] eqn:?
  | |- context [new_context P ?w] =>
      destruct (new_context P w) as [[?|[]] ?] eqn:?
  end.

Ltac log_eq :=
  cbn [log world self];
  first [ reflexivity
        | symmetry; apply app_nil_r
        | rewrite <- !(assoc_L (++)); reflexivity ].

(** X15. [stop_browser] never raises, and the calls it makes are the
    closes of the handles that are set, in the order context, browser,
    Playwright, up to the first that fails.  When every close it makes
    returns, all three handles are [None] afterwards.  A close that
    raises ends the method: its handle and those after it stay set and
    are never closed, so a failing [context.close()] leaves the browser
    and Playwright running. *)
Theorem stop_browser_never_raises st :
  ∃ st' d,
    stop_browser P st = (inr (), st')
    ∧ log st' = log st ++ d
    ∧ d `prefix_of` closes (self st)
    ∧ ((self st' = {| playwright := false; browser := false;
                      context := false |}
        ∧ d = closes (self st))
       ∨ (∃ e w w', context_close P w = (inl e, w')
                    ∧ context (self st) = true
                    ∧ self st' = self st
                    ∧ d = [ContextClose])
       ∨ (∃ e w w', browser_close P w = (inl e, w')
                    ∧ self st' = {| playwright := playwright (self st);
                                    browser := true; context := false |}
                    ∧ last d = Some BrowserClose)
       ∨ (∃ e w w', playwright_stop P w = (inl e, w')
                    ∧ self st' = {| playwright := true; browser := false;
                                    context := false |}
                    ∧ d = closes (self st))).
Proof.
  destruct st as [w0 l0 [p b c]]. unfold stop_browser. unfold_eff.
  destruct c, b, p; cbn [self world log playwright browser context];
    repeat (oracle; cbn [self world log playwright browser context]);
    (eexists _, _; split; [reflexivity|]; split; [log_eq|]; split;
     [unfold closes; cbn; eexists; reflexivity|]).
  all: unfold closes; cbn [self playwright browser context app].
  all: first [ by left
             | right; left; eexists _, _, _; split; [eassumption|];
               by split_and!
             | right; right; left; eexists _, _, _; split; [eassumption|];
               by split_and!
             | right; right; right; eexists _, _, _; split; [eassumption|];
               by split_and! ].
Qed.

(** X16. [start_browser] either returns, with the three handles set
    after the calls start, launch, new context, or raises
    "Browser startup failed: ..." at the first of these calls that
    fails.  It then makes no further call: the handles acquired before
    the failure stay set and nothing is closed, so after a failed launch
    Playwright is left started. *)
Theorem start_browser_outcomes st :
  ∃ r st' d,
    start_browser P st = (r, st')
    ∧ log st' = log st ++ d
    ∧ ((r = inr ()
        ∧ d = [PlaywrightStart; Launch; NewContext]
        ∧ self st' = {| playwright := true; browser := true;
                        context := true |})
       ∨ (∃ e,
            r = inl (lit "Browser startup failed: " ++ e)
            ∧ ((d = [PlaywrightStart] ∧ self st' = self st)
               ∨ (d = [PlaywrightStart; Launch]
                  ∧ self st' = {| playwright := true;
                                  browser := browser (self st);
                                  context := context (self st) |})
               ∨ (d = [PlaywrightStart; Launch; NewContext]
                  ∧ self st' = {| playwright := true; browser := true;
                                  context := context (self st) |})))).
Proof.
  destruct st as [w0 l0 [p b c]]. unfold start_browser. unfold_eff.
  repeat oracle;
    (eexists _, _, _; split; [reflexivity|]; split; [log_eq|]).
  - right. eexists. split; [reflexivity|]. by left.
  - right. eexists. split; [reflexivity|]. right. by left.
  - right. eexists. split; [reflexivity|]. right. by right.
  - by left.
Qed.

(** ** Removing screenshots *)

Lemma for_each_unlink (files : list str) st :
  ∃ r st' tried,
    for_each (λ f, call (Unlink f) (unlink P f)) files st = (r, st')
    ∧ log st' = log st ++ (Unlink <$> tried)
    ∧ self st' = self st
    ∧ tried `prefix_of` files
    ∧ match r with
      | inr _ => tried = files
      | inl e => ∃ f w w', last tried = Some f ∧ unlink P f w = (inl e, w')
      end.
Proof.
  revert st. induction files as [|f files IH]; intros st.
  - exists (inr ()), st, []. split_and!; try done.
    cbn [fmap list_fmap]. by rewrite (right_id_L [] (++)).
  - cbn [for_each].
    destruct (unlink P f (world st)) as [[e|[]] w] eqn:Hf.
    + exists (inl e), (logged st (Unlink f) w), [f]. split_and!.
      * unfold bind. by rewrite (rcall_inl _ _ _ _ _ Hf).
      * done.
      * done.
      * apply prefix_cons, prefix_nil.
      * by exists f, (world st), w.
    + destruct (IH (logged st (Unlink f) w))
        as (r & st' & tried & Hrun & Hlog & Hself & Hpre & Hr).
      exists r, st', (f :: tried). split_and!.
      * unfold bind. by rewrite (rcall_inr _ _ _ _ _ Hf).
      * rewrite Hlog. cbn [log logged]. by rewrite <- (assoc_L (++)).
      * done.
      * by apply prefix_cons.
      * destruct r as [e|[]]; [|by subst].
        destruct Hr as (f' & w1 & w2 & Hlast & Hraise).
        exists f', w1, w2. split; [|done].
        destruct tried; [done|]. by rewrite last_cons_cons.
Qed.

(** X17. [cleanup_screenshot] and [cleanup_all_screenshots] never raise
    and leave the handles alone.  [cleanup_screenshot] removes the file
    only after [exists] answered [True].  [cleanup_all_screenshots]
    removes the files of the listing in order and gives up at the first
    removal that fails: the files after it are not tried. *)
Theorem screenshot_cleanup_never_raises :
  (∀ path st,
     ∃ st' d,
       cleanup_screenshot P path st = (inr (), st')
       ∧ log st' = log st ++ d
       ∧ self st' = self st
       ∧ (d = [Exists path]
          ∨ (d = [Exists path; Unlink path]
             ∧ ∃ w w', path_exists P path w = (inr true, w'))))
  ∧ (∀ st,
       ∃ st' d,
         cleanup_all_screenshots P st = (inr (), st')
         ∧ log st' = log st ++ d
         ∧ self st' = self st
         ∧ (d = [GlobPng]
            ∨ ∃ files tried w w',
                glob_png P w = (inr files, w')
                ∧ d = GlobPng :: (Unlink <$> tried)
                ∧ tried `prefix_of` files
                ∧ (tried = files
                   ∨ ∃ f e w1 w2, last tried = Some f
                                  ∧ unlink P f w1 = (inl e, w2)))).
Proof.
  split.
  - intros path st. unfold cleanup_screenshot.
    destruct (path_exists P path (world st)) as [[e|[]] w] eqn:He.
    + eexists _, _. split.
      { rewrite (eff_try_except_inl _ _ _ e (logged st (Exists path) w));
          [done|].
        by rewrite (eff_bind_inl _ _ _ _ _ (rcall_inl _ _ _ _ _ He)). }
      split_and!; [done|done|by left].
    + destruct (unlink P path w) as [[e|[]] w1] eqn:Hu.
      * eexists _, _. split.
        { rewrite (eff_try_except_inl _ _ _ e
                     (logged (logged st (Exists path) w) (Unlink path) w1));
            [done|].
          rewrite (eff_bind_inr _ _ _ _ _ (rcall_inr _ _ _ _ _ He)).
          by apply rcall_inl. }
        split_and!; [cbn [log logged]; by rewrite <- (assoc_L (++))|done|].
        right. split; [done|]. by exists (world st), w.
      * eexists _, _. split.
        { apply eff_try_except_inr.
          rewrite (eff_bind_inr _ _ _ _ _ (rcall_inr _ _ _ _ _ He)).
          by apply rcall_inr. }
        split_and!; [cbn [log logged]; by rewrite <- (assoc_L (++))|done|].
        right. split; [done|]. by exists (world st), w.
    + eexists _, _. split.
      { apply eff_try_except_inr.
        by rewrite (eff_bind_inr _ _ _ _ _ (rcall_inr _ _ _ _ _ He)). }
      split_and!; [done|done|by left].
  - intros st. unfold cleanup_all_screenshots.
    destruct (glob_png P (world st)) as [[e|files] w] eqn:Hg.
    + eexists _, _. split.
      { rewrite (eff_try_except_inl _ _ _ e (logged st GlobPng w)); [done|].
        by rewrite (eff_bind_inl _ _ _ _ _ (rcall_inl _ _ _ _ _ Hg)). }
      split_and!; [done|done|by left].
    + destruct (for_each_unlink files (logged st GlobPng w))
        as (r & st' & tried & Hrun & Hlog & Hself & Hpre & Hr).
      exists st', (GlobPng :: (Unlink <$> tried)).
      assert ((call GlobPng (glob_png P)
               ≫= for_each (λ f, call (Unlink f) (unlink P f))) st
              = (r, st')) as Hbody
        by by rewrite (eff_bind_inr _ _ _ _ _ (rcall_inr _ _ _ _ _ Hg)).
      split_and!.
      * destruct r as [e|[]].
        -- by rewrite (eff_try_except_inl _ _ _ _ _ Hbody).
        -- by rewrite (eff_try_except_inr _ _ _ _ _ Hbody).
      * rewrite Hlog. cbn [log logged]. by rewrite <- (assoc_L (++)).
      * done.
      * right. exists files, tried, (world st), w.
        split_and!; [done|done|done|].
        destruct r as [e|[]]; [|by left].
        destruct Hr as (f & w1 & w2 & Hlast & Hraise).
        right. by exists f, e, w1, w2.
Qed.

End Facts.
End RendererFacts.

(* ===================================================================== *)
(** * The PDF processor                                                   *)
(* ===================================================================== *)

Module PdfFacts.
Import Py Eff Pdf EffFacts.

Section Facts.
Context {World Dim : Type}.
Context (F : Fitz (World := World) (Dim := Dim)).

Implicit Types (st : St (World := World)).
Implicit Types (d : list Ev).
Implicit Types (p : PageInfo (Dim := Dim)).

Local Abbreviation saves d := (filter (λ ev, is_save ev = true) d).
Local Abbreviation opens d := (filter (λ ev, is_open ev = true) d).

Lemma pcall_inr {A} (ev : Ev) (f : World → (exn + A) * World) st a w :
  f (world st) = (inr a, w) → call ev f st = (inr a, logged st ev w).
Proof. intros H. unfold call. by rewrite H. Qed.

Lemma pcall_inl {A} (ev : Ev) (f : World → (exn + A) * World) st e w :
  f (world st) = (inl e, w) → call ev f st = (inl e, logged st ev w).
Proof. intros H. unfold call. by rewrite H. Qed.

Ltac step H :=
  match goal with
  | |- context [(call ?ev ?f ≫= ?k) ?s] =>
      let e := fresh "e" in
      let a := fresh "a" in
      let w := fresh "w" in
      destruct (f (world s)) as [[e|a] w] eqn:H;
      [ rewrite (eff_bind_inl _ k s _ _ (pcall_inl ev f s _ _ H))
      | rewrite (eff_bind_inr _ k s _ _ (pcall_inr ev f s _ _ H)) ]
  end.

Lemma puuid4_spec st :
  ∃ hex st', uuid4 F st = (inr hex, st') ∧ log st' = log st.
Proof.
  unfold uuid4. destruct (uuid4_hex F (world st)) as [hex w].
  by eexists _, _.
Qed.

(** ** [extract_pages_as_images] *)

Lemma save_image_cases (path fmt : str) st :
  ∃ r st',
    save_image F path fmt st = (r, st')
    ∧ ((supported fmt = true
        ∧ log st' = log st ++ [Save path (jpg_quality fmt)])
       ∨ (supported fmt = false
          ∧ st' = st
          ∧ r = inl (lit "Unsupported image format: " ++ fmt))).
Proof.
  unfold save_image, supported, jpg_quality.
  destruct (lower_is "png" fmt); [|destruct (lower_is "jpeg" fmt)];
    cbn [orb].
  - unfold call. destruct (save F path None (world st)) as [r w].
    eexists _, _. split; [done|]. by left.
  - unfold call. destruct (save F path (Some 95) (world st)) as [r w].
    eexists _, _. split; [done|]. by left.
  - eexists _, _. split; [done|]. by right.
Qed.

Lemma extract_page_cases (dpi_ : Z) (fmt : str) (n : Z) st :
  ∃ r st' d,
    extract_page F dpi_ fmt n st = (r, st')
    ∧ log st' = log st ++ d
    ∧ Forall (λ ev, is_page_call ev = true) d
    ∧ match r with
      | inr p =>
          page_entry F dpi_ fmt n p
          ∧ supported fmt = true
          ∧ saves d = [Save (image_path p) (jpg_quality fmt)]
      | inl _ => supported fmt = false → saves d = []
      end.
Proof.
  unfold extract_page.
  step H1.
  { eexists _, _, [LoadPage n]. split_and!; [done|done| |by intros _].
    by repeat constructor. }
  step H2.
  { eexists _, _, [LoadPage n; GetPixmap n dpi_].
    split_and!; [done| | |by intros _].
    - cbn [log logged]. by rewrite <- (assoc_L (++)).
    - by repeat constructor. }
  match goal with
  | |- context [(uuid4 F ≫= _) ?s] =>
      destruct (puuid4_spec s) as (hex & st3 & H3 & Hl3)
  end.
  rewrite (eff_bind_inr _ _ _ _ _ H3). cbv zeta. cbn [log logged] in Hl3.
  set (path := in_temp_dir F (page_filename n hex fmt)).
  destruct (save_image_cases path fmt st3)
    as (r4 & st4 & H4 & [[Hsup Hl4]|(Hsup & -> & ->)]).
  - destruct r4 as [e|[]].
    + rewrite (eff_bind_inl _ _ _ _ _ H4).
      eexists _, _, [LoadPage n; GetPixmap n dpi_;
                     Save path (jpg_quality fmt)].
      split_and!; [done| | |].
      * rewrite Hl4, Hl3. by rewrite <- !(assoc_L (++)).
      * by repeat constructor.
      * intros Hno. by rewrite Hsup in Hno.
    + rewrite (eff_bind_inr _ _ _ _ _ H4).
      eexists _, _, [LoadPage n; GetPixmap n dpi_;
                     Save path (jpg_quality fmt)].
      split_and!; [done| | |].
      * rewrite Hl4, Hl3. by rewrite <- !(assoc_L (++)).
      * by repeat constructor.
      * split_and!; try done. split_and!; try done. by exists hex.
  - rewrite (eff_bind_inl _ _ _ _ _ H4).
    eexists _, _, [LoadPage n; GetPixmap n dpi_].
    split_and!; [done| | |by intros _].
    + rewrite Hl3. by rewrite <- !(assoc_L (++)).
    + by repeat constructor.
Qed.

Local Abbreviation save_of fmt :=
  (λ p : PageInfo (Dim := Dim), Save (image_path p) (jpg_quality fmt)).

Lemma extract_loop_cases (dpi_ : Z) (fmt : str) (nums : list Z)
    (acc : list PageInfo) st :
  ∃ r st' d,
    extract_loop F dpi_ fmt nums acc st = (r, st')
    ∧ log st' = log st ++ d
    ∧ Forall (λ ev, is_page_call ev = true) d
    ∧ match r with
      | inr pages =>
          ∃ new,
            pages = acc ++ new
            ∧ Forall2 (page_entry F dpi_ fmt) nums new
            ∧ saves d = save_of fmt <$> new
            ∧ (nums ≠ [] → supported fmt = true)
      | inl _ => supported fmt = false → saves d = []
      end.
Proof.
  revert acc st. induction nums as [|n nums IH]; intros acc st.
  - exists (inr acc), st, []. split_and!; [done| | |].
    + by rewrite (right_id_L [] (++)).
    + constructor.
    + exists []. rewrite (right_id_L [] (++)). split_and!; done.
  - cbn [extract_loop].
    destruct (extract_page_cases dpi_ fmt n st)
      as ([e|p] & st1 & d1 & H1 & Hl1 & Hc1 & Hr1).
    + rewrite (eff_bind_inl _ _ _ _ _ H1). by exists (inl e), st1, d1.
    + rewrite (eff_bind_inr _ _ _ _ _ H1).
      destruct Hr1 as (Hentry & Hsup & Hsave).
      destruct (IH (acc ++ [p]) st1)
        as (r & st2 & d2 & H2 & Hl2 & Hc2 & Hr2).
      exists r, st2, (d1 ++ d2). split_and!; [done| | |].
      * rewrite Hl2, Hl1. by rewrite <- (assoc_L (++)).
      * apply Forall_app. by split.
      * destruct r as [e|pages].
        -- intros Hno. by rewrite Hsup in Hno.
        -- destruct Hr2 as (new & -> & Hnew & Hsaves & _).
           exists (p :: new). split_and!.
           ++ by rewrite <- (assoc_L (++)).
           ++ by constructor.
           ++ rewrite filter_app, Hsave, Hsaves. done.
           ++ done.
Qed.

Lemma entries_numbered (dpi_ : Z) (fmt : str) (n : Z)
    (pages : list PageInfo) :
  Forall2 (page_entry F dpi_ fmt) (seqZ 0 n) pages →
  page_number <$> pages = seqZ 1 n.
Proof.
  intros H.
  assert (∀ nums, Forall2 (page_entry F dpi_ fmt) nums pages →
                  page_number <$> pages = Z.add 1 <$> nums) as Hgen.
  { clear H. intros nums H. induction H as [|i p nums pages Hp _ IH];
      [done|].
    rewrite !fmap_cons, IH. destruct Hp as (-> & _). f_equal. lia. }
  rewrite (Hgen _ H). by rewrite fmap_add_seqZ.
Qed.

(** Every run of [extract_pages_as_images]. *)
Lemma page_calls_only d :
  Forall (λ ev, is_page_call ev = true) d → (Close ∉ d) ∧ opens d = [].
Proof.
  induction 1 as [|ev d Hev _ [IH1 IH2]].
  - split; [apply not_elem_of_nil|done].
  - split.
    + rewrite not_elem_of_cons. split; [|done]. by intros <-.
    + rewrite filter_cons_False; [done|]. by destruct ev.
Qed.

Lemma extract_cases (pdf_path : str) (dpi_ : Z) (fmt : str) st :
  ∃ r st' d,
    extract_pages_as_images F pdf_path dpi_ fmt st = (r, st')
    ∧ log st' = log st ++ d
    ∧ head d = Some (Open pdf_path)
    ∧ opens d = [Open pdf_path]
    ∧ (supported fmt = false → saves d = [])
    ∧ (∀ pages, r = inr pages →
         ∃ n,
           (∃ w w', fitz_open F pdf_path w = (inr n, w'))
           ∧ Forall2 (page_entry F dpi_ fmt) (seqZ 0 n) pages
           ∧ saves d = save_of fmt <$> pages
           ∧ last d = Some Close
           ∧ (pages ≠ [] → supported fmt = true))
    ∧ (∀ e, r = inl e →
         ∃ e', e = extract_failed e'
               ∧ ((Close ∉ d) ∨ ∃ w w', doc_close F w = (inl e', w'))).
Proof.
  unfold extract_pages_as_images.
  destruct (fitz_open F pdf_path (world st)) as [[e|n] w1] eqn:Hopen.
  { eexists _, _, [Open pdf_path]. split_and!.
    - rewrite (eff_try_except_inl _ _ _ e (logged st (Open pdf_path) w1));
        [done|].
      by rewrite (eff_bind_inl _ _ _ _ _ (pcall_inl _ _ _ _ _ Hopen)).
    - done.
    - done.
    - done.
    - done.
    - intros pages [=].
    - intros ? [= <-]. exists e. split; [done|]. left.
      by rewrite list_elem_of_singleton. }
  destruct (extract_loop_cases dpi_ fmt (seqZ 0 n) []
              (logged st (Open pdf_path) w1))
    as (r2 & st2 & d2 & H2 & Hl2 & Hcalls & Hr2).
  destruct (page_calls_only d2 Hcalls) as [Hc2 Ho2].
  assert (opens (Open pdf_path :: d2 ++ [Close]) = [Open pdf_path]) as Ho3.
  { rewrite filter_cons_True by done. by rewrite filter_app, Ho2. }
  destruct r2 as [e|pages].
  { eexists _, _, (Open pdf_path :: d2). split_and!.
    - rewrite (eff_try_except_inl _ _ _ e st2); [done|].
      rewrite (eff_bind_inr _ _ _ _ _ (pcall_inr _ _ _ _ _ Hopen)).
      by rewrite (eff_bind_inl _ _ _ _ _ H2).
    - rewrite Hl2. cbn [log logged]. by rewrite <- (assoc_L (++)).
    - done.
    - rewrite filter_cons_True by done. by rewrite Ho2.
    - intros Hno. rewrite filter_cons_False by done. by apply Hr2.
    - intros pages [=].
    - intros ? [= <-]. exists e. split; [done|]. left.
      rewrite not_elem_of_cons. by split. }
  destruct Hr2 as (new & Hnew & Hentries & Hsaves & Hsup).
  cbn [app] in Hnew. subst new.
  assert (supported fmt = false
          → saves (Open pdf_path :: d2 ++ [Close]) = []) as Hunsup.
  { intros Hno. rewrite filter_cons_False by done.
    rewrite filter_app, Hsaves.
    destruct (seqZ 0 n) as [|i nums] eqn:Hseq.
    - by inversion Hentries.
    - rewrite Hsup in Hno; done. }
  destruct (doc_close F (world st2)) as [[e|[]] w3] eqn:Hclose.
  { eexists _, _, (Open pdf_path :: d2 ++ [Close]). split_and!.
    - rewrite (eff_try_except_inl _ _ _ e (logged st2 Close w3)); [done|].
      rewrite (eff_bind_inr _ _ _ _ _ (pcall_inr _ _ _ _ _ Hopen)).
      rewrite (eff_bind_inr _ _ _ _ _ H2).
      by rewrite (eff_bind_inl _ _ _ _ _ (pcall_inl _ _ _ _ _ Hclose)).
    - cbn [log logged]. rewrite Hl2. cbn [log logged].
      by rewrite <- !(assoc_L (++)).
    - done.
    - done.
    - done.
    - intros pages' [=].
    - intros ? [= <-]. exists e. split; [done|]. right.
      by exists (world st2), w3. }
  eexists _, _, (Open pdf_path :: d2 ++ [Close]). split_and!.
  - apply eff_try_except_inr.
    rewrite (eff_bind_inr _ _ _ _ _ (pcall_inr _ _ _ _ _ Hopen)).
    rewrite (eff_bind_inr _ _ _ _ _ H2).
    by rewrite (eff_bind_inr _ _ _ _ _ (pcall_inr _ _ _ _ _ Hclose)).
  - cbn [log logged]. rewrite Hl2. cbn [log logged].
    by rewrite <- !(assoc_L (++)).
  - done.
  - done.
  - done.
  - intros pages' [= <-]. exists n. split_and!.
    + by exists (world st), w1.
    + done.
    + rewrite filter_cons_False by done.
      rewrite filter_app, Hsaves. apply app_nil_r.
    + change (Open pdf_path :: d2 ++ [Close])
        with ((Open pdf_path :: d2) ++ [Close]).
      by rewrite last_snoc.
    + intros Hne. apply Hsup. intros Hnil. rewrite Hnil in Hentries.
      inversion Hentries. by subst.
  - intros ? [=].
Qed.

(** X18. When [extract_pages_as_images] returns, it returns one entry
    per page of the document, in page order and numbered from 1, each
    carrying the resolution and the format asked for and the path
    [temp_dir/page_<number>_<hex>.<format>]; the images saved are those
    of the entries, in the same order, with quality 95 for jpeg; the
    first call opened the document and the last one closed it; and
    unless the document has no page the format is png or jpeg in any
    letter case.  With any other format no image is ever saved. *)
Theorem extract_pages_in_order (pdf_path : str) (dpi_ : Z) (fmt : str) st :
  ∃ r st' d,
    extract_pages_as_images F pdf_path dpi_ fmt st = (r, st')
    ∧ log st' = log st ++ d
    ∧ (supported fmt = false → saves d = [])
    ∧ ∀ pages, r = inr pages →
        ∃ n,
          (∃ w w', fitz_open F pdf_path w = (inr n, w'))
          ∧ page_number <$> pages = seqZ 1 n
          ∧ Forall2 (page_entry F dpi_ fmt) (seqZ 0 n) pages
          ∧ saves d = save_of fmt <$> pages
          ∧ head d = Some (Open pdf_path)
          ∧ last d = Some Close
          ∧ (pages ≠ [] → supported fmt = true).
Proof.
  destruct (extract_cases pdf_path dpi_ fmt st)
    as (r & st' & d & Hrun & Hlog & Hhead & _ & Hno & Hok & _).
  exists r, st', d. split_and!; [done|done|done|].
  intros pages Hr.
  destruct (Hok pages Hr) as (n & Hopen & Hentries & Hsaves & Hlast & Hsup).
  exists n. split_and!; try done. by eapply entries_numbered.
Qed.

(** X19. Whatever fails inside [extract_pages_as_images] (opening the
    document, loading or rendering a page, saving an image, a format
    that is not supported, closing the document) is raised as
    "Failed to process PDF: ..." followed by the message of the failure.
    On these paths the document is not closed: the only failing run
    with a close call is the one in which the close itself raised. *)
Theorem extract_failure_is_wrapped (pdf_path : str) (dpi_ : Z) (fmt : str)
    st :
  ∃ r st' d,
    extract_pages_as_images F pdf_path dpi_ fmt st = (r, st')
    ∧ log st' = log st ++ d
    ∧ ∀ e, r = inl e →
        ∃ e', e = lit "Failed to process PDF: " ++ e'
              ∧ ((Close ∉ d) ∨ ∃ w w', doc_close F w = (inl e', w')).
Proof.
  destruct (extract_cases pdf_path dpi_ fmt st)
    as (r & st' & d & Hrun & Hlog & _ & _ & _ & _ & Hfail).
  by exists r, st', d.
Qed.


(** ** [cleanup_temp_files] *)

Local Abbreviation probes d := (filter (λ ev, is_exists ev = true) d).

Lemma cleanup_page_cases p st :
  ∃ st' d,
    cleanup_page F p st = (inr (), st')
    ∧ log st' = log st ++ d
    ∧ (d = [Exists (image_path p)]
       ∨ (d = [Exists (image_path p); Unlink (image_path p)]
          ∧ ∃ w w', path_exists F (image_path p) w = (inr true, w'))).
Proof.
  unfold cleanup_page.
  destruct (path_exists F (image_path p) (world st)) as [[e|[]] w] eqn:He.
  - eexists _, _. split.
    { rewrite (eff_try_except_inl _ _ _ e
                 (logged st (Exists (image_path p)) w)); [done|].
      by rewrite (eff_bind_inl _ _ _ _ _ (pcall_inl _ _ _ _ _ He)). }
    split; [done|by left].
  - destruct (unlink F (image_path p) w) as [[e|[]] w1] eqn:Hu.
    + eexists _, _. split.
      { rewrite (eff_try_except_inl _ _ _ e
                   (logged (logged st (Exists (image_path p)) w)
                           (Unlink (image_path p)) w1)); [done|].
        rewrite (eff_bind_inr _ _ _ _ _ (pcall_inr _ _ _ _ _ He)).
        by apply pcall_inl. }
      split; [cbn [log logged]; by rewrite <- (assoc_L (++))|].
      right. split; [done|]. by exists (world st), w.
    + eexists _, _. split.
      { apply eff_try_except_inr.
        rewrite (eff_bind_inr _ _ _ _ _ (pcall_inr _ _ _ _ _ He)).
        by apply pcall_inr. }
      split; [cbn [log logged]; by rewrite <- (assoc_L (++))|].
      right. split; [done|]. by exists (world st), w.
  - eexists _, _. split.
    { apply eff_try_except_inr.
      by rewrite (eff_bind_inr _ _ _ _ _ (pcall_inr _ _ _ _ _ He)). }
    split; [done|by left].
Qed.

(** X20. [cleanup_temp_files] never raises and looks at every entry it
    is given, in order, also after a removal or a test that failed: the
    existence tests it makes are those of the image paths of the
    entries, one each.  It makes no other call than these tests and
    removals, and it removes a file only after the test answered
    [True]. *)
Theorem cleanup_temp_files_visits_all (pages : list PageInfo) st :
  ∃ st' d,
    cleanup_temp_files F pages st = (inr (), st')
    ∧ log st' = log st ++ d
    ∧ probes d = (λ p, Exists (image_path p)) <$> pages
    ∧ Forall (λ ev, ∃ path,
                ev = Exists path
                ∨ (ev = Unlink path
                   ∧ ∃ w w', path_exists F path w = (inr true, w'))) d.
Proof.
  unfold cleanup_temp_files. revert st.
  induction pages as [|p pages IH]; intros st.
  - exists st, []. split_and!; try done. by rewrite (right_id_L [] (++)).
  - cbn [for_each].
    destruct (cleanup_page_cases p st) as (st1 & d1 & H1 & Hl1 & Hd1).
    destruct (IH st1) as (st2 & d2 & H2 & Hl2 & Hp2 & Hu2).
    exists st2, (d1 ++ d2). split_and!.
    + unfold Eff.bind. by rewrite H1.
    + rewrite Hl2, Hl1. by rewrite <- (assoc_L (++)).
    + rewrite filter_app, Hp2.
      by destruct Hd1 as [->|[-> _]].
    + apply Forall_app. split; [|done].
      destruct Hd1 as [->|[-> Hex]].
      * repeat constructor. exists (image_path p). by left.
      * repeat constructor; exists (image_path p); [by left|by right].
Qed.

(** ** [validate_pdf], [get_pdf_info] and [process_pdf_file] *)

Lemma validate_pdf_cases (pdf_path : str) st :
  ∃ b st' d,
    validate_pdf F pdf_path st = (inr b, st')
    ∧ log st' = log st ++ d
    ∧ opens d = [Open pdf_path]
    ∧ (d = [Open pdf_path] ∨ d = [Open pdf_path; Close])
    ∧ (b = true →
       d = [Open pdf_path; Close]
       ∧ ∃ n w w', fitz_open F pdf_path w = (inr n, w') ∧ 0 < n).
Proof.
  unfold validate_pdf.
  destruct (fitz_open F pdf_path (world st)) as [[e|n] w] eqn:Ho.
  - eexists _, _, [Open pdf_path]. split_and!.
    + rewrite (eff_try_except_inl _ _ _ e (logged st (Open pdf_path) w));
        [done|].
      by rewrite (eff_bind_inl _ _ _ _ _ (pcall_inl _ _ _ _ _ Ho)).
    + done.
    + done.
    + by left.
    + done.
  - destruct (doc_close F (world (logged st (Open pdf_path) w)))
      as [[e|[]] w1] eqn:Hc.
    + eexists _, _, [Open pdf_path; Close]. split_and!.
      * rewrite (eff_try_except_inl _ _ _ e
                   (logged (logged st (Open pdf_path) w) Close w1)); [done|].
        rewrite (eff_bind_inr _ _ _ _ _ (pcall_inr _ _ _ _ _ Ho)).
        by rewrite (eff_bind_inl _ _ _ _ _ (pcall_inl _ _ _ _ _ Hc)).
      * cbn [log logged]. by rewrite <- (assoc_L (++)).
      * done.
      * by right.
      * done.
    + eexists _, _, [Open pdf_path; Close]. split_and!.
      * apply eff_try_except_inr.
        rewrite (eff_bind_inr _ _ _ _ _ (pcall_inr _ _ _ _ _ Ho)).
        by rewrite (eff_bind_inr _ _ _ _ _ (pcall_inr _ _ _ _ _ Hc)).
      * cbn [log logged]. by rewrite <- (assoc_L (++)).
      * done.
      * by right.
      * intros Hn%Z.ltb_lt. split; [done|]. by exists n, (world st), w.
Qed.

Lemma get_pdf_info_cases (pdf_path : str) st :
  ∃ r st' d,
    get_pdf_info F pdf_path st = (r, st')
    ∧ log st' = log st ++ d
    ∧ opens d = [Open pdf_path]
    ∧ match r with
      | inl e => ∃ e', e = info_failed e'
      | inr info =>
          ∃ w w', fitz_open F pdf_path w = (inr (page_count info), w')
      end.
Proof.
  unfold get_pdf_info.
  assert (∀ (m : Eff St (PdfInfo (Dim := Dim))) e st1 d,
            m st = (inl e, st1) → log st1 = log st ++ d →
            opens d = [Open pdf_path] →
            ∃ r st' d,
              try_except m (λ e, raise (info_failed e)) st = (r, st')
              ∧ log st' = log st ++ d
              ∧ opens d = [Open pdf_path]
              ∧ match r with
                | inl e => ∃ e', e = info_failed e'
                | inr info =>
                    ∃ w w', fitz_open F pdf_path w
                            = (inr (page_count info), w')
                end) as Hraise.
  { intros m e st1 d Hm Hl Ho. exists (inl (info_failed e)), st1, d.
    split_and!; [|done|done|by exists e].
    by rewrite (eff_try_except_inl _ _ _ _ _ Hm). }
  destruct (fitz_open F pdf_path (world st)) as [[e|n] w1] eqn:H1.
  { eapply Hraise with (d := [Open pdf_path]);
      [by rewrite (eff_bind_inl _ _ _ _ _ (pcall_inl _ _ _ _ _ H1))
      |done|done]. }
  destruct (metadata F (world (logged st (Open pdf_path) w1)))
    as [[e|meta] w2] eqn:H2.
  { eapply Hraise with (d := [Open pdf_path; Metadata]).
    - rewrite (eff_bind_inr _ _ _ _ _ (pcall_inr _ _ _ _ _ H1)).
      by rewrite (eff_bind_inl _ _ _ _ _ (pcall_inl _ _ _ _ _ H2)).
    - cbn [log logged]. by rewrite <- (assoc_L (++)).
    - done. }
  set (st2 := logged (logged st (Open pdf_path) w1) Metadata w2).
  assert (∃ r3 st3 d3,
            (if 0 <? n
             then rect ← call (LoadPage 0) (load_page F 0); ret (Some rect)
             else ret None) st2 = (r3, st3)
            ∧ log st3 = log st2 ++ d3 ∧ opens d3 = [])
    as (r3 & st3 & d3 & H3 & Hl3 & Ho3).
  { destruct (0 <? n).
    - destruct (load_page F 0 (world st2)) as [[e|rect] w3] eqn:Hp.
      + eexists _, _, [LoadPage 0]. split; [|split; [|done]].
        * by rewrite (eff_bind_inl _ _ _ _ _ (pcall_inl _ _ _ _ _ Hp)).
        * done.
      + eexists _, _, [LoadPage 0]. split; [|split; [|done]].
        * by rewrite (eff_bind_inr _ _ _ _ _ (pcall_inr _ _ _ _ _ Hp)).
        * done.
    - eexists _, _, []. split; [done|]. by rewrite (right_id_L [] (++)). }
  assert (log st3 = log st ++ [Open pdf_path; Metadata] ++ d3) as Hl3'.
  { rewrite Hl3. unfold st2. cbn [log logged].
    by rewrite <- !(assoc_L (++)). }
  assert (opens ([Open pdf_path; Metadata] ++ d3) = [Open pdf_path])
    as Ho3' by (by rewrite filter_app, Ho3).
  destruct r3 as [e|size].
  { eapply Hraise with (d := [Open pdf_path; Metadata] ++ d3).
    - rewrite (eff_bind_inr _ _ _ _ _ (pcall_inr _ _ _ _ _ H1)).
      rewrite (eff_bind_inr _ _ _ _ _ (pcall_inr _ _ _ _ _ H2)).
      by rewrite (eff_bind_inl _ _ _ _ _ H3).
    - exact Hl3'.
    - exact Ho3'. }
  destruct (getsize F pdf_path (world st3)) as [[e|bytes] w4] eqn:H4.
  { eapply Hraise with (d := ([Open pdf_path; Metadata] ++ d3)
                             ++ [GetSize pdf_path]).
    - rewrite (eff_bind_inr _ _ _ _ _ (pcall_inr _ _ _ _ _ H1)).
      rewrite (eff_bind_inr _ _ _ _ _ (pcall_inr _ _ _ _ _ H2)).
      rewrite (eff_bind_inr _ _ _ _ _ H3).
      by rewrite (eff_bind_inl _ _ _ _ _ (pcall_inl _ _ _ _ _ H4)).
    - cbn [log logged]. rewrite ?Hl3'. cbn [log logged]. rewrite ?Hl3'.
      by rewrite <- !(assoc_L (++)).
    - rewrite filter_app, Ho3'. done. }
  destruct (doc_close F (world (logged st3 (GetSize pdf_path) w4)))
    as [[e|[]] w5] eqn:H5.
  { eapply Hraise with (d := ([Open pdf_path; Metadata] ++ d3)
                             ++ [GetSize pdf_path; Close]).
    - rewrite (eff_bind_inr _ _ _ _ _ (pcall_inr _ _ _ _ _ H1)).
      rewrite (eff_bind_inr _ _ _ _ _ (pcall_inr _ _ _ _ _ H2)).
      rewrite (eff_bind_inr _ _ _ _ _ H3).
      rewrite (eff_bind_inr _ _ _ _ _ (pcall_inr _ _ _ _ _ H4)).
      by rewrite (eff_bind_inl _ _ _ _ _ (pcall_inl _ _ _ _ _ H5)).
    - cbn [log logged]. rewrite ?Hl3'. cbn [log logged]. rewrite ?Hl3'.
      by rewrite <- !(assoc_L (++)).
    - rewrite filter_app, Ho3'. done. }
  eexists _, _, (([Open pdf_path; Metadata] ++ d3)
                 ++ [GetSize pdf_path; Close]).
  split_and!.
  - apply eff_try_except_inr.
    rewrite (eff_bind_inr _ _ _ _ _ (pcall_inr _ _ _ _ _ H1)).
    rewrite (eff_bind_inr _ _ _ _ _ (pcall_inr _ _ _ _ _ H2)).
    rewrite (eff_bind_inr _ _ _ _ _ H3).
    rewrite (eff_bind_inr _ _ _ _ _ (pcall_inr _ _ _ _ _ H4)).
    by rewrite (eff_bind_inr _ _ _ _ _ (pcall_inr _ _ _ _ _ H5)).
  - cbn [log logged]. rewrite ?Hl3'. cbn [log logged]. rewrite ?Hl3'.
    by rewrite <- !(assoc_L (++)).
  - rewrite filter_app, Ho3'. done.
  - by exists (world st), w1.
Qed.

(** X21. [validate_pdf] never raises: whatever goes wrong when the
    document is opened or closed, it answers [False].
    [process_pdf_file] therefore reports every such failure, a missing
    file included, as "Invalid or unreadable PDF file", with the cause
    left out.  Its other failures are that of making the directory,
    raised as it is, and those of [get_pdf_info] and of the extraction,
    raised under their own prefixes.  A run that returns has opened the
    document three times, once for each of the validation, the
    information and the pages, and returns png pages at 300 dpi numbered
    from 1. *)
Theorem process_pdf_file_outcomes (pdf_path : str) st :
  (∃ b st' d, validate_pdf F pdf_path st = (inr b, st')
              ∧ log st' = log st ++ d
              ∧ (d = [Open pdf_path] ∨ d = [Open pdf_path; Close]))
  ∧ ∃ r st' d,
      process_pdf_file F pdf_path st = (r, st')
      ∧ log st' = log st ++ d
      ∧ head d = Some Mkdir
      ∧ match r with
        | inl e =>
            (d = [Mkdir] ∧ ∃ w w', mkdir F w = (inl e, w'))
            ∨ (e = invalid_pdf
               ∧ (d = [Mkdir; Open pdf_path]
                  ∨ d = [Mkdir; Open pdf_path; Close]))
            ∨ (opens d = [Open pdf_path; Open pdf_path]
               ∧ ∃ e', e = lit "Failed to get PDF info: " ++ e')
            ∨ (opens d = [Open pdf_path; Open pdf_path; Open pdf_path]
               ∧ ∃ e', e = lit "Failed to process PDF: " ++ e')
        | inr (pages, info) =>
            opens d = [Open pdf_path; Open pdf_path; Open pdf_path]
            ∧ last d = Some Close
            ∧ (∃ n, page_number <$> pages = seqZ 1 n)
            ∧ Forall (λ p, dpi p = 300 ∧ format p = lit "png") pages
        end.
Proof.
  split.
  { destruct (validate_pdf_cases pdf_path st)
      as (b & st' & d & Hrun & Hlog & _ & Hd & _).
    by exists b, st', d. }
  unfold process_pdf_file.
  destruct (mkdir F (world st)) as [[e|[]] w0] eqn:Hmk.
  { rewrite (eff_bind_inl _ _ _ _ _ (pcall_inl _ _ _ _ _ Hmk)).
    eexists _, _, [Mkdir]. split; [done|]. split; [done|]. split; [done|].
    left. split; [done|]. by exists (world st), w0. }
  rewrite (eff_bind_inr _ _ _ _ _ (pcall_inr _ _ _ _ _ Hmk)).
  destruct (validate_pdf_cases pdf_path (logged st Mkdir w0))
    as (b & st1 & d1 & H1 & Hl1 & Ho1 & Hd1 & Hb).
  rewrite (eff_bind_inr _ _ _ _ _ H1).
  cbn [log logged] in Hl1.
  destruct b; cbn [negb].
  2:{ exists (inl invalid_pdf), st1, (Mkdir :: d1). split_and!.
      - done.
      - rewrite Hl1. by rewrite <- (assoc_L (++)).
      - done.
      - right. left. split; [done|]. by destruct Hd1 as [->| ->]; [left|right]. }
  destruct (get_pdf_info_cases pdf_path st1)
    as (r2 & st2 & d2 & H2 & Hl2 & Ho2 & Hr2).
  destruct r2 as [e|info].
  { rewrite (eff_bind_inl _ _ _ _ _ H2).
    exists (inl e), st2, (Mkdir :: d1 ++ d2). split_and!.
    - done.
    - rewrite Hl2, Hl1. by rewrite <- !(assoc_L (++)).
    - done.
    - right. right. left. split; [|done].
      rewrite filter_cons_False by done. by rewrite filter_app, Ho1, Ho2. }
  rewrite (eff_bind_inr _ _ _ _ _ H2).
  destruct (extract_cases pdf_path 300 (lit "png") st2)
    as (r3 & st3 & d3 & H3 & Hl3 & _ & Ho3 & _ & Hok & Hfail).
  assert (log st3 = log st ++ Mkdir :: d1 ++ d2 ++ d3) as Hlog.
  { rewrite Hl3, Hl2, Hl1. by rewrite <- !(assoc_L (++)). }
  assert (opens (Mkdir :: d1 ++ d2 ++ d3)
          = [Open pdf_path; Open pdf_path; Open pdf_path]) as Hopens.
  { rewrite filter_cons_False by done.
    by rewrite !filter_app, Ho1, Ho2, Ho3. }
  destruct r3 as [e|pages].
  { rewrite (eff_bind_inl _ _ _ _ _ H3).
    exists (inl e), st3, (Mkdir :: d1 ++ d2 ++ d3).
    split; [done|]. split; [done|]. split; [done|].
    right. right. right. split; [done|].
    destruct (Hfail e eq_refl) as (e' & -> & _). by exists e'. }
  rewrite (eff_bind_inr _ _ _ _ _ H3).
  exists (inr (pages, info)), st3, (Mkdir :: d1 ++ d2 ++ d3).
  split; [done|]. split; [done|]. split; [done|].
  destruct (Hok pages eq_refl) as (n & _ & Hentries & _ & Hlast & _).
  split_and!.
  - done.
  - apply last_Some in Hlast as [d3' ->].
    rewrite !(assoc_L (++)).
    change (Mkdir :: ((d1 ++ d2) ++ d3') ++ [Close])
      with ((Mkdir :: (d1 ++ d2) ++ d3') ++ [Close]).
    by rewrite last_snoc.
  - exists n. by eapply entries_numbered.
  - clear -Hentries. induction Hentries as [|i p' nums ps Hp _ IH];
      [done|].
    constructor; [|done]. by destruct Hp as (_ & -> & -> & _).
Qed.

End Facts.
End PdfFacts.

(* ===================================================================== *)
(** * The Gemini client                                                   *)
(* ===================================================================== *)

Module GeminiFacts.
Import Py Eff Gemini EffFacts.

Section Facts.
Context {World Dim Time Response J : Type}.
Context (G : Api (World := World) (Dim := Dim) (Time := Time)
                 (Response := Response) (J := J)).

Implicit Types (st : St (World := World) (Time := Time)).
Implicit Types (d : list (Ev (Time := Time))).

Local Abbreviation uploads d := (filter (λ ev, is_upload ev = true) d).
Local Abbreviation deletes d := (filter (λ ev, is_delete ev = true) d).
Local Abbreviation generations d :=
  (filter (λ ev, is_generate_content ev = true) d).

Lemma gcall_inr {A} (ev : Ev) (f : World → (exn + A) * World) st a w :
  f (world st) = (inr a, w) → call ev f st = (inr a, logged st ev w).
Proof. intros H. unfold call. by rewrite H. Qed.

Lemma gcall_inl {A} (ev : Ev) (f : World → (exn + A) * World) st e w :
  f (world st) = (inl e, w) → call ev f st = (inl e, logged st ev w).
Proof. intros H. unfold call. by rewrite H. Qed.

Ltac step H :=
  match goal with
  | |- context [(call ?ev ?f ≫= ?k) ?s] =>
      let e := fresh "e" in
      let a := fresh "a" in
      let w := fresh "w" in
      destruct (f (world s)) as [[e|a] w] eqn:H;
      [ rewrite (eff_bind_inl _ k s _ _ (gcall_inl ev f s _ _ H))
      | rewrite (eff_bind_inr _ k s _ _ (gcall_inr ev f s _ _ H)) ]
  end.

(** [_rate_limit] never raises; the one call it may make is a sleep. *)
Lemma _rate_limit_spec st :
  ∃ st' d,
    _rate_limit G st = (inr (), st')
    ∧ log st' = log st ++ d
    ∧ (d = [] ∨ ∃ t, d = [Sleep t]).
Proof.
  unfold _rate_limit, time, get_last_call_time, set_last_call_time, call.
  unfold mbind, Eff_bind, bind, ret.
  destruct (clock G (world st)) as [t1 w1]. cbn [world log last_call_time].
  destruct (less G _ _); cbn [world log last_call_time logged].
  - destruct (clock G _) as [t2 w2]. eexists _, _. split; [done|].
    split; [done|]. right. by eexists.
  - destruct (clock G _) as [t2 w2]. eexists _, []. split; [done|].
    split; [by rewrite (right_id_L [] (++))|]. by left.
Qed.

Lemma lift_bind {A B} (r : exn + A) (k : A → Eff St B) st :
  (lift r ≫= k) st
  = match r with inl e => (inl e, st) | inr a => k a st end.
Proof. by destruct r. Qed.

Lemma _rate_limit_quiet st :
  ∃ st' d,
    _rate_limit G st = (inr (), st')
    ∧ log st' = log st ++ d
    ∧ uploads d = [] ∧ deletes d = [] ∧ generations d = [].
Proof.
  destruct (_rate_limit_spec st) as (st' & d & Hrun & Hlog & Hd).
  exists st', d. split; [done|]. split; [done|].
  by destruct Hd as [->|[t ->]].
Qed.

(** ** [generate_initial_html] *)

(** X22. [generate_initial_html] uploads the image once.  When it
    returns, the model was asked once with the prompt of the page and
    the uploaded file, its answer had a text that is not empty, what is
    returned is that text stripped, and the uploaded file was deleted as
    the last call.  Every failure (the upload, the request, reading the
    text, an empty text, the deletion) is raised as
    "Failed to generate HTML: ..."; on these paths the uploaded file is
    not deleted, the one failing run with a deletion being that in which
    the deletion itself raised. *)
Theorem generate_initial_html_outcomes (image_path : str)
    (page_info : PageInfo) st :
  ∃ r st' d,
    generate_initial_html G image_path page_info st = (r, st')
    ∧ log st' = log st ++ d
    ∧ (length (uploads d) ≤ 1)%nat
    ∧ match r with
      | inr html =>
          ∃ name response t,
            text G response = inr t ∧ t ≠ [] ∧ html = strip t
            ∧ uploads d
              = [UploadFile image_path
                   (lit "PDF Page " ++ str_of_int (page_number page_info))]
            ∧ generations d
              = [GenerateContent (initial_prompt G page_info) [name]]
            ∧ deletes d = [DeleteFile name]
            ∧ last d = Some (DeleteFile name)
      | inl e =>
          ∃ e', e = lit "Failed to generate HTML: " ++ e'
                ∧ (deletes d = []
                   ∨ ∃ name w w', delete_file G name w = (inl e', w'))
      end.
Proof.
  unfold generate_initial_html.
  destruct (_rate_limit_quiet st) as (st0 & d0 & H0 & Hl0 & Hu0 & Hd0 & Hg0).
  rewrite (eff_bind_inr _ _ _ _ _ H0). cbv zeta. unfold try_except.
  step H1; cbv beta iota.
  { eexists _, _, (d0 ++ [_]). split; [done|]. split.
    { cbn [log logged]. by rewrite Hl0, <- (assoc_L (++)). }
    rewrite !filter_app, Hu0, Hd0. split; [done|].
    eexists. split; [done|]. by left. }
  step H2; cbv beta iota.
  { eexists _, _, (d0 ++ [_; _]). split; [done|]. split.
    { cbn [log logged]. by rewrite Hl0, <- !(assoc_L (++)). }
    rewrite !filter_app, Hu0, Hd0. split; [done|].
    eexists. split; [done|]. by left. }
  set (name := a). set (response := a0).
  rewrite lift_bind.
  destruct (text G response) as [e|t] eqn:Ht; cbv beta iota.
  { eexists _, _, (d0 ++ [_; _]). split; [done|]. split.
    { cbn [log logged]. by rewrite Hl0, <- !(assoc_L (++)). }
    rewrite !filter_app, Hu0, Hd0. split; [done|].
    eexists. split; [done|]. by left. }
  case_bool_decide as Hempty; cbv beta iota.
  { eexists _, _, (d0 ++ [_; _]). split; [done|]. split.
    { cbn [log logged]. by rewrite Hl0, <- !(assoc_L (++)). }
    rewrite !filter_app, Hu0, Hd0. split; [done|].
    eexists. split; [done|]. by left. }
  step H4; cbv beta iota.
  { eexists _, _, (d0 ++ [_; _; _]). split; [done|]. split.
    { cbn [log logged]. by rewrite Hl0, <- !(assoc_L (++)). }
    rewrite !filter_app, Hu0, Hd0. split; [done|].
    eexists. split; [done|]. right. by eexists _, _, _. }
  eexists _, _, (d0 ++ [_; _; _]). split; [done|]. split.
  { cbn [log logged]. by rewrite Hl0, <- !(assoc_L (++)). }
  rewrite !filter_app, Hu0, Hd0, Hg0. split; [done|].
  exists name, response, t. split_and!; try done.
  by rewrite last_app.
Qed.

(** ** [refine_html] *)

(** The state and the log of a run that made the calls [extra] after
    the rate limiting; what is left is what the result keeps to. *)
Tactic Notation "ran" constr(d0) constr(Hl0) uconstr(extra) :=
  eexists _, _, (d0 ++ extra);
  split; [done|]; split;
  [cbn [log logged]; by rewrite Hl0, <- !(assoc_L (++))|];
  rewrite !filter_app.

(** X23. [refine_html] uploads the page image and then the screenshot.
    When it returns, the model was asked once, with the prompt that
    carries the current markup and the iteration number and with the two
    uploaded files; what is returned is the text of the answer,
    stripped, and that text was not empty; the two files were deleted,
    the screenshot last.  Every failure is raised as
    "Failed to refine HTML: ..."; on these paths no file is deleted,
    unless the failure is that of a deletion: an empty answer leaves
    both uploaded files in place. *)
Theorem refine_html_outcomes (original_image_path current_html
    screenshot_path : str) (page_info : PageInfo) (iteration : Z) st :
  ∃ r st' d,
    refine_html G original_image_path current_html screenshot_path
                page_info iteration st = (r, st')
    ∧ log st' = log st ++ d
    ∧ (length (uploads d) ≤ 2)%nat
    ∧ match r with
      | inr html =>
          ∃ original screenshot response t,
            text G response = inr t ∧ t ≠ [] ∧ html = strip t
            ∧ uploads d
              = [UploadFile original_image_path
                   (lit "Original Page "
                    ++ str_of_int (page_number page_info));
                 UploadFile screenshot_path
                   (lit "Current Rendering Page "
                    ++ str_of_int (page_number page_info))]
            ∧ generations d
              = [GenerateContent
                   (refinement_prompt G page_info current_html iteration)
                   [original; screenshot]]
            ∧ deletes d = [DeleteFile original; DeleteFile screenshot]
            ∧ last d = Some (DeleteFile screenshot)
      | inl e =>
          ∃ e', e = lit "Failed to refine HTML: " ++ e'
                ∧ (deletes d = []
                   ∨ ∃ name w w', delete_file G name w = (inl e', w'))
      end.
Proof.
  unfold refine_html.
  destruct (_rate_limit_quiet st) as (st0 & d0 & H0 & Hl0 & Hu0 & Hd0 & Hg0).
  rewrite (eff_bind_inr _ _ _ _ _ H0). cbv zeta. unfold try_except.
  step H1; cbv beta iota.
  { ran d0 Hl0 [_]. rewrite Hu0, Hd0. split; [by repeat constructor|].
    eexists. split; [done|]. by left. }
  step H2; cbv beta iota.
  { ran d0 Hl0 [_; _]. rewrite Hu0, Hd0. split; [by repeat constructor|].
    eexists. split; [done|]. by left. }
  step H3; cbv beta iota.
  { ran d0 Hl0 [_; _; _]. rewrite Hu0, Hd0. split; [by repeat constructor|].
    eexists. split; [done|]. by left. }
  rewrite lift_bind.
  destruct (text G a1) as [e|t] eqn:Ht; cbv beta iota.
  { ran d0 Hl0 [_; _; _]. rewrite Hu0, Hd0. split; [by repeat constructor|].
    eexists. split; [done|]. by left. }
  case_bool_decide as Hempty; cbv beta iota.
  { ran d0 Hl0 [_; _; _]. rewrite Hu0, Hd0. split; [by repeat constructor|].
    eexists. split; [done|]. by left. }
  step H4; cbv beta iota.
  { ran d0 Hl0 [_; _; _; _]. rewrite Hu0, Hd0. split; [by repeat constructor|].
    eexists. split; [done|]. right. by eexists _, _, _. }
  step H5; cbv beta iota.
  { ran d0 Hl0 [_; _; _; _; _]. rewrite Hu0, Hd0. split; [by repeat constructor|].
    eexists. split; [done|]. right. by eexists _, _, _. }
  ran d0 Hl0 [_; _; _; _; _]. rewrite Hu0, Hd0, Hg0. split; [by repeat constructor|].
  exists a, a0, a1, t. split_and!; try done. by rewrite last_app.
Qed.

(** ** [analyze_visual_similarity] *)

(** X24. [analyze_visual_similarity] never raises.  It returns the value
    decoded from the answer of the model, or, when the answer is not
    JSON, the default values with the score 7 and "Unable to analyze";
    in both cases the two uploaded files were deleted.  Whatever else
    goes wrong (an upload, the request, a deletion, reading the text of
    the answer, another failure of the decoder) it returns the default
    values with the score 5 and "Analysis failed".  It deletes a file
    only after the request returned: if the request raises, both
    uploaded files stay. *)
Theorem analyze_never_raises (original_image_path screenshot_path : str) st :
  ∃ a st' d,
    analyze_visual_similarity G original_image_path screenshot_path st
    = (inr a, st')
    ∧ log st' = log st ++ d
    ∧ (length (uploads d) ≤ 2)%nat
    ∧ ((a = Defaults 5 (lit "Analysis failed") (lit "Manual review needed"))
       ∨ (∃ response t,
            text G response = inr t
            ∧ length (deletes d) = 2%nat
            ∧ match json_loads G (strip t) with
              | Json j => a = FromModel j
              | JSONDecodeError =>
                  a = Defaults 7 (lit "Unable to analyze")
                               (lit "Manual review recommended")
              | OtherError _ => False
              end))
    ∧ (deletes d ≠ [] →
       ∃ files response w w',
         generate_content G analysis_prompt files w
         = (inr response, w')).
Proof.
  unfold analyze_visual_similarity.
  destruct (_rate_limit_quiet st) as (st0 & d0 & H0 & Hl0 & Hu0 & Hd0 & Hg0).
  rewrite (eff_bind_inr _ _ _ _ _ H0). cbv zeta. unfold try_except.
  step H1; cbv beta iota.
  { ran d0 Hl0 [_]. rewrite Hu0, Hd0. split; [by repeat constructor|].
    split; [by left|done]. }
  step H2; cbv beta iota.
  { ran d0 Hl0 [_; _]. rewrite Hu0, Hd0. split; [by repeat constructor|].
    split; [by left|done]. }
  step H3; cbv beta iota.
  { ran d0 Hl0 [_; _; _]. rewrite Hu0, Hd0. split; [by repeat constructor|].
    split; [by left|done]. }
  assert (∃ files response w w',
            generate_content G analysis_prompt files w
            = (inr response, w')) as Hasked by by eexists _, _, _, _.
  step H4; cbv beta iota.
  { ran d0 Hl0 [_; _; _; _]. rewrite Hu0, Hd0. split; [by repeat constructor|].
    split; [by left|done]. }
  step H5; cbv beta iota.
  { ran d0 Hl0 [_; _; _; _; _]. rewrite Hu0, Hd0. split; [by repeat constructor|].
    split; [by left|done]. }
  rewrite lift_bind.
  destruct (text G a1) as [e|t] eqn:Ht; cbv beta iota.
  { ran d0 Hl0 [_; _; _; _; _]. rewrite Hu0, Hd0. split; [by repeat constructor|].
    split; [by left|done]. }
  destruct (json_loads G (strip t)) as [j| |e] eqn:Hjson; cbv beta iota.
  - ran d0 Hl0 [_; _; _; _; _]. rewrite Hu0, Hd0. split; [by repeat constructor|].
    split; [|done]. right. exists a1, t. by rewrite Hjson.
  - ran d0 Hl0 [_; _; _; _; _]. rewrite Hu0, Hd0. split; [by repeat constructor|].
    split; [|done]. right. exists a1, t. by rewrite Hjson.
  - ran d0 Hl0 [_; _; _; _; _]. rewrite Hu0, Hd0. split; [by repeat constructor|].
    split; [by left|done].
Qed.

(** What [analyze_visual_similarity] can return. *)
Lemma analyze_returns (original_image_path screenshot_path : str) st :
  ∃ a st',
    analyze_visual_similarity G original_image_path screenshot_path st
    = (inr a, st')
    ∧ (a = analysis_failed ∨ a = unable_to_analyze ∨ ∃ j, a = FromModel j).
Proof.
  unfold analyze_visual_similarity.
  destruct (_rate_limit_quiet st) as (st0 & d0 & H0 & _).
  rewrite (eff_bind_inr _ _ _ _ _ H0). cbv zeta. unfold try_except.
  step H1; cbv beta iota; [eexists _, _; split; [done|by left]|].
  step H2; cbv beta iota; [eexists _, _; split; [done|by left]|].
  step H3; cbv beta iota; [eexists _, _; split; [done|by left]|].
  step H4; cbv beta iota; [eexists _, _; split; [done|by left]|].
  step H5; cbv beta iota; [eexists _, _; split; [done|by left]|].
  rewrite lift_bind.
  destruct (text G a1) as [e|t]; cbv beta iota;
    [eexists _, _; split; [done|by left]|].
  destruct (json_loads G (strip t)) as [j| |e]; cbv beta iota;
    eexists _, _; (split; [done|]).
  - right. right. by exists j.
  - right. by left.
  - by left.
Qed.

End Facts.
End GeminiFacts.

(* ===================================================================== *)
(** * The engine with its own client and processor                        *)
(* ===================================================================== *)

Module WiredFacts.
Import Py Words.

Section Facts.
Context {World Dim Time Response J : Type}.
Context (G : Gemini.Api (World := World) (Dim := Dim) (Time := Time)
                        (Response := Response) (J := J)).
Context (score_of : J → Engine.exn + option Z).
Context (C0 : Engine.Collaborators
                (World := Gemini.St (World := World) (Time := Time))
                (Dim := Dim)).

Local Abbreviation C := (Wired.wired G score_of C0).

Lemma extraction_raises (pdf_path : str) w :
  Engine.process_pdf_file C pdf_path w
  = (inl (Wired.attribute_error "PDFProcessor" "process_pdf_file"), w).
Proof. reflexivity. Qed.

(** X25. The engine as [RefinementEngine.__init__] builds it cannot
    extract a page: it asks its [PDFProcessor] object for
    [process_pdf_file], which is a function of the module and not an
    attribute of the object, so the lookup raises.  Every run of
    [convert_pdf_to_html] on this engine therefore returns the error
    dictionary with the message of that [AttributeError]; the task is
    left [failed], without pages; no generation call and no clean-up
    call is made. *)
Theorem wired_engine_cannot_extract (pdf_path : str) (tid0 : option str)
    (st : Engine.St) :
  let e := lit "'PDFProcessor' object has no attribute 'process_pdf_file'" in
  ∃ tid st' d ti,
    Engine.convert_pdf_to_html C pdf_path tid0 st
    = (inr (Engine.Error tid e [lit "Fatal error in PDF conversion: " ++ e]),
       st')
    ∧ EngineOps.get_task_status tid st' = Some ti
    ∧ Engine.status ti = Engine.failed
    ∧ Engine.pages ti = []
    ∧ Engine.combined_html ti = None
    ∧ Engine.calls st' = Engine.calls st ++ d
    ∧ only is_generate d = []
    ∧ only is_cleanup d = [].
Proof.
  intros e.
  destruct (EngineMore.convert_cases C pdf_path tid0 st)
    as (tid & result & st' & d & ti & Hrun & _ & Ht & Hcalls & Hcase).
  destruct Hcase as [(e' & -> & -> & Hclean & Hgen & w & w' & Hex)|
                     (pds & info & res & _ & _ & _ & _ & _ & w & w' & Hex)].
  - rewrite extraction_raises in Hex. injection Hex as <- _.
    exists tid, st', d. eexists. split_and!.
    + exact Hrun.
    + unfold EngineOps.get_task_status. by rewrite Ht, lookup_insert_eq.
    + reflexivity.
    + reflexivity.
    + reflexivity.
    + exact Hcalls.
    + exact Hgen.
    + exact Hclean.
  - by rewrite extraction_raises in Hex.
Qed.

(** X26. On this engine the analysis never raises of itself, and every
    score a page records is the 5 of the client's "Analysis failed"
    defaults, the 7 of its "Unable to analyze" defaults or of the
    engine's own default, or the ['overall_score'] of a value decoded
    from the answer of the model.  The engine's handler for a failing
    analysis is reached only when reading the score from that decoded
    value raises: a request that fails is scored 5 by the client, not 7
    by the engine. *)
Theorem wired_engine_scores (tid : str) (pd : Engine.PageData) st :
  (∀ original screenshot w,
     ∃ a w',
       Gemini.analyze_visual_similarity G original screenshot w = (inr a, w')
       ∧ Engine.analyze_visual_similarity C original screenshot w
         = (Wired.overall_of score_of a, w')
       ∧ (a = Gemini.analysis_failed →
          Engine.analyze_visual_similarity C original screenshot w
          = (inr (Some 5), w')))
  ∧ ∃ r st',
      Engine._process_single_page C tid pd st = (r, st')
      ∧ ∀ res, r = inr res →
          ∃ scores,
            Engine.quality_progression res = Some scores
            ∧ Forall (Wired.score_source score_of) scores.
Proof.
  assert (∀ original screenshot w,
            ∃ a w',
              Gemini.analyze_visual_similarity G original screenshot w
              = (inr a, w')
              ∧ Engine.analyze_visual_similarity C original screenshot w
                = (Wired.overall_of score_of a, w')
              ∧ (a = Gemini.analysis_failed ∨ a = Gemini.unable_to_analyze
                 ∨ ∃ j, a = Gemini.FromModel j)) as Hanalyze.
  { intros original screenshot w.
    destruct (GeminiFacts.analyze_returns G original screenshot w)
      as (a & w' & Hrun & Ha).
    exists a, w'. split; [done|]. split; [|done].
    cbn [Engine.analyze_visual_similarity Wired.wired]. by rewrite Hrun. }
  split.
  - intros original screenshot w.
    destruct (Hanalyze original screenshot w) as (a & w' & Hrun & Hwired & _).
    exists a, w'. split; [done|]. split; [done|].
    intros ->. by rewrite Hwired.
  - destruct (Engine._process_single_page C tid pd st) as [r st'] eqn:Hrun.
    exists r, st'. split; [done|]. intros res ->.
    apply (EngineMore._process_single_page_scores C
             (Wired.score_source score_of) pd) with (tid := tid) (st := st)
                                                   (st' := st'); [| |done].
    + intros shot w e w' _. right. by left.
    + intros shot w o w' Hret.
      destruct (Hanalyze (Engine.image_path pd) shot w)
        as (a & w1 & _ & Hwired & Ha).
      rewrite Hwired in Hret.
      destruct Ha as [->|[->|[j ->]]]; cbn [Wired.overall_of] in Hret.
      * injection Hret as <- _. by left.
      * injection Hret as <- _. right. by left.
      * injection Hret as Hj _. right. right. by exists j, o.
Qed.

End Facts.
End WiredFacts.

(* ===================================================================== *)
(** * A fallback page in the combined document                            *)
(* ===================================================================== *)

Module FallbackFacts.
Import Engine Words PyFacts CombineFacts.

(** ** The digits of [str(n)] *)

Lemma lit_String (c : ascii) (s : string) :
  lit (String c s) = N_of_ascii c :: lit s.
Proof. done. Qed.

Lemma pretty_N_char_plain (x : N) : N_of_ascii (pretty_N_char x) ≠ 60%N.
Proof. unfold pretty_N_char. by repeat case_match. Qed.

Lemma pretty_N_go_plain (x : N) (s : string) :
  60%N ∉ lit s → 60%N ∉ lit (pretty_N_go x s).
Proof.
  revert s. induction (N.lt_wf_0 x) as [x _ IH]; intros s Hs.
  destruct (decide (x = 0)%N) as [->|Hx].
  - by rewrite pretty_N_go_0.
  - rewrite pretty_N_go_step by lia. apply IH.
    + apply N.div_lt; lia.
    + rewrite lit_String, not_elem_of_cons. split; [|done].
      intros H. by apply (pretty_N_char_plain (x `mod` 10)).
Qed.

Lemma pretty_N_plain (x : N) : 60%N ∉ lit (pretty x).
Proof.
  unfold pretty, pretty_N. case_decide.
  - apply (bool_decide_unpack _). reflexivity.
  - apply pretty_N_go_plain, not_elem_of_nil.
Qed.

(** [str(n)] holds no [<]. *)
Lemma str_of_int_plain (n : Z) : 60%N ∉ str_of_int n.
Proof.
  unfold str_of_int, pretty, pretty_Z. destruct n as [|p|p].
  - apply (bool_decide_unpack _). reflexivity.
  - apply pretty_N_plain.
  - change ("-" +:+ pretty p)%string with (String "-" (pretty p)).
    rewrite lit_String, not_elem_of_cons. split; [done|].
    apply pretty_N_plain.
Qed.

(** ** Occurrences across a junction *)

(** An occurrence of [c :: sub] in [a ++ r] lies in [a], or lies in [r],
    or starts among the last characters of [a]. *)
Lemma occurs_app_cases (c : char) (sub a r : str) :
  occurs (c :: sub) (a ++ r) →
  occurs (c :: sub) a
  ∨ c ∈ drop (length a - length sub) a
  ∨ occurs (c :: sub) r.
Proof.
  intros (pre & post & H).
  apply app_eq_inv in H as [(k & Ha & Hk)|(k & Hpre & Hr)].
  - destruct k as [|c' k]; cbn [app] in Hk.
    + right. right. exists [], post. by rewrite <- Hk.
    + injection Hk as -> Hk. symmetry in Hk.
      apply app_eq_inv in Hk as [(k' & Hsub & Hpost)|(k' & Hk' & Hr)].
      * left. exists pre, k'. by rewrite Ha, Hsub.
      * destruct k' as [|x k'].
        { left. exists pre, []. subst a sub.
          by rewrite !(right_id_L [] (++)). }
        right. left. subst a sub.
        apply list_elem_of_lookup.
        exists (length pre - (length (pre ++ c' :: k)
                              - length (k ++ x :: k')))%nat.
        rewrite lookup_drop.
        replace (length (pre ++ c' :: k) - length (k ++ x :: k')
                 + (length pre - (length (pre ++ c' :: k)
                                  - length (k ++ x :: k'))))%nat
          with (length pre)
          by (rewrite !length_app; simpl; lia).
        by rewrite list_lookup_middle.
  - right. right. exists k, post. by rewrite Hr.
Qed.

Lemma occurs_elem_of (c : char) (sub s : str) :
  occurs (c :: sub) s → c ∈ s.
Proof.
  intros (pre & post & ->). cbn [app]. rewrite elem_of_app, elem_of_cons.
  auto.
Qed.

(** No occurrence of [c :: sub] comes from inserting a text without [c]
    between [a] and [b], when [c] is not among the last characters of
    [a]. *)
Lemma not_occurs_insert (c : char) (sub a m b : str) :
  c ∉ m →
  c ∉ drop (length a - length sub) a →
  ¬ occurs (c :: sub) a →
  ¬ occurs (c :: sub) b →
  ¬ occurs (c :: sub) (a ++ m ++ b).
Proof.
  intros Hm Ha Hoa Hob H.
  apply occurs_app_cases in H as [H|[H|H]]; [done|done|].
  apply occurs_app_cases in H as [H|[H|H]];
    [|by apply (subseteq_drop _ m) in H|done].
  by apply occurs_elem_of in H.
Qed.

(** ** [strip] of a text with a blank margin *)

Lemma lstrip_blank (ws s : str) : blank ws → lstrip (ws ++ s) = lstrip s.
Proof.
  induction 1 as [|c ws Hc _ IH]; [done|]. simpl. by rewrite Hc.
Qed.

Lemma lstrip_head (c : char) (s : str) :
  isspace c = false → lstrip (c :: s) = c :: s.
Proof. intros H. simpl. by rewrite H. Qed.

Lemma rstrip_blank (x ws : str) (c : char) :
  blank ws → isspace c = false → rstrip (x ++ c :: ws) = x ++ [c].
Proof.
  intros Hws Hc. unfold rstrip.
  rewrite reverse_app, reverse_cons, <- (assoc_L (++)).
  rewrite lstrip_blank by (by apply Forall_reverse).
  cbn [app]. rewrite lstrip_head by done.
  by rewrite reverse_cons, reverse_involutive.
Qed.

Lemma strip_core (ws1 ws2 core : str) (c1 c2 : char) :
  blank ws1 → blank ws2 →
  isspace c1 = false → isspace c2 = false →
  strip (ws1 ++ (c1 :: core ++ [c2]) ++ ws2) = c1 :: core ++ [c2].
Proof.
  intros H1 H2 Hc1 Hc2. unfold strip.
  replace (ws1 ++ (c1 :: core ++ [c2]) ++ ws2)
    with ((ws1 ++ c1 :: core) ++ c2 :: ws2)
    by (cbn [app]; by rewrite <- !(assoc_L (++))).
  rewrite rstrip_blank by done.
  rewrite <- (assoc_L (++)), lstrip_blank by done.
  cbn [app]. by rewrite lstrip_head.
Qed.

(** ** The fallback page *)

Section Fallback.
Context {World Dim : Type}.
Context (C : Collaborators (World := World) (Dim := Dim)).

(** X27. A fallback page contributes to the combined document its
    error container and nothing else: what [_combine_pages_to_html]
    takes from the markup of [_generate_fallback_html] is the
    [error-message] block, with the heading that names the page, the
    notice and the line of the original dimensions; the head of the
    fallback document, its title and its style sheet are left out.  This
    holds for every page number and whatever the dimensions print as. *)
Theorem fallback_page_content (pd : PageData (Dim := Dim)) :
  page_content (_generate_fallback_html C pd)
  = join nl [
      lit "<div class=" ++ q "error-message" ++ lit ">";
      lit "        <h2>Page " ++ str_of_int (page_number pd) ++ lit "</h2>";
      lit "        <p>This page could not be processed automatically.</p>";
      lit "        <p><small>Original dimensions: "
        ++ str_of_dim C (width pd) ++ lit "pt " ++ [195%N; 8212%N]
        ++ lit " " ++ str_of_dim C (height pd) ++ lit "pt</small></p>";
      lit "    </div>"
    ].
Proof.
  set (A := join nl [
         lit "<!DOCTYPE html>";
         lit "<html lang=" ++ q "en" ++ lit ">";
         lit "<head>";
         lit "    <meta charset=" ++ q "UTF-8" ++ lit ">";
         lit "    <meta name=" ++ q "viewport" ++ lit " content="
           ++ q "width=device-width, initial-scale=1.0" ++ lit ">";
         lit "    <title>Page "]).
  set (B := join nl [
         lit "</title>";
         lit "    <style>";
         lit "        body {";
         lit "            margin: 40px;";
         lit "            font-family: Arial, sans-serif;";
         lit "            display: flex;";
         lit "            align-items: center;";
         lit "            justify-content: center;";
         lit "            min-height: 60vh;";
         lit "            background-color: #f8f9fa;";
         lit "        }";
         lit "        .error-message {";
         lit "            text-align: center;";
         lit "            color: #6c757d;";
         lit "            padding: 40px;";
         lit "            border: 2px dashed #dee2e6;";
         lit "            border-radius: 10px;";
         lit "        }";
         lit "    </style>";
         lit "</head>";
         []]).
  set (core := lit "div class=" ++ q "error-message" ++ lit ">" ++ nl
         ++ lit "        <h2>Page " ++ str_of_int (page_number pd)
         ++ lit "</h2>" ++ nl
         ++ lit "        <p>This page could not be processed automatically.</p>"
         ++ nl
         ++ lit "        <p><small>Original dimensions: "
         ++ str_of_dim C (width pd) ++ lit "pt " ++ [195%N; 8212%N]
         ++ lit " " ++ str_of_dim C (height pd) ++ lit "pt</small></p>"
         ++ nl ++ lit "    </div").
  set (inner := (nl ++ lit "    ") ++ (60%N :: core ++ [62%N]) ++ nl).
  set (post := nl ++ lit "</html>").
  assert (_generate_fallback_html C pd
          = (A ++ str_of_int (page_number pd) ++ B) ++ lit "<body" ++ []
            ++ lit ">" ++ inner ++ lit "</body>" ++ post) as ->.
  { unfold _generate_fallback_html, A, B, inner, core, post.
    cbn [join].
    repeat first [rewrite <- app_assoc | rewrite <- app_comm_cons].
    generalize (str_of_int (page_number pd)) (str_of_dim C (width pd))
               (str_of_dim C (height pd)).
    intros m w h. vm_compute. reflexivity. }
  rewrite page_content_closed_body.
  - unfold inner. rewrite strip_core.
    + unfold core. cbn [join]. rewrite <- !(assoc_L (++)).
      generalize (str_of_int (page_number pd)) (str_of_dim C (width pd))
                 (str_of_dim C (height pd)).
      intros m w h. vm_compute. reflexivity.
    + by apply (bool_decide_unpack _).
    + by apply (bool_decide_unpack _).
    + reflexivity.
    + reflexivity.
  - rewrite <- !(assoc_L (++)).
    change (lit "<body") with (60%N :: lit "body").
    apply not_occurs_insert.
    + apply str_of_int_plain.
    + apply (bool_decide_unpack _). vm_compute. reflexivity.
    + apply not_occurs_by_find. vm_compute. reflexivity.
    + apply not_occurs_by_find. vm_compute. reflexivity.
  - apply not_elem_of_nil.
  - apply not_occurs_by_find. vm_compute. reflexivity.
Qed.

End Fallback.

End FallbackFacts.
